(** * AI Shipment Analysis API: the query pipeline of [backend/app/main.py]

    A shallow embedding of the question-answering core of the FastAPI
    service: keyword intent classification, the rule engine, the daily
    aggregation behind the trend chart and the forecaster, the forecaster's
    textual summary, the agent fallback, and the [/upload] and [/ask]
    routes over the process-wide [DATAFRAME].

    Modelling conventions.
    - A Python [str] is a Rocq [string]; every [ascii] stands for one code
      point below 256, so lengths and slices count characters.
    - A pandas numeric cell is an [option Qc]: [None] is NaN, [Some x] is
      the exact value of a finite float.  GrossQuantity and FlowRate are
      float64 columns (a column whose cells are all integers is read as
      int64 and summed in integers, with the same totals below 2^53; a
      cell that reads as an infinity is not covered).
    - Arithmetic on floats is binary64 arithmetic ([Double]): an operation
      returns the double nearest to its exact result, ties to the even
      mantissa, with signed zeros, infinities and NaN.  A column is summed
      in the order of numpy's pairwise summation, a resampling bin by
      pandas' compensated summation.
    - A pandas datetime cell is an [option Z]: [None] is NaT, [Some t] is a
      timezone-naive timestamp in nanoseconds since the epoch.
    - A handler's [Dict[str, Any]] result is a [gmap string string].
    - Code that can raise returns a [Result]; what the external
      collaborators do (pandas' CSV reader, the chart sink, Prophet, the
      LangChain agent) is a field of the records [Pandas] and
      [Externals]. *)

From Stdlib Require Import ZArith QArith Qcanon Qcabs String Ascii List Lia.
From Stdlib Require Import DecimalString DecimalN Sorting.Sorted.
From Stdlib Require Floats.
From stdpp Require Import base gmap strings list sorting.

Open Scope string_scope.
Open Scope Z_scope.
Open Scope list_scope.

(** * Python strings *)

Module PyStr.

(** [str.lower] on one code point below 256: the ASCII capitals and the
    Latin-1 capitals (all of U+00C0..U+00DE except the multiplication
    sign U+00D7) move up by 32; every other code point is unchanged. *)
Definition lower_char (c : ascii) : ascii :=
  let n := N_of_ascii c in
  if ((65 <=? n) && (n <=? 90) ||
      (192 <=? n) && (n <=? 222) && negb (n =? 215))%N
  then ascii_of_N (n + 32) else c.

Fixpoint lower (s : string) : string :=
  match s with
  | EmptyString => EmptyString
  | String c s' => String (lower_char c) (lower s')
  end.

(** [s.startswith(p)] *)
Fixpoint startswith (p s : string) : bool :=
  match p, s with
  | EmptyString, _ => true
  | String a p', String b s' => Ascii.eqb a b && startswith p' s'
  | String _ _, EmptyString => false
  end.

(** [k in s] for two strings: [k] occurs in [s] as a contiguous run. *)
Fixpoint contains (k s : string) : bool :=
  startswith k s ||
  match s with
  | EmptyString => false
  | String _ s' => contains k s'
  end.

(** [s[:n]] for a non-negative [n]. *)
Fixpoint slice_to (n : nat) (s : string) : string :=
  match n, s with
  | O, _ => EmptyString
  | S _, EmptyString => EmptyString
  | S n', String c s' => String c (slice_to n' s')
  end.

(** The specification of [in]: some text before and some text after. *)
Definition occurs_in (k s : string) : Prop :=
  ∃ pre post : string, s = pre +:+ k +:+ post.

(** [any(k in q for k in ks)] *)
Definition any_in (ks : list string) (q : string) : bool :=
  existsb (λ k, contains k q) ks.

End PyStr.

(** * Intent classification *)

Definition forecast_keywords : list string :=
  ["forecast"; "predict"; "projection"; "next "].

Definition trend_keywords : list string :=
  ["trend"; "over time"; "time series"; "by day"; "by month";
   "chart"; "plot"; "graph"].

Definition classify_query_intent (query : string) : string :=
  let q := PyStr.lower query in
  if PyStr.any_in forecast_keywords q then "forecast"
  else if PyStr.any_in trend_keywords q then "trend"
  else "analysis".

(** * Python number formatting *)

Module PyFormat.

Definition digit_char (d : Z) : ascii := ascii_of_N (Z.to_N (48 + d)).

(** The decimal digits of a non-negative integer, least significant
    first.  The fuel bounds the number of digits. *)
Fixpoint digits_rev (fuel : nat) (n : Z) : list ascii :=
  match fuel with
  | O => []
  | S fuel' =>
      digit_char (n mod 10) ::
      (if n / 10 =? 0 then [] else digits_rev fuel' (n / 10))
  end.

Definition digits_rev_of (n : Z) : list ascii :=
  digits_rev (S (Z.to_nat (Z.log2 n))) n.

(** [str(n)] for a non-negative integer. *)
Definition str_of_nonneg (n : Z) : string :=
  string_of_list_ascii (rev (digits_rev_of n)).

(** The integer nearest to [n / d] for [d > 0], ties to the even one:
    the rounding of the [f] presentation type. *)
Definition round_half_even (n d : Z) : Z :=
  let f := n / d in
  match 2 * (n mod d) ?= d with
  | Lt => f
  | Gt => f + 1
  | Eq => if Z.even f then f else f + 1
  end.

(** [|x|] in units of [10^-prec], rounded. *)
Definition scaled (prec : nat) (x : Qc) : Z :=
  round_half_even (Z.abs (Qnum x) * 10 ^ Z.of_nat prec) (Zpos (Qden x)).

(** The last [prec] decimal digits of [h], least significant first. *)
Fixpoint frac_digits_rev (prec : nat) (h : Z) : list ascii :=
  match prec with
  | O => []
  | S prec' => digit_char (h mod 10) :: frac_digits_rev prec' (h / 10)
  end.

(** The [,] option: a comma after every third digit, counted from the
    right; the argument and the result are least significant first. *)
Fixpoint group3_rev (ds : list ascii) : list ascii :=
  match ds with
  | a :: b :: c :: ((_ :: _) as rest) =>
      a :: b :: c :: ","%char :: group3_rev rest
  | _ => ds
  end.

Definition is_negative (x : Qc) : bool := Qnum x <? 0.

(** The characters of [format(x, ",.{prec}f")] (grouping) or
    [format(x, ".{prec}f")], in reverse, without the sign. *)
Definition format_f_rev (grouping : bool) (prec : nat) (x : Qc) : list ascii :=
  let h := scaled prec x in
  let ip := digits_rev_of (h / 10 ^ Z.of_nat prec) in
  match prec with
  | O => []
  | S _ => frac_digits_rev prec h ++ ["."%char]
  end ++ (if grouping then group3_rev ip else ip).

Definition format_f (grouping : bool) (prec : nat) (x : Qc) : string :=
  (if is_negative x then "-" else "") +:+
  string_of_list_ascii (rev (format_f_rev grouping prec x)).

(** Formatting a float that may be NaN. *)
Definition format_float (grouping : bool) (prec : nat) (v : option Qc) : string :=
  match v with
  | Some x => format_f grouping prec x
  | None => "nan"
  end.

(** ** Reading a formatted number back

    The shape the [f] presentation type promises, as a checker: an
    optional minus sign, the digits of the integer part (with
    [grouping], in groups of three separated by commas, the leading
    group of one to three digits), and for [prec > 0] a point followed
    by exactly [prec] digits.  The value read is in units of
    [10^-prec]. *)

Definition digit_value (c : ascii) : option Z :=
  let n := Z.of_N (N_of_ascii c) in
  if (48 <=? n) && (n <=? 57) then Some (n - 48) else None.

Fixpoint read_digits_rev (cs : list ascii) : option Z :=
  match cs with
  | [] => Some 0
  | c :: cs' => d ← digit_value c; v ← read_digits_rev cs'; Some (d + 10 * v)
  end.

Fixpoint ungroup3_rev (cs : list ascii) : option (list ascii) :=
  match cs with
  | a :: b :: c :: sep :: ((_ :: _) as rest) =>
      if Ascii.eqb sep "," then r ← ungroup3_rev rest; Some (a :: b :: c :: r)
      else None
  | _ => if (length cs <=? 3)%nat then Some cs else None
  end.

Definition strip_sign (s : string) : bool * string :=
  match s with
  | String c s' => if Ascii.eqb c "-" then (true, s') else (false, s)
  | EmptyString => (false, s)
  end.

Definition read_f_rev (grouping : bool) (prec : nat) (cs : list ascii) : option Z :=
  let frac := take prec cs in
  ip ← match prec, drop prec cs with
       | O, rest => Some rest
       | S _, sep :: rest => if Ascii.eqb sep "." then Some rest else None
       | S _, [] => None
       end;
  if bool_decide (length frac = prec) && negb (bool_decide (ip = [])) then
    ip ← (if grouping then ungroup3_rev ip else Some ip);
    i ← read_digits_rev ip;
    f ← read_digits_rev frac;
    Some (i * 10 ^ Z.of_nat prec + f)
  else None.

(** [Some (negative, h)] when [s] has the shape above and reads as
    [h] units of [10^-prec]. *)
Definition read_f (grouping : bool) (prec : nat) (s : string) : option (bool * Z) :=
  let '(negative, body) := strip_sign s in
  h ← read_f_rev grouping prec (rev (list_ascii_of_string body));
  Some (negative, h).

End PyFormat.

(** * Double precision *)

(** A [float]: a finite number with its exact value, negative zero, an
    infinity or NaN.  [Num 0] is positive zero. *)
Inductive double :=
| Num (x : Qc)
| NegZero
| Inf (negative : bool)
| NaN.

Module Double.

(** The doubles are the multiples [m * 2^E] of the unit [2^-1074] with
    [m <= 2^53] and [E >= 0], up to [max_units] units.
    [nearest_units n d] is the multiple nearest to [n / d], for [n >= 0]
    and [d > 0], counted in units, ties going to the even [m]. *)
Definition nearest_units (n d : Z) : Z :=
  let N := n * 2 ^ 1074 in
  let E := Z.max (Z.log2 (N / d) - 52) 0 in
  PyFormat.round_half_even N (d * 2 ^ E) * 2 ^ E.

(** The largest finite double, in units. *)
Definition max_units : Z := (2 ^ 53 - 1) * 2 ^ 2045.

Definition Qc_of_units (u : Z) : Qc := Q2Qc (u # 2 ^ 1074).

Definition zero (negative : bool) : double :=
  if negative then NegZero else Num (Q2Qc 0).

(** The double of [u] units with the given sign; beyond the largest
    finite double the result is an infinity. *)
Definition of_units (negative : bool) (u : Z) : double :=
  if u =? 0 then zero negative
  else if max_units <? u then Inf negative
  else Num (if negative then - Qc_of_units u else Qc_of_units u)%Qc.

(** Round to nearest, ties to even: what an operation returns for the
    exact result [r].  A result that rounds to zero keeps its sign. *)
Definition round (r : Qc) : double :=
  of_units (Qnum r <? 0) (nearest_units (Z.abs (Qnum r)) (Zpos (Qden r))).

Definition is_nan (x : double) : bool :=
  match x with NaN => true | _ => false end.

Definition is_negative (x : double) : bool :=
  match x with
  | Num a => Qnum a <? 0
  | NegZero => true
  | Inf negative => negative
  | NaN => false
  end.

(** The value of a finite double. *)
Definition value (x : double) : Qc :=
  match x with
  | Num a => a
  | _ => Q2Qc 0
  end.

Definition is_zero (x : double) : bool :=
  match x with
  | Num a => bool_decide (a = Q2Qc 0)
  | NegZero => true
  | _ => false
  end.

(** [x + y] *)
Definition add (x y : double) : double :=
  match x, y with
  | NaN, _ | _, NaN => NaN
  | Inf s, Inf t => if Bool.eqb s t then Inf s else NaN
  | Inf s, _ => Inf s
  | _, Inf t => Inf t
  | NegZero, NegZero => NegZero
  | _, _ => round (value x + value y)
  end.

(** [-x] *)
Definition opp (x : double) : double :=
  match x with
  | Num a => if bool_decide (a = Q2Qc 0) then NegZero else Num (- a)
  | NegZero => Num (Q2Qc 0)
  | Inf s => Inf (negb s)
  | NaN => NaN
  end.

(** [x - y] *)
Definition sub (x y : double) : double := add x (opp y).

(** [abs(x)] *)
Definition abs (x : double) : double :=
  match x with
  | Num a => Num (Qcabs a)
  | NegZero => Num (Q2Qc 0)
  | Inf _ => Inf false
  | NaN => NaN
  end.

(** [x * y] *)
Definition mul (x y : double) : double :=
  let s := xorb (is_negative x) (is_negative y) in
  match x, y with
  | NaN, _ | _, NaN => NaN
  | Inf _, Inf _ => Inf s
  | Inf _, _ => if is_zero y then NaN else Inf s
  | _, Inf _ => if is_zero x then NaN else Inf s
  | _, _ => if is_zero x || is_zero y then zero s else round (value x * value y)
  end.

(** [x / y] on numpy scalars: a division by zero gives an infinity or
    NaN, with a warning, and does not raise. *)
Definition div (x y : double) : double :=
  let s := xorb (is_negative x) (is_negative y) in
  match x, y with
  | NaN, _ | _, NaN => NaN
  | Inf _, Inf _ => NaN
  | Inf _, _ => Inf s
  | _, Inf _ => zero s
  | _, _ =>
      if is_zero y then (if is_zero x then NaN else Inf s)
      else if is_zero x then zero s
      else round (value x / value y)
  end.

(** [x < y]: false as soon as one side is NaN. *)
Definition lt (x y : double) : bool :=
  match x, y with
  | NaN, _ | _, NaN => false
  | Inf s, Inf t => s && negb t
  | Inf s, _ => s
  | _, Inf t => negb t
  | _, _ => bool_decide (value x < value y)%Qc
  end.

(** [format(x, ",.{prec}f")] (grouping) or [format(x, ".{prec}f")]. *)
Definition format (grouping : bool) (prec : nat) (x : double) : string :=
  match x with
  | Num a => PyFormat.format_f grouping prec a
  | NegZero => "-" +:+ PyFormat.format_f grouping prec (Q2Qc 0)
  | Inf negative => if negative then "-inf" else "inf"
  | NaN => "nan"
  end.

(** The same double: the same number, the same zero, the same infinity,
    or NaN on both sides. *)
Definition eqb (x y : double) : bool :=
  match x, y with
  | Num a, Num b => bool_decide (a = b)
  | NegZero, NegZero | NaN, NaN => true
  | Inf s, Inf t => Bool.eqb s t
  | _, _ => false
  end.

(** A number that is a double: rounding leaves it as it is. *)
Definition representable (a : Qc) : Prop := round a = Num a.

(** A double that is a number: a zero, or a value of the grid. *)
Definition finite (x : double) : Prop :=
  match x with
  | Num a => representable a
  | NegZero => True
  | Inf _ | NaN => False
  end.

(** [2^e] for an integer [e]. *)
Definition pow2 (e : Z) : Qc :=
  if e <? 0 then Q2Qc (1 # Z.to_pos (2 ^ (- e))) else Qc_of_Z (2 ^ e).

(** The number that a binary64 float of Rocq's kernel stands for. *)
Definition of_float (f : PrimFloat.float) : double :=
  match FloatOps.Prim2SF f with
  | SpecFloat.S754_zero negative => zero negative
  | SpecFloat.S754_infinity negative => Inf negative
  | SpecFloat.S754_nan => NaN
  | SpecFloat.S754_finite negative m e =>
      let a := (Qc_of_Z (Zpos m) * pow2 e)%Qc in
      Num (if negative then - a else a)%Qc
  end.

End Double.

(** Pairs of floats on which the operations above are compared with the
    binary64 operations of Rocq's kernel. *)
Module KernelSamples.
Import PrimFloat.
#[local] Set Warnings "-inexact-float".

Definition samples : list (float * float) :=
  [ (0.1, 0.025); (0.125, 0.1); (1e308, 1e308); (1e308, -1e308); (2001, 2000);
    (1, 2000); (0.0005, 100); (1e16, 1); (-1e16, 1); (5e-324, 0.5); (5e-324, 2);
    (3e-310, 1e-6); (1e-6, 3e-310); (1, 3); (-7, 3); (0, -0); (-0, -0); (0, 5);
    (1.7976931348623157e308, 1e292); (9007199254740992, 1); (9007199254740993, 3);
    (4.5, 1e-320); (1e200, 1e200); (1e-200, 1e-200); (-1e-200, 1e200);
    (infinity, 1); (infinity, neg_infinity); (1, 0); (0, 0); (nan, 1) ]%float.

Definition agree (op : float → float → float) (op' : double → double → double)
    (p : float * float) : bool :=
  Double.eqb (Double.of_float (op p.1 p.2)) (op' (Double.of_float p.1) (Double.of_float p.2)).

Definition agree_on (p : float * float) : bool :=
  agree add Double.add p && agree sub Double.sub p &&
  agree mul Double.mul p && agree div Double.div p &&
  Bool.eqb (ltb p.1 p.2) (Double.lt (Double.of_float p.1) (Double.of_float p.2)) &&
  Double.eqb (Double.of_float (abs p.1)) (Double.abs (Double.of_float p.1)) &&
  Double.eqb (Double.of_float (opp p.1)) (Double.opp (Double.of_float p.1)).

End KernelSamples.

(** * Exceptions *)

(** The route guards raise [HTTPException]; every other failure is a
    Python exception of which only [str(e)] is observed. *)
Inductive Exception :=
| HTTPException (status_code : Z) (detail : string)
| PyError (message : string).

Inductive Result (A : Type) :=
| Ok (a : A)
| Raise (e : Exception).
Arguments Ok {A} a.
Arguments Raise {A} e.

#[global] Instance Result_ret : MRet Result := λ A a, Ok a.

#[global] Instance Result_bind : MBind Result := λ A B k r,
  match r with
  | Ok a => k a
  | Raise e => Raise e
  end.

(** [try: body except Exception as e: handler(str(e))].  [HTTPException]
    derives from [Exception], so it is caught as well; its [str] is not
    needed by any handler of this program that can receive one. *)
Definition str_of_exception (e : Exception) : string :=
  match e with
  | HTTPException _ detail => detail
  | PyError message => message
  end.

Definition try_except {A : Type} (body : Result A) (handler : string → Result A) : Result A :=
  match body with
  | Ok a => Ok a
  | Raise e => handler (str_of_exception e)
  end.

(** The outcome of an external call: the message of the exception it
    raised, or its value. *)
Definition external {A : Type} (r : string + A) : Result A :=
  match r with
  | inl message => Raise (PyError message)
  | inr a => Ok a
  end.

(** * The dataset *)

Inductive NumericColumn := GrossQuantity | FlowRate.
Inductive DatetimeColumn := ExitTime | ScheduledDate | CreatedTime.
Inductive OtherColumn :=
| ShipmentCompartmentID | BaseProductID | BaseProductCode
| ShipmentID | ShipmentCode | BayCode.

Definition numeric_name (c : NumericColumn) : string :=
  match c with
  | GrossQuantity => "GrossQuantity"
  | FlowRate => "FlowRate"
  end.

Definition datetime_name (c : DatetimeColumn) : string :=
  match c with
  | ExitTime => "ExitTime"
  | ScheduledDate => "ScheduledDate"
  | CreatedTime => "CreatedTime"
  end.

Definition other_name (c : OtherColumn) : string :=
  match c with
  | ShipmentCompartmentID => "ShipmentCompartmentID"
  | BaseProductID => "BaseProductID"
  | BaseProductCode => "BaseProductCode"
  | ShipmentID => "ShipmentID"
  | ShipmentCode => "ShipmentCode"
  | BayCode => "BayCode"
  end.

Definition REQUIRED_COLUMNS : list string :=
  ["GrossQuantity"; "FlowRate"; "ShipmentCompartmentID"; "BaseProductID";
   "BaseProductCode"; "ShipmentID"; "ShipmentCode"; "ExitTime"; "BayCode";
   "ScheduledDate"; "CreatedTime"].

(** One row of the frame.  A missing cell is [None] (NaN, NaT). *)
Record Row := {
  numeric : NumericColumn → option Qc;
  datetime : DatetimeColumn → option Z;
  other : OtherColumn → option string
}.

(** The frame: its rows in order; the index is the row position
    ([reset_index(drop=True)]). *)
Abbreviation DataFrame := (list Row).

(** [str(v)] of a cell inside an f-string. *)
Definition str_of_cell (v : option string) : string := default "nan" v.

(** numpy's [pairwise_sum] over a float64 array, as the inner loop of
    [add.reduce] calls it.  Fewer than 8 elements are added from the first
    to the last, starting from -0.0.  Up to 128 elements are added into 8
    accumulators, element [i] into accumulator [i mod 8], for as long as 8
    elements are left; the accumulators are added as
    [((r0+r1)+(r2+r3))+((r4+r5)+(r6+r7))], and the elements left over are
    added to that.  A longer array is cut in two, the first part of
    [n/2] elements less [n/2 mod 8], and the sums of the two parts are
    added. *)
Fixpoint unrolled_sum (fuel : nat) (r a : list double) : list double * list double :=
  match fuel with
  | O => (r, a)
  | S fuel' =>
      if (length a <? 8)%nat then (r, a)
      else unrolled_sum fuel' (zip_with Double.add r (take 8 a)) (drop 8 a)
  end.

Fixpoint pairwise_sum (fuel : nat) (a : list double) : double :=
  let n := length a in
  if (n <? 8)%nat then foldl Double.add NegZero a
  else if (n <=? 128)%nat then
    let '(r, rest) := unrolled_sum n (take 8 a) (drop 8 a) in
    match r with
    | [r0; r1; r2; r3; r4; r5; r6; r7] =>
        foldl Double.add
          (Double.add (Double.add (Double.add r0 r1) (Double.add r2 r3))
                      (Double.add (Double.add r4 r5) (Double.add r6 r7)))
          rest
    | _ => NaN
    end
  else
    match fuel with
    | O => NaN
    | S fuel' =>
        let n2 := (n / 2 - (n / 2) mod 8)%nat in
        Double.add (pairwise_sum fuel' (take n2 a)) (pairwise_sum fuel' (drop n2 a))
    end.

(** [ndarray.sum()] of a one-dimensional float64 array: the reduction
    starts from the identity 0.0 and adds the pairwise sum of the array.
    The fuel is the length of the array; the recursion halves it. *)
Definition ndarray_sum (a : list double) : double :=
  Double.add (Num (Q2Qc 0)) (pairwise_sum (length a) a).

(** [Series.sum()]: the NaN cells are replaced by 0.0 and the column is
    summed by numpy; the empty sum is 0.0. *)
Definition Series_sum (xs : list (option Qc)) : double :=
  ndarray_sum ((λ c, Num (default (Q2Qc 0) c)) <$> xs).

(** [Series.idxmax()] scans the cells from the first to the last and
    keeps the position of the first cell carrying the greatest value; NaN
    cells are skipped.  [None] when there is no value to pick: pandas then
    raises [ValueError], on an empty column always, and on a column of NaN
    either at once or, in the versions that still return NaN with a
    warning, one step later as the [KeyError] of [df.loc[nan]]. *)
Fixpoint idxmax_from (i : nat) (best : option (nat * Qc)) (xs : list (option Qc)) : option (nat * Qc) :=
  match xs with
  | [] => best
  | x :: xs' =>
      let best' :=
        match x, best with
        | None, _ => best
        | Some v, None => Some (i, v)
        | Some v, Some (_, b) => if bool_decide (b < v)%Qc then Some (i, v) else best
        end in
      idxmax_from (S i) best' xs'
  end.

Definition Series_idxmax (xs : list (option Qc)) : Result nat :=
  match idxmax_from 0 None xs with
  | Some (i, _) => Ok i
  | None =>
      Raise (PyError (if bool_decide (xs = [])
                      then "attempt to get argmax of an empty sequence"
                      else "Encountered all NA values"))
  end.

(** [Series.nunique()]: the number of distinct non-null cells. *)
Definition Series_nunique (xs : list (option string)) : nat :=
  length (remove_dups (omap id xs)).

(** [df.loc[idx]] on the positional index. *)
Definition loc (df : DataFrame) (idx : nat) : Result Row :=
  match df !! idx with
  | Some row => Ok row
  | None => Raise (PyError "KeyError")
  end.

(** * Rule engine *)

Definition unanswered : string :=
  "I could not answer with built-in rules. Trying AI analysis...".

Definition answer_with_rules (df : DataFrame) (query : string) : Result (gmap string string) :=
  let q := PyStr.lower query in
  if PyStr.contains "total" q && PyStr.contains "quantity" q then
    let total := Series_sum ((λ r, numeric r GrossQuantity) <$> df) in
    Ok {[ "text" := "Total GrossQuantity: " +:+ Double.format true 2 total ]}
  else if PyStr.contains "highest" q &&
          (PyStr.contains "flow" q || PyStr.contains "flowrate" q) then
    idx ← Series_idxmax ((λ r, numeric r FlowRate) <$> df);
    row ← loc df idx;
    Ok {[ "text" :=
            "Highest FlowRate " +:+ PyFormat.format_float false 2 (numeric row FlowRate) +:+
            " at Bay " +:+ str_of_cell (other row BayCode) +:+
            " for Shipment " +:+ str_of_cell (other row ShipmentCode) +:+ "." ]}
  else if PyStr.contains "count" q &&
          (PyStr.contains "shipments" q || PyStr.contains "shipment" q) then
    let cnt := Series_nunique ((λ r, other r ShipmentID) <$> df) in
    Ok {[ "text" := "Unique shipments: " +:+ PyFormat.str_of_nonneg (Z.of_nat cnt) ]}
  else
    Ok {[ "text" := unanswered ]}.

(** * Daily aggregation *)

Definition ns_per_day : Z := 86400000000000.

(** The calendar day of a timestamp, as a number of days since the epoch
    (the bin whose label pandas prints as that day's midnight). *)
Definition day_of (t : Z) : Z := t / ns_per_day.

(** [df[[date_col, value_col]].dropna()] *)
Definition dropna (df : DataFrame) (date_col : DatetimeColumn) (value_col : NumericColumn)
    : list (Z * Qc) :=
  omap (λ r, t ← datetime r date_col; v ← numeric r value_col; Some (t, v)) df.

(** [set_index(date_col).sort_index()]: the rows in ascending order of
    their timestamp, rows with the same timestamp in the order of the
    dataset. *)
Fixpoint insert_by_index (r : Z * Qc) (l : list (Z * Qc)) : list (Z * Qc) :=
  match l with
  | [] => [r]
  | r' :: l' => if r.1 <=? r'.1 then r :: l else r' :: insert_by_index r l'
  end.

Definition sort_index (l : list (Z * Qc)) : list (Z * Qc) :=
  foldr insert_by_index [] l.

(** One step of pandas' [group_sum] on a float64 value that is not NaN:
    compensated (Kahan) summation.  [sumx] is the running sum of the bin
    and [compensation] the error carried over; a compensation that comes
    out as NaN is reset to 0. *)
Definition kahan_step (acc : double * double) (val : double) : double * double :=
  let '(sumx, compensation) := acc in
  let y := Double.sub val compensation in
  let t := Double.add sumx y in
  let compensation' := Double.sub (Double.sub t sumx) y in
  (t, if Double.is_nan compensation' then Num (Q2Qc 0) else compensation').

(** The sum of one bin: its values are taken in the order of the rows,
    and a bin without value sums to 0.0. *)
Definition group_sum (vals : list double) : double :=
  (foldl kahan_step (Num (Q2Qc 0), Num (Q2Qc 0)) vals).1.

(** The sum of the values whose timestamp falls on day [d]. *)
Definition day_sum (rows : list (Z * Qc)) (d : Z) : double :=
  group_sum (Num ∘ snd <$> filter (λ r, day_of r.1 = d) rows).

(** [resample("D").sum()] on a frame sorted by its index: one bin per
    calendar day from the day of the first row to the day of the last row,
    a bin without rows summing to 0. *)
Definition resample_D_sum (rows : list (Z * Qc)) : list (Z * double) :=
  match rows, last rows with
  | (t_first, _) :: _, Some (t_last, _) =>
      let d0 := day_of t_first in
      (λ d, (d, day_sum rows d)) <$> seqZ d0 (day_of t_last - d0 + 1)
  | _, _ => []
  end.

Definition daily_aggregate (df : DataFrame) (date_col : DatetimeColumn)
    (value_col : NumericColumn) : list (Z * double) :=
  resample_D_sum (sort_index (dropna df date_col value_col)).

(** * External collaborators *)

Inductive Figure :=
| LinePlot (title xlabel ylabel : string) (points : list (Z * double))
| ProphetPlot (history : list (Z * double)) (forecast : list (Z * Qc)).

(** What [agent.invoke] returned: [reply_output] is [str(result["output"])]
    when the result is a dict with that key, [reply_str] is [str(result)]. *)
Record AgentReply := {
  reply_output : option string;
  reply_str : string
}.

(** What one request meets outside the program.  An external call
    either raises, and then only the message of the exception is seen, or
    returns.
    - [uuid4_hex]: the hex digits of the UUID drawn for the chart file;
    - [savefig fig file_id]: [tight_layout], [savefig] and [close] on the
      file [file_id] of the charts directory, [Some message] when one of
      them raises;
    - [prophet_predict fc_df periods]: importing Prophet, fitting it on the
      history, [make_future_dataframe] and [predict]; the rows are
      [(ds, yhat)] with [ds] a day and [yhat] a finite float;
    - [prophet_plot_error]: [Some message] when [model.plot] raises;
    - [agent_invoke]: importing LangChain, building the agent and invoking
      it on the question. *)
Record Externals := {
  uuid4_hex : string;
  savefig : Figure → string → option string;
  prophet_predict : list (Z * double) → Z → string + list (Z * Qc);
  prophet_plot_error : list (Z * double) → list (Z * Qc) → option string;
  OPENAI_API_KEY : string;
  agent_invoke : DataFrame → string → string + AgentReply
}.

Definition save_plot_return_url (ext : Externals) (fig : Figure) (filename_prefix : string)
    : Result string :=
  let file_id := filename_prefix +:+ "_" +:+ PyStr.slice_to 8 (uuid4_hex ext) +:+ ".png" in
  match savefig ext fig file_id with
  | Some message => Raise (PyError message)
  | None => Ok ("/static/charts/" +:+ file_id)
  end.

(** * Trend chart *)

Definition trend_chart (ext : Externals) (df : DataFrame)
    (value_col : NumericColumn) (date_col : DatetimeColumn) : Result (gmap string string) :=
  let agg := daily_aggregate df date_col value_col in
  match agg with
  | [] => Ok {[ "text" := "No data to plot" ]}
  | _ :: _ =>
      let fig := LinePlot ("Daily " +:+ numeric_name value_col +:+ " trend")
                          "Date" (numeric_name value_col) agg in
      url ← save_plot_return_url ext fig ("trend_" +:+ numeric_name value_col);
      Ok (<[ "imageUrl" := url ]>
            {[ "text" := "Trend of " +:+ numeric_name value_col +:+ " over time." ]})
  end.

(** * Forecast *)

(** [Series.mean()] of a series without NaN: numpy's sum of the values
    divided by their count; NaN for an empty series. *)
Definition Series_mean (xs : list Qc) : double :=
  match xs with
  | [] => NaN
  | _ :: _ =>
      Double.div (ndarray_sum (Num <$> xs)) (Num (Qc_of_Z (Z.of_nat (length xs))))
  end.

(** [Series.tail(n)] and [Series.head(n)] *)
Definition Series_tail {A : Type} (n : nat) (xs : list A) : list A :=
  drop (length xs - n) xs.
Definition Series_head {A : Type} (n : nat) (xs : list A) : list A := take n xs.

(** [a > b] on floats: false as soon as one side is NaN. *)
Definition float_gt (a b : double) : bool := Double.lt b a.

(** The builtin [max(a, b)]: [b] when [b > a], else [a]. *)
Definition py_max (a b : double) : double := if Double.lt a b then b else a.

(** The literal [1e-6]: the double nearest to 10^-6. *)
Definition epsilon : double :=
  Num (Q2Qc (4722366482869645 # 4722366482869645213696)).

(** [((next_fc - last_hist) / max(abs(last_hist), 1e-6)) * 100] *)
Definition percent_change (next_fc last_hist : double) : double :=
  Double.mul
    (Double.div (Double.sub next_fc last_hist) (py_max (Double.abs last_hist) epsilon))
    (Num (Qc_of_Z 100)).

(** [fc_df["ds"].max()] of a non-empty history. *)
Definition ds_max (d0 : Z) (rest : list (Z * double)) : Z := foldl Z.max d0 (fst <$> rest).

Definition last_hist_mean (ds_last : Z) (forecast : list (Z * Qc)) : double :=
  Series_mean (Series_tail 7 (snd <$> filter (λ r, r.1 ≤ ds_last) forecast)).

Definition next_fc_mean (ds_last : Z) (forecast : list (Z * Qc)) : double :=
  Series_mean (Series_head 7 (snd <$> filter (λ r, ds_last < r.1) forecast)).

Definition forecast_summary (ds_last : Z) (forecast : list (Z * Qc)) : string :=
  let last_hist := last_hist_mean ds_last forecast in
  let next_fc := next_fc_mean ds_last forecast in
  let trend := if float_gt next_fc last_hist then "increase" else "decrease" in
  let pct := percent_change next_fc last_hist in
  "Forecast suggests a " +:+ trend +:+ " of approximately " +:+
  Double.format false 1 pct +:+ "% over the next period.".

Definition forecast_gross_quantity (ext : Externals) (df : DataFrame) (periods : Z)
    : Result (gmap string string) :=
  let series := daily_aggregate df ExitTime GrossQuantity in
  match series with
  | [] => Ok {[ "text" := "No data available for forecasting" ]}
  | (d0, _) :: rest =>
      let fc_df := series in
      try_except
        (forecast ← external (prophet_predict ext fc_df periods);
         fig ← match prophet_plot_error ext fc_df forecast with
               | Some message => Raise (PyError message)
               | None => Ok (ProphetPlot fc_df forecast)
               end;
         url ← save_plot_return_url ext fig "forecast_gross_quantity";
         let summary := forecast_summary (ds_max d0 rest) forecast in
         Ok (<[ "imageUrl" := url ]> {[ "text" := summary ]}))
        (λ e, Ok {[ "text" := "Forecasting failed: " +:+ e ]})
  end.

(** * Agent fallback *)

(** The dict display [{"text": t, **d}]: the entries of [d] are written
    after the entry for "text", and a key written twice keeps its last
    value. *)
Definition dict_text_then_unpack (t : string) (d : gmap string string) : gmap string string :=
  d ∪ {[ "text" := t ]}.

Definition ai_dataframe_answer (ext : Externals) (df : DataFrame) (query : string)
    : Result (gmap string string) :=
  if bool_decide (OPENAI_API_KEY ext = "") then answer_with_rules df query
  else
    try_except
      (result ← external (agent_invoke ext df query);
       match reply_output result with
       | Some output => Ok {[ "text" := PyStr.slice_to 4000 output ]}
       | None => Ok {[ "text" := PyStr.slice_to 4000 (reply_str result) ]}
       end)
      (λ e, rules ← answer_with_rules df query;
            Ok (dict_text_then_unpack
                  ("AI analysis failed: " +:+ e +:+ ". Falling back to rules.") rules)).

(** * Routes *)

Record AskRequest := {
  question : string;
  periods : option Z
}.

Record AskResponse := {
  text : string;
  imageUrl : option string
}.

Definition make_response (result : gmap string string) : AskResponse :=
  {| text := default "" (result !! "text");
     imageUrl := result !! "imageUrl" |}.

(** [req.periods or 14] *)
Definition periods_or_14 (p : option Z) : Z :=
  match p with
  | Some n => if n =? 0 then 14 else n
  | None => 14
  end.

Definition no_dataset : Exception :=
  HTTPException 400 "No dataset loaded. Upload a CSV first.".

Definition ask (ext : Externals) (DATAFRAME : option DataFrame) (req : AskRequest)
    : Result AskResponse :=
  match DATAFRAME with
  | None => Raise no_dataset
  | Some df =>
      let intent := classify_query_intent (question req) in
      if String.eqb intent "forecast" then
        result ← forecast_gross_quantity ext df (periods_or_14 (periods req));
        Ok (make_response result)
      else if String.eqb intent "trend" then
        result ← trend_chart ext df GrossQuantity ExitTime;
        Ok (make_response result)
      else
        result ← answer_with_rules df (question req);
        result ← (if PyStr.startswith "I could not answer" (default "" (result !! "text"))
                  then ai_dataframe_answer ext df (question req)
                  else Ok result);
        Ok (make_response result)
  end.

(** What [pd.read_csv] hands over: the column names and, per row, the
    text of the cells that are not empty. *)
Record RawFrame := {
  raw_columns : list string;
  raw_rows : list (gmap string string)
}.

(** The pandas readers: [read_csv] raises or returns, [to_datetime] and
    [to_numeric] are called with [errors="coerce"] and give NaT and NaN
    ([None]) for a cell they cannot read. *)
Record Pandas := {
  read_csv : string → string + RawFrame;
  to_datetime : string → option Z;
  to_numeric : string → option Qc
}.

(** [repr] of a list of column names. *)
Definition repr_list (l : list string) : string :=
  "[" +:+ String.concat ", " ((λ c, "'" +:+ c +:+ "'") <$> l) +:+ "]".

Definition typed_row (pd : Pandas) (raw : gmap string string) : Row :=
  {| numeric := λ c, raw !! numeric_name c ≫= to_numeric pd;
     datetime := λ c, raw !! datetime_name c ≫= to_datetime pd;
     other := λ c, raw !! other_name c |}.

Definition has_key_columns (r : Row) : bool :=
  bool_decide (is_Some (numeric r GrossQuantity)) &&
  bool_decide (is_Some (other r ShipmentID)) &&
  bool_decide (is_Some (datetime r ExitTime)).

(** The parsed frame: its column names and its rows.  The rows keep the
    required columns; the cells are typed by [to_datetime] and
    [to_numeric], and a row without GrossQuantity, ShipmentID or ExitTime
    is dropped. *)
Definition parse_csv_to_dataframe (pd : Pandas) (file_bytes : string)
    : Result (list string * DataFrame) :=
  df ← external (read_csv pd file_bytes);
  let missing := filter (λ c, c ∉ raw_columns df) REQUIRED_COLUMNS in
  match missing with
  | _ :: _ =>
      Raise (HTTPException 400 ("Missing required columns: " +:+ repr_list missing))
  | [] =>
      Ok (raw_columns df,
          filter (λ r, has_key_columns r = true) (typed_row pd <$> raw_rows df))
  end.

Record UploadResponse := {
  message : string;
  rows : nat;
  columns : list string
}.

(** [upload_csv]: the response and the new value of [DATAFRAME]. *)
Definition upload_csv (pd : Pandas) (DATAFRAME : option DataFrame) (file : string)
    : Result UploadResponse * option DataFrame :=
  match parse_csv_to_dataframe pd file with
  | Ok (df_columns, df) =>
      (Ok {| message := "CSV loaded"; rows := length df; columns := df_columns |},
       Some df)
  | Raise (HTTPException status detail) => (Raise (HTTPException status detail), DATAFRAME)
  | Raise (PyError e) =>
      (Raise (HTTPException 400 ("Failed to parse CSV: " +:+ e)), DATAFRAME)
  end.

(** * The service as a machine *)

Inductive Request :=
| PostUpload (file : string)
| PostAsk (ext : Externals) (req : AskRequest).

Inductive Response :=
| Uploaded (r : Result UploadResponse)
| Answered (r : Result AskResponse).

Definition handle (pd : Pandas) (DATAFRAME : option DataFrame) (rq : Request)
    : Response * option DataFrame :=
  match rq with
  | PostUpload file =>
      let '(r, st) := upload_csv pd DATAFRAME file in (Uploaded r, st)
  | PostAsk ext req => (Answered (ask ext DATAFRAME req), DATAFRAME)
  end.

(** The state after a sequence of requests, from the state [DATAFRAME]. *)
Definition serve (pd : Pandas) (DATAFRAME : option DataFrame) (history : list Request)
    : option DataFrame :=
  foldl (λ st rq, (handle pd st rq).2) DATAFRAME history.

(** The uploads of a history that returned normally. *)
Fixpoint successful_uploads (pd : Pandas) (DATAFRAME : option DataFrame)
    (history : list Request) : nat :=
  match history with
  | [] => 0
  | rq :: history' =>
      let '(resp, st) := handle pd DATAFRAME rq in
      (match resp with Uploaded (Ok _) => 1 | _ => 0 end +
       successful_uploads pd st history')%nat
  end.

(** * Specification vocabulary *)

(** Position [i] holds the value [m], no cell holds a greater value, and
    no earlier cell holds [m]. *)
Definition first_max (xs : list (option Qc)) (i : nat) (m : Qc) : Prop :=
  xs !! i = Some (Some m) ∧
  ∀ j v, xs !! j = Some (Some v) → (v ≤ m)%Qc ∧ (v = m → (i ≤ j)%nat).

Definition best_of (xs : list (option Qc)) (best : option (nat * Qc)) : Prop :=
  match best with
  | Some (i, m) => first_max xs i m
  | None => ∀ j v, xs !! j ≠ Some (Some v)
  end.

(** Rows in ascending order of their timestamp. *)
Definition by_index (a b : Z * Qc) : Prop := a.1 ≤ b.1.

(** The question patterns of the rule engine, on the lowercased text. *)
Definition total_quantity_question (query : string) : Prop :=
  PyStr.occurs_in "total" (PyStr.lower query) ∧
  PyStr.occurs_in "quantity" (PyStr.lower query).

Definition highest_flow_question (query : string) : Prop :=
  PyStr.occurs_in "highest" (PyStr.lower query) ∧
  (PyStr.occurs_in "flow" (PyStr.lower query) ∨
   PyStr.occurs_in "flowrate" (PyStr.lower query)).

(** The exact sum of a list of numbers. *)
Definition exact_sum (xs : list Qc) : Qc := foldl Qcplus (Q2Qc 0) xs.

(** A whole number. *)
Definition whole (v : Qc) : Prop := v = Qc_of_Z (Qnum v).

(** Numbers that binary64 adds without error in any order: whole
    numbers whose magnitudes add up to less than 2^53. *)
Definition adds_exactly (xs : list Qc) : Prop :=
  Forall whole xs ∧ (exact_sum (Qcabs <$> xs) < Qc_of_Z (2 ^ 53))%Qc.

(** The GrossQuantity cells, a missing cell counting for 0. *)
Definition quantities (df : DataFrame) : list Qc :=
  (λ r, default (Q2Qc 0) (numeric r GrossQuantity)) <$> df.



Definition has_flow_rate (df : DataFrame) : Prop :=
  ∃ r v, r ∈ df ∧ numeric r FlowRate = Some v.

(** The answer names the first row, in dataset order, that carries the
    greatest FlowRate: that FlowRate with two decimals, the row's BayCode
    and its ShipmentCode. *)
Definition highest_flow_reported (df : DataFrame) (query : string) : Prop :=
  ∃ i row m,
    df !! i = Some row ∧ numeric row FlowRate = Some m ∧
    (∀ j r v, df !! j = Some r → numeric r FlowRate = Some v →
              (v ≤ m)%Qc ∧ (v = m → (i ≤ j)%nat)) ∧
    answer_with_rules df query =
      Ok {[ "text" :=
              "Highest FlowRate " +:+ PyFormat.format_f false 2 m +:+
              " at Bay " +:+ str_of_cell (other row BayCode) +:+
              " for Shipment " +:+ str_of_cell (other row ShipmentCode) +:+ "." ]} ∧
    PyFormat.read_f false 2 (PyFormat.format_f false 2 m)
      = Some (PyFormat.is_negative m, PyFormat.scaled 2 m).

(** Some valid row falls on calendar day [d]. *)
Definition present_day (valid : list (Z * Qc)) (d : Z) : Prop :=
  ∃ r, r ∈ valid ∧ day_of r.1 = d.

(** The values of the valid rows of day [d], in the order of [valid]. *)
Definition day_values (valid : list (Z * Qc)) (d : Z) : list Qc :=
  snd <$> filter (λ r, day_of r.1 = d) valid.





(** The predicted values of the historical days and of the forecast days,
    in the order of the forecast. *)
Definition historical_yhat (ds_last : Z) (forecast : list (Z * Qc)) : list Qc :=
  snd <$> filter (λ r : Z * Qc, r.1 ≤ ds_last) forecast.

Definition future_yhat (ds_last : Z) (forecast : list (Z * Qc)) : list Qc :=
  snd <$> filter (λ r : Z * Qc, ds_last < r.1) forecast.


(** Fitting, plotting or saving the forecast chart raises, with the
    message [reason]. *)
Definition forecasting_fails (ext : Externals) (fc_df : list (Z * double)) (periods : Z)
    (reason : string) : Prop :=
  prophet_predict ext fc_df periods = inl reason ∨
  ∃ forecast,
    prophet_predict ext fc_df periods = inr forecast ∧
    (prophet_plot_error ext fc_df forecast = Some reason ∨
     (prophet_plot_error ext fc_df forecast = None ∧
      savefig ext (ProphetPlot fc_df forecast)
        ("forecast_gross_quantity" +:+ "_" +:+ PyStr.slice_to 8 (uuid4_hex ext) +:+ ".png")
      = Some reason)).

(** A result that is not an [HTTPException]. *)
Definition no_http_error {A : Type} (r : Result A) : Prop :=
  ∀ status detail, r ≠ Raise (HTTPException status detail).

(** An error the caller is to blame for: a 4xx status. *)
Definition client_error (e : Exception) : Prop :=
  match e with
  | HTTPException status _ => 400 ≤ status < 500
  | PyError _ => False
  end.

(** The chart the trend branch of [ask] hands to the chart sink, and the
    response that follows from the sink's answer. *)
Definition gross_quantity_by_exit_time_response (ext : Externals) (df : DataFrame)
    : Result AskResponse :=
  match daily_aggregate df ExitTime GrossQuantity with
  | [] => Ok {| text := "No data to plot"; imageUrl := None |}
  | (_ :: _) as agg =>
      let file_id := "trend_GrossQuantity_" +:+ PyStr.slice_to 8 (uuid4_hex ext) +:+ ".png" in
      match savefig ext (LinePlot "Daily GrossQuantity trend" "Date" "GrossQuantity" agg)
                    file_id with
      | Some message => Raise (PyError message)
      | None => Ok {| text := "Trend of GrossQuantity over time.";
                      imageUrl := Some ("/static/charts/" +:+ file_id) |}
      end
  end.

(** * Fixtures *)

Definition Qc_of_hundredths (n : Z) : Qc := Q2Qc (n # 100).

Definition make_row (gross flow : option Qc) (exit_time : option Z)
    (shipment_id shipment_code bay_code : string) : Row :=
  {| numeric := λ c, match c with GrossQuantity => gross | FlowRate => flow end;
     datetime := λ c, match c with ExitTime => exit_time | _ => exit_time end;
     other := λ c, match c with
                   | ShipmentID => Some shipment_id
                   | ShipmentCode => Some shipment_code
                   | BayCode => Some bay_code
                   | _ => None
                   end |}.

Definition ns_of_day (d : Z) : Z := d * ns_per_day.

(** Three shipments on three distinct days; two rows tie for the
    greatest FlowRate. *)
Definition three_rows : DataFrame :=
  [ make_row (Some (Qc_of_hundredths 1000)) (Some (Qc_of_hundredths 1250))
      (Some (ns_of_day 0 + 5)) "1" "SC1" "B1";
    make_row (Some (Qc_of_hundredths 2000)) (Some (Qc_of_hundredths 9950))
      (Some (ns_of_day 1)) "2" "SC2" "B2";
    make_row (Some (Qc_of_hundredths 3000)) (Some (Qc_of_hundredths 9950))
      (Some (ns_of_day 2 + 7)) "2" "SC3" "B3" ].

(** A frame whose rows all lack a FlowRate. *)
Definition no_flow_rows : DataFrame :=
  [ make_row (Some (Qc_of_hundredths 1000)) None (Some (ns_of_day 0)) "1" "SC1" "B1" ].

(** Shipments on day 0 and on day 2, none on day 1; one row lacks its
    GrossQuantity and one its ExitTime. *)
Definition gap_rows : DataFrame :=
  [ make_row (Some (Qc_of_hundredths 2000)) (Some (Qc_of_hundredths 500))
      (Some (ns_of_day 2 + 7)) "1" "SC1" "B1";
    make_row (Some (Qc_of_hundredths 1000)) (Some (Qc_of_hundredths 700))
      (Some (ns_of_day 0 + 5)) "2" "SC2" "B2";
    make_row None (Some (Qc_of_hundredths 900)) (Some (ns_of_day 1)) "3" "SC3" "B3";
    make_row (Some (Qc_of_hundredths 4000)) (Some (Qc_of_hundredths 100)) None "4" "SC4" "B4";
    make_row (Some (Qc_of_hundredths 3000)) (Some (Qc_of_hundredths 300))
      (Some (ns_of_day 2)) "5" "SC5" "B5" ].

(** No agent key; the chart sink works; Prophet continues the history
    with a constant 3.5 for [periods] days. *)
Definition ext_offline : Externals :=
  {| uuid4_hex := "0123456789abcdef0123456789abcdef";
     savefig := λ _ _, None;
     prophet_predict := λ history periods,
       inr (((λ r, (r.1, Double.value r.2)) <$> history) ++
            ((λ d, (d, Q2Qc (7 # 2))) <$>
             seqZ (1 + foldr (λ r acc, r.1 `max` acc) 0 history) periods));
     prophet_plot_error := λ _ _, None;
     OPENAI_API_KEY := "";
     agent_invoke := λ _ _, inl "no agent" |}.

(** An agent key is set but the agent is unreachable; Prophet refuses
    the history. *)
Definition ext_agent_down : Externals :=
  {| uuid4_hex := "0123456789abcdef0123456789abcdef";
     savefig := λ _ _, None;
     prophet_predict := λ _ _, inl "Dataframe has less than 2 non-NaN rows.";
     prophet_plot_error := λ _ _, None;
     OPENAI_API_KEY := "sk-test";
     agent_invoke := λ _ _, inl "Connection error." |}.


(** A CSV reader for two files: "shipments.csv" holds one shipment, every
    other file is rejected. *)
Definition pandas_fixture : Pandas :=
  {| read_csv := λ file,
       if String.eqb file "shipments.csv" then
         inr {| raw_columns := REQUIRED_COLUMNS;
                raw_rows := [ {[ "GrossQuantity" := "1250"; "FlowRate" := "75";
                                 "ShipmentID" := "7"; "ShipmentCode" := "SC7";
                                 "BayCode" := "B4"; "ExitTime" := "2024-01-05" ]} ] |}
       else inl "Error tokenizing data";
     to_datetime := λ cell, Some (Z.of_nat (String.length cell));
     to_numeric := λ cell, Some (Qc_of_Z (Z.of_nat (String.length cell))) |}.

(** * Further vocabulary and fixtures *)

(** The count pattern of the rule engine, on the lowercased text. *)
Definition count_question (query : string) : Prop :=
  PyStr.occurs_in "count" (PyStr.lower query) ∧
  (PyStr.occurs_in "shipments" (PyStr.lower query) ∨
   PyStr.occurs_in "shipment" (PyStr.lower query)).

(** The file the trend chart of a column is saved to. *)
Definition trend_file_id (ext : Externals) (value_col : NumericColumn) : string :=
  "trend_" +:+ numeric_name value_col +:+ "_" +:+
  PyStr.slice_to 8 (uuid4_hex ext) +:+ ".png".

(** The figure of the trend chart of a column. *)
Definition trend_figure (value_col : NumericColumn) (agg : list (Z * double)) : Figure :=
  LinePlot ("Daily " +:+ numeric_name value_col +:+ " trend") "Date"
           (numeric_name value_col) agg.

(** A CSV reader whose file lacks the FlowRate and BayCode columns. *)
Definition pandas_partial : Pandas :=
  {| read_csv := λ _,
       inr {| raw_columns :=
                ["GrossQuantity"; "ShipmentCompartmentID"; "BaseProductID";
                 "BaseProductCode"; "ShipmentID"; "ShipmentCode"; "ExitTime";
                 "ScheduledDate"; "CreatedTime"; "Remarks"];
              raw_rows := [] |};
     to_datetime := λ _, None;
     to_numeric := λ _, None |}.

Fixpoint repeat_string (n : nat) (s : string) : string :=
  match n with
  | O => ""
  | S n' => s +:+ repeat_string n' s
  end.

(** An agent that answers with 4100 characters. *)
Definition ext_agent_up : Externals :=
  {| uuid4_hex := "0123456789abcdef0123456789abcdef";
     savefig := λ _ _, None;
     prophet_predict := λ _ _, inl "Dataframe has less than 2 non-NaN rows.";
     prophet_plot_error := λ _ _, None;
     OPENAI_API_KEY := "sk-test";
     agent_invoke := λ _ _,
       inr {| reply_output := Some (repeat_string 410 "0123456789");
              reply_str := "{'input': '...', 'output': '...'}" |} |}.

(** The chart sink is out of order. *)
Definition ext_sink_down : Externals :=
  {| uuid4_hex := "0123456789abcdef0123456789abcdef";
     savefig := λ _ _, Some "[Errno 28] No space left on device";
     prophet_predict := λ _ _, inl "Dataframe has less than 2 non-NaN rows.";
     prophet_plot_error := λ _ _, None;
     OPENAI_API_KEY := "";
     agent_invoke := λ _ _, inl "no agent" |}.

(** A prediction that stops at the last historical day. *)
Definition history_only_forecast : list (Z * Qc) :=
  (λ d, (d, Qc_of_Z (10 * d))) <$> seqZ 0 9.

(** The float that a decimal literal denotes. *)
Definition float_of (x : Qc) : Qc := Double.value (Double.round x).

(** Two shipments on one day, of 0.1 and 0.025. *)
Definition tenth_rows : DataFrame :=
  [ make_row (Some (float_of (Q2Qc (1 # 10)))) None (Some (ns_of_day 0)) "1" "SC1" "B1";
    make_row (Some (float_of (Q2Qc (1 # 40)))) None (Some (ns_of_day 0 + 9)) "2" "SC2" "B2" ].

(** Two shipments of 1e308. *)
Definition huge_rows : DataFrame :=
  [ make_row (Some (float_of (Qc_of_Z (10 ^ 308)))) None (Some (ns_of_day 0)) "1" "SC1" "B1";
    make_row (Some (float_of (Qc_of_Z (10 ^ 308)))) None (Some (ns_of_day 1)) "2" "SC2" "B2" ].

(** Three shipments at the same instant, of 1e16, 1 and -1e16, and the
    same shipments in another order. *)
Definition tied_rows : DataFrame :=
  [ make_row (Some (Qc_of_Z (10 ^ 16))) None (Some (ns_of_day 0)) "1" "SC1" "B1";
    make_row (Some (Qc_of_Z 1)) None (Some (ns_of_day 0)) "2" "SC2" "B2";
    make_row (Some (Qc_of_Z (- 10 ^ 16))) None (Some (ns_of_day 0)) "3" "SC3" "B3" ].

Definition tied_rows_reordered : DataFrame :=
  [ make_row (Some (Qc_of_Z (10 ^ 16))) None (Some (ns_of_day 0)) "1" "SC1" "B1";
    make_row (Some (Qc_of_Z (- 10 ^ 16))) None (Some (ns_of_day 0)) "3" "SC3" "B3";
    make_row (Some (Qc_of_Z 1)) None (Some (ns_of_day 0)) "2" "SC2" "B2" ].

(** A prediction of 2000 for the one historical day and 2001 for the one
    forecast day. *)
Definition flat_forecast : list (Z * Qc) :=
  [ (0, Qc_of_Z 2000); (1, Qc_of_Z 2001) ].

(** * Vocabulary of the proofs about rounding *)

(** The sum of a list of integers, and the sum of their magnitudes. *)
Definition Zsum (ks : list Z) : Z := foldr Z.add 0 ks.
Definition Zabs_sum (ks : list Z) : Z := foldr (λ k acc, Z.abs k + acc) 0 ks.

(** [x] is the whole number [s], or the -0.0 that an empty sum starts
    from. *)
Definition sums_to (x : double) (s : Z) : Prop :=
  x = Num (Qc_of_Z s) ∨ (x = NegZero ∧ s = 0).

(** A double of the given sign that is at least one unit away from zero:
    an infinity, or a number of magnitude 2^-1074 or more. *)
Definition away_from_zero (negative : bool) (x : double) : Prop :=
  match x with
  | Num a => (Double.Qc_of_units 1 ≤ Qcabs a)%Qc ∧ (Qnum a <? 0) = negative
  | Inf s => s = negative
  | NegZero | NaN => False
  end.


(** * Facts about Python strings *)

Module PyStrFacts.
Import PyStr.

Lemma startswith_spec (p s : string) :
  startswith p s = true ↔ ∃ t, s = p +:+ t.
Proof.
  revert s. induction p as [|a p IH]; intros s; simpl.
  - split; [intros _; by exists s | done].
  - destruct s as [|b s].
    + split; [done | intros [t Ht]; discriminate].
    + rewrite andb_true_iff, IH. split.
      * intros [Hab [t ->]]. apply Ascii.eqb_eq in Hab as ->. by exists t.
      * intros [t Ht]. injection Ht as -> ->. split; [apply Ascii.eqb_refl | by exists t].
Qed.

Lemma contains_spec (k s : string) :
  contains k s = true ↔ occurs_in k s.
Proof.
  unfold occurs_in. induction s as [|c s IH]; simpl.
  - rewrite orb_false_r, startswith_spec. split.
    + intros [t Ht]. by exists "", t.
    + intros [pre [post H]]. destruct pre; [by exists post | discriminate].
  - rewrite orb_true_iff, startswith_spec, IH. split.
    + intros [[t Ht] | [pre [post Hs]]].
      * by exists "", t.
      * exists (String c pre), post. simpl. by rewrite Hs.
    + intros [pre [post H]]. destruct pre as [|c' pre]; simpl in H.
      * left. by exists post.
      * right. injection H as _ ->. by exists pre, post.
Qed.

Lemma any_in_spec (ks : list string) (q : string) :
  any_in ks q = true ↔ ∃ k, In k ks ∧ occurs_in k q.
Proof.
  unfold any_in. rewrite existsb_exists.
  split; intros [k [Hk Hc]]; exists k; split; try done; by apply contains_spec.
Qed.

Lemma length_slice_to (n : nat) (s : string) :
  (String.length (slice_to n s) ≤ n)%nat.
Proof.
  revert s. induction n as [|n IH]; intros [|c s]; simpl; try lia.
  specialize (IH s). lia.
Qed.

Lemma slice_to_prefix (n : nat) (s : string) :
  ∃ t, s = slice_to n s +:+ t.
Proof.
  revert s. induction n as [|n IH]; intros s; simpl.
  - by exists s.
  - destruct s as [|c s]; [by exists "" |].
    destruct (IH s) as [t Ht]. exists t. exact (f_equal (String c) Ht).
Qed.

Lemma slice_to_short (n : nat) (s : string) :
  (String.length s ≤ n)%nat → slice_to n s = s.
Proof.
  revert s. induction n as [|n IH]; intros [|c s]; simpl; try done; try lia.
  intros H. f_equal. apply IH. lia.
Qed.

End PyStrFacts.

(** * Facts about number formatting *)

Module PyFormatFacts.
Import PyFormat.

Lemma digit_value_digit_char (d : Z) :
  0 ≤ d < 10 → digit_value (digit_char d) = Some d.
Proof.
  intros Hd. unfold digit_value, digit_char.
  rewrite N_ascii_embedding by lia.
  rewrite Z2N.id by lia.
  replace (48 <=? 48 + d) with true by (symmetry; apply Z.leb_le; lia).
  replace (48 + d <=? 57) with true by (symmetry; apply Z.leb_le; lia).
  simpl. f_equal. lia.
Qed.

Lemma read_digits_rev_digits (fuel : nat) (n : Z) :
  0 ≤ n < 2 ^ Z.of_nat fuel → read_digits_rev (digits_rev fuel n) = Some n.
Proof.
  revert n. induction fuel as [|fuel IH]; intros n Hn.
  - simpl in *. f_equal. lia.
  - rewrite Nat2Z.inj_succ, Z.pow_succ_r in Hn by lia.
    assert (0 ≤ n / 10 < 2 ^ Z.of_nat fuel) as Hq.
    { split; [apply Z.div_pos; lia |].
      apply Z.div_lt_upper_bound; lia. }
    cbn [digits_rev read_digits_rev].
    rewrite digit_value_digit_char by (apply Z.mod_pos_bound; lia).
    assert (read_digits_rev (if n / 10 =? 0 then [] else digits_rev fuel (n / 10))
            = Some (n / 10)) as ->.
    { destruct (Z.eqb_spec (n / 10) 0) as [-> | _]; [done | by apply IH]. }
    simpl. f_equal. pose proof (Z.div_mod n 10). lia.
Qed.

Lemma read_digits_rev_of (n : Z) :
  0 ≤ n → read_digits_rev (digits_rev_of n) = Some n.
Proof.
  intros Hn. apply read_digits_rev_digits.
  rewrite Nat2Z.inj_succ, Z2Nat.id by apply Z.log2_nonneg.
  destruct (Z.eq_dec n 0) as [-> | Hne]; [done |].
  split; [done |]. apply Z.log2_spec. lia.
Qed.

Lemma length_frac_digits_rev (prec : nat) (h : Z) :
  length (frac_digits_rev prec h) = prec.
Proof. revert h. induction prec as [|p IH]; intros h; simpl; [done | by rewrite IH]. Qed.

Lemma read_frac_digits_rev (prec : nat) (h : Z) :
  0 ≤ h → read_digits_rev (frac_digits_rev prec h) = Some (h mod 10 ^ Z.of_nat prec).
Proof.
  revert h. induction prec as [|p IH]; intros h Hh.
  - simpl. f_equal. by rewrite Z.mod_1_r.
  - cbn [frac_digits_rev read_digits_rev].
    rewrite digit_value_digit_char by (apply Z.mod_pos_bound; lia).
    rewrite IH by (apply Z.div_pos; lia).
    simpl. f_equal.
    rewrite Nat2Z.inj_succ, Z.pow_succ_r by lia.
    rewrite Z.rem_mul_r by lia. lia.
Qed.

Lemma group3_rev_four (a b c d : ascii) (rest : list ascii) :
  group3_rev (a :: b :: c :: d :: rest)
  = a :: b :: c :: ","%char :: group3_rev (d :: rest).
Proof. reflexivity. Qed.

Lemma ungroup3_rev_comma (a b c d : ascii) (rest : list ascii) :
  ungroup3_rev (a :: b :: c :: ","%char :: d :: rest)
  = r ← ungroup3_rev (d :: rest); Some (a :: b :: c :: r).
Proof. reflexivity. Qed.

Lemma ungroup3_rev_group3_rev (ds : list ascii) :
  ungroup3_rev (group3_rev ds) = Some ds.
Proof.
  remember (length ds) as n eqn:Hn. revert ds Hn.
  induction n as [n IH] using lt_wf_ind. intros ds Hn.
  destruct ds as [|a [|b [|c [|d rest]]]]; try done.
  rewrite group3_rev_four.
  assert (ungroup3_rev (group3_rev (d :: rest)) = Some (d :: rest)) as Hrest.
  { apply (IH (length (d :: rest))); [subst n; simpl; lia | done]. }
  destruct (group3_rev (d :: rest)) as [|d' rest'] eqn:Hg.
  { destruct rest as [|? [|? [|? ?]]]; discriminate. }
  rewrite ungroup3_rev_comma, Hrest. done.
Qed.

Lemma round_half_even_nearest (n d : Z) :
  0 < d → 2 * Z.abs (round_half_even n d * d - n) ≤ d.
Proof.
  intros Hd. unfold round_half_even.
  pose proof (Z.div_mod n d ltac:(lia)) as Hdm.
  pose proof (Z.mod_pos_bound n d Hd) as Hm.
  destruct (Z.compare_spec (2 * (n mod d)) d);
    [destruct (Z.even (n / d)) | |]; nia.
Qed.

Lemma round_half_even_nonneg (n d : Z) :
  0 ≤ n → 0 < d → 0 ≤ round_half_even n d.
Proof.
  intros Hn Hd. unfold round_half_even.
  assert (0 ≤ n / d) by (apply Z.div_pos; lia).
  destruct (2 * (n mod d) ?= d); [destruct (Z.even (n / d)) | |]; lia.
Qed.

Lemma round_half_even_exact (k d : Z) :
  0 < d → round_half_even (k * d) d = k.
Proof.
  intros Hd. unfold round_half_even.
  rewrite Z.mod_mul, Z.div_mul by lia.
  destruct (Z.compare_spec (2 * 0) d); lia.
Qed.

Lemma scaled_nonneg (prec : nat) (x : Qc) : 0 ≤ scaled prec x.
Proof. apply round_half_even_nonneg; [| done]. apply Z.mul_nonneg_nonneg; lia. Qed.

Lemma read_f_rev_format_f_rev (grouping : bool) (prec : nat) (x : Qc) :
  read_f_rev grouping prec (format_f_rev grouping prec x) = Some (scaled prec x).
Proof.
  pose proof (scaled_nonneg prec x) as Hh.
  unfold read_f_rev, format_f_rev.
  set (h := scaled prec x) in *.
  set (ipd := digits_rev_of (h / 10 ^ Z.of_nat prec)).
  set (ip := if grouping then group3_rev ipd else ipd).
  assert (ip ≠ []) as Hip.
  { subst ip. destruct grouping; [| done].
    subst ipd. unfold digits_rev_of. cbn [digits_rev].
    destruct (if _ =? 0 then _ else _) as [|? [|? [|? ?]]]; done. }
  assert ((if grouping then ungroup3_rev ip else Some ip) = Some ipd) as Hun.
  { subst ip. destruct grouping; [apply ungroup3_rev_group3_rev | done]. }
  assert (read_digits_rev ipd = Some (h / 10 ^ Z.of_nat prec)) as Hint.
  { apply read_digits_rev_of. apply Z.div_pos; lia. }
  assert (h / 10 ^ Z.of_nat prec * 10 ^ Z.of_nat prec + h mod 10 ^ Z.of_nat prec = h) as Hval.
  { pose proof (Z.div_mod h (10 ^ Z.of_nat prec)). lia. }
  destruct prec as [|p].
  - cbn [app]. rewrite drop_0, take_0. cbn [mbind option_bind].
    rewrite bool_decide_true by done.
    rewrite (bool_decide_false (ip = [])) by done. simpl andb. cbv iota.
    rewrite Hun. cbn [mbind option_bind]. rewrite Hint. cbn [mbind option_bind read_digits_rev].
    f_equal. rewrite Z.mod_1_r in Hval. lia.
  - set (fd := frac_digits_rev (S p) h).
    assert (length fd = S p) as Hlen by apply length_frac_digits_rev.
    rewrite <- (assoc_L app). rewrite take_app_length' by done.
    rewrite drop_app_length' by done.
    cbn [app]. rewrite Ascii.eqb_refl. cbn [mbind option_bind].
    rewrite bool_decide_true by done.
    rewrite (bool_decide_false (ip = [])) by done. simpl andb. cbv iota.
    rewrite Hun. cbn [mbind option_bind]. rewrite Hint. cbn [mbind option_bind].
    subst fd. rewrite read_frac_digits_rev by done. cbn [mbind option_bind].
    f_equal. exact Hval.
Qed.

Lemma strip_sign_digit (c : ascii) (s : string) :
  is_Some (digit_value c) → strip_sign (String c s) = (false, String c s).
Proof.
  intros [d Hd]. unfold strip_sign.
  destruct (Ascii.eqb_spec c "-") as [-> | _]; [discriminate | done].
Qed.

Lemma digit_value_last_digits (fuel : nat) (n : Z) (c : ascii) :
  0 ≤ n → last (digits_rev fuel n) = Some c → is_Some (digit_value c).
Proof.
  revert n. induction fuel as [|fuel IH]; intros n Hn; [done |].
  cbn [digits_rev].
  destruct (Z.eqb_spec (n / 10) 0) as [_ | _].
  - simpl. intros [= <-]. rewrite digit_value_digit_char; [done |].
    apply Z.mod_pos_bound; lia.
  - destruct (digits_rev fuel (n / 10)) as [|c' l] eqn:Hl.
    + simpl. intros [= <-]. rewrite digit_value_digit_char; [done |].
      apply Z.mod_pos_bound; lia.
    + rewrite last_cons_cons. rewrite <- Hl. apply IH. apply Z.div_pos; lia.
Qed.

Lemma last_group3_rev (ds : list ascii) : last (group3_rev ds) = last ds.
Proof.
  remember (length ds) as n eqn:Hn. revert ds Hn.
  induction n as [n IH] using lt_wf_ind. intros ds Hn.
  destruct ds as [|a [|b [|c [|d rest]]]]; try done.
  rewrite group3_rev_four.
  assert (last (group3_rev (d :: rest)) = last (d :: rest)) as Hrest.
  { apply (IH (length (d :: rest))); [subst n; simpl; lia | done]. }
  destruct (group3_rev (d :: rest)) as [|d' rest'] eqn:Hg.
  { destruct rest as [|? [|? [|? ?]]]; discriminate. }
  do 4 rewrite last_cons_cons. rewrite Hrest.
  by do 3 rewrite last_cons_cons.
Qed.

(** Reading back what the [f] presentation type wrote gives the sign of
    the number and its rounded magnitude. *)
Lemma read_f_format_f (grouping : bool) (prec : nat) (x : Qc) :
  read_f grouping prec (format_f grouping prec x)
  = Some (is_negative x, scaled prec x).
Proof.
  unfold read_f, format_f.
  set (body := string_of_list_ascii (rev (format_f_rev grouping prec x))).
  assert (rev (list_ascii_of_string body) = format_f_rev grouping prec x) as Hbody.
  { subst body. by rewrite list_ascii_of_string_of_list_ascii, rev_involutive. }
  destruct (is_negative x).
  - change ("-" +:+ body) with (String "-" body). cbn [strip_sign].
    rewrite Ascii.eqb_refl, Hbody, read_f_rev_format_f_rev. done.
  - change ("" +:+ body) with body.
    assert (∃ c s, body = String c s ∧ is_Some (digit_value c)) as (c & s & Hs & Hc).
    { pose proof (scaled_nonneg prec x) as Hh.
      assert (∃ c, last (format_f_rev grouping prec x) = Some c ∧ is_Some (digit_value c))
        as (c & Hlast & Hc).
      { unfold format_f_rev.
        set (ipd := digits_rev_of (scaled prec x / 10 ^ Z.of_nat prec)).
        assert (∃ c, last ipd = Some c) as [c Hc].
        { subst ipd. unfold digits_rev_of.
          destruct (digits_rev _ _) as [|? ?] eqn:Hd; [done |].
          rewrite <- Hd. apply last_is_Some. by rewrite Hd. }
        exists c. split.
        - rewrite last_app.
          replace (last (if grouping then group3_rev ipd else ipd)) with (last ipd)
            by (destruct grouping; [by rewrite last_group3_rev | done]).
          by rewrite Hc.
        - eapply digit_value_last_digits; [| exact Hc]. apply Z.div_pos; lia. }
      apply last_Some in Hlast as [l' Hl'].
      subst body. rewrite Hl', rev_app_distr. simpl. eauto. }
    rewrite Hs, strip_sign_digit by done. rewrite <- Hs, Hbody, read_f_rev_format_f_rev.
    done.
Qed.


End PyFormatFacts.

(** * Facts about double precision *)

Module DoubleFacts.
Import Double.

Lemma div_cross (a b d1 d2 : Z) :
  0 < d1 → 0 < d2 → a * d2 = b * d1 → a / d1 = b / d2.
Proof.
  intros H1 H2 H.
  rewrite <- (Z.div_mul_cancel_r a d1 d2) by lia.
  rewrite <- (Z.div_mul_cancel_l b d2 d1) by lia.
  f_equal; lia.
Qed.

Lemma round_half_even_ratio (a b d1 d2 : Z) :
  0 < d1 → 0 < d2 → a * d2 = b * d1 →
  PyFormat.round_half_even a d1 = PyFormat.round_half_even b d2.
Proof.
  intros H1 H2 H. unfold PyFormat.round_half_even.
  rewrite <- (div_cross a b d1 d2) by done.
  rewrite (Z.mod_eq a d1), (Z.mod_eq b d2) by lia.
  rewrite <- (div_cross a b d1 d2) by done.
  set (q := a / d1).
  assert ((2 * (a - d1 * q) ?= d1) = (2 * (b - d2 * q) ?= d2)) as ->; [| done].
  assert (2 * (a - d1 * q) * d2 = 2 * (b - d2 * q) * d1) as Hs by nia.
  destruct (Z.compare_spec (2 * (a - d1 * q)) d1),
           (Z.compare_spec (2 * (b - d2 * q)) d2); try done; nia.
Qed.

Lemma nearest_units_ratio (n1 n2 d1 d2 : Z) :
  0 < d1 → 0 < d2 → n1 * d2 = n2 * d1 →
  nearest_units n1 d1 = nearest_units n2 d2.
Proof.
  intros H1 H2 H. unfold nearest_units.
  rewrite <- (div_cross (n1 * 2 ^ 1074) (n2 * 2 ^ 1074) d1 d2) by (done || nia).
  set (E := Z.max _ 0).
  assert (0 < 2 ^ E) by (apply Z.pow_pos_nonneg; lia).
  f_equal. apply round_half_even_ratio; nia.
Qed.

(** Rounding a fraction that is not in lowest terms. *)
Lemma round_frac (n : Z) (d : positive) :
  round (Q2Qc (n # d)) = of_units (n <? 0) (nearest_units (Z.abs n) (Zpos d)).
Proof.
  unfold round.
  pose proof (Qred_correct (n # d)) as H. unfold Qeq in H. simpl in H.
  change (this (Q2Qc (n # d))) with (Qred (n # d)).
  set (q := Qred (n # d)) in *.
  assert ((Qnum q <? 0) = (n <? 0)) as ->.
  { destruct (Z.ltb_spec (Qnum q) 0), (Z.ltb_spec n 0); try done; nia. }
  f_equal. apply nearest_units_ratio; [done | done | nia].
Qed.

Lemma pow2_pos (e : Z) : 0 < 2 ^ e ∨ (e < 0 ∧ 2 ^ e = 0).
Proof.
  destruct (Z.le_gt_cases 0 e) as [H | H].
  - left. by apply Z.pow_pos_nonneg.
  - right. split; [lia |]. by apply Z.pow_neg_r.
Qed.

(** A multiple [m * 2^F] of the unit with a mantissa below 2^53 is not
    rounded. *)
Lemma nearest_units_exact (n d m F : Z) :
  0 < d → 0 ≤ m < 2 ^ 53 → 0 ≤ F → n * 2 ^ 1074 = m * 2 ^ F * d →
  nearest_units n d = m * 2 ^ F.
Proof.
  intros Hd Hm HF Hn. unfold nearest_units. rewrite Hn.
  rewrite Z.div_mul by lia.
  assert (0 < 2 ^ F) as HF' by (by apply Z.pow_pos_nonneg).
  set (E := Z.max (Z.log2 (m * 2 ^ F) - 52) 0).
  assert (0 ≤ E ≤ F) as HE.
  { subst E. destruct (decide (m = 0)) as [-> | Hm0].
    - rewrite Z.mul_0_l. change (Z.log2 0) with 0. lia.
    - rewrite Z.log2_mul_pow2 by lia.
      assert (Z.log2 m < 53) as Hlog by (apply Z.log2_lt_pow2; lia). lia. }
  assert (0 < 2 ^ E) as HE' by (apply Z.pow_pos_nonneg; lia).
  assert (2 ^ F = 2 ^ (F - E) * 2 ^ E) as HFE.
  { rewrite <- Z.pow_add_r by lia. f_equal. lia. }
  replace (m * 2 ^ F * d) with (m * 2 ^ (F - E) * (d * 2 ^ E)) by (rewrite HFE; ring).
  rewrite PyFormatFacts.round_half_even_exact by nia.
  rewrite HFE. ring.
Qed.

(** What [nearest_units] returns is a multiple [m * 2^E] of the unit with
    a mantissa of at most 53 bits. *)
Lemma nearest_units_shape (n d : Z) :
  0 ≤ n → 0 < d →
  ∃ m F, 0 ≤ m < 2 ^ 53 ∧ 0 ≤ F ∧ nearest_units n d = m * 2 ^ F.
Proof.
  intros Hn Hd. unfold nearest_units.
  set (N := n * 2 ^ 1074).
  assert (0 ≤ N) as HN by (subst N; apply Z.mul_nonneg_nonneg; [done | by apply Z.pow_nonneg]).
  set (L := Z.log2 (N / d)).
  set (E := Z.max (L - 52) 0).
  assert (0 ≤ E) as HE by (subst E; lia).
  assert (0 < 2 ^ E) as HE' by (by apply Z.pow_pos_nonneg).
  set (D := d * 2 ^ E).
  assert (0 < D) as HD by (subst D; nia).
  assert (0 ≤ PyFormat.round_half_even N D ≤ N / D + 1) as Hr.
  { split; [by apply PyFormatFacts.round_half_even_nonneg |].
    unfold PyFormat.round_half_even.
    destruct (2 * (N mod D) ?= D); [destruct (Z.even (N / D)) | |]; lia. }
  assert (N / D < 2 ^ 53) as Hq.
  { subst D. rewrite <- Z.div_div by lia.
    assert (0 ≤ N / d) as Hq0 by (apply Z.div_pos; lia).
    destruct (decide (N / d = 0)) as [-> | Hne].
    { rewrite Z.div_0_l by lia. done. }
    pose proof (Z.log2_spec (N / d) ltac:(lia)) as [_ Hlog]. fold L in Hlog.
    apply Z.div_lt_upper_bound; [done |].
    eapply Z.lt_le_trans; [exact Hlog |].
    rewrite <- Z.pow_add_r by lia. apply Z.pow_le_mono_r; lia. }
  destruct (decide (PyFormat.round_half_even N D = 2 ^ 53)) as [Heq | Hne].
  - exists (2 ^ 52), (E + 1). split_and!; [done | done | lia |].
    rewrite Heq, Z.pow_add_r by lia. change (2 ^ 53) with (2 ^ 52 * 2 ^ 1). ring.
  - exists (PyFormat.round_half_even N D), E. split_and!; [lia | lia | done | done].
Qed.

(** Rounding at most halves a number of at least one unit. *)
Lemma nearest_units_lower (n d : Z) :
  0 < d → d ≤ n * 2 ^ 1074 → n * 2 ^ 1074 ≤ 2 * (nearest_units n d * d).
Proof.
  intros Hd Hn. unfold nearest_units.
  set (N := n * 2 ^ 1074) in *.
  set (L := Z.log2 (N / d)).
  set (E := Z.max (L - 52) 0).
  assert (0 ≤ E) as HE by (subst E; lia).
  assert (0 < 2 ^ E) as HE' by (by apply Z.pow_pos_nonneg).
  assert (0 < N / d) as Hq by (apply Z.div_str_pos; lia).
  assert (d * 2 ^ E ≤ N) as HD.
  { pose proof (Z.log2_spec (N / d) Hq) as [Hlog _]. fold L in Hlog.
    pose proof (Z.log2_nonneg (N / d)) as HL. fold L in HL.
    assert (2 ^ E ≤ 2 ^ L) by (apply Z.pow_le_mono_r; lia).
    pose proof (Z.mul_div_le N d Hd). nia. }
  pose proof (PyFormatFacts.round_half_even_nearest N (d * 2 ^ E) ltac:(nia)) as Hnear.
  nia.
Qed.

Lemma Zpos_units : Zpos (2 ^ 1074) = 2 ^ 1074.
Proof. by rewrite Pos2Z.inj_pow. Qed.

Lemma Qcopp_Q2Qc (q : Q) : (- Q2Qc q)%Qc = Q2Qc (- q).
Proof.
  apply Qc_is_canon. unfold Qcopp. simpl.
  by rewrite !Qred_correct.
Qed.

Lemma Q2Qc_this (x : Qc) : Q2Qc (Qnum x # Qden x) = x.
Proof. apply Qc_is_canon. simpl. rewrite Qred_correct. by destruct x as [[n d] ?]. Qed.



Lemma Qc_of_units_Z (k : Z) : Qc_of_units (k * 2 ^ 1074) = Qc_of_Z k.
Proof.
  apply Qc_is_canon. unfold Qc_of_units. simpl. rewrite Qred_correct.
  unfold Qeq. simpl. rewrite Zpos_units. lia.
Qed.

(** An integer below 2^53 in magnitude is a double. *)
Lemma round_Z (k : Z) : Z.abs k < 2 ^ 53 → round (Qc_of_Z k) = Num (Qc_of_Z k).
Proof.
  intros Hk. unfold round. cbn [Qc_of_Z this inject_Z Qnum Qden].
  rewrite (nearest_units_exact (Z.abs k) 1 (Z.abs k) 1074) by lia.
  unfold of_units, zero.
  destruct (Z.eqb_spec (Z.abs k * 2 ^ 1074) 0) as [H0 | Hne].
  { assert (k = 0) as -> by lia. simpl. f_equal. by apply Qc_is_canon. }
  assert (Z.abs k * 2 ^ 1074 ≤ max_units) as Hmax.
  { unfold max_units. change (2 ^ 2045) with (2 ^ 971 * 2 ^ 1074).
    rewrite Z.mul_assoc. apply Z.mul_le_mono_nonneg_r; [done |].
    assert (Z.abs k ≤ 2 ^ 53 - 1) by lia.
    etrans; [eassumption |]. done. }
  rewrite (proj2 (Z.ltb_ge _ _) Hmax). f_equal.
  rewrite Qc_of_units_Z.
  destruct (Z.ltb_spec k 0).
  - rewrite <- Z2Qc_inj_opp. f_equal. lia.
  - f_equal. lia.
Qed.

(** ** Whole numbers

    Sums of whole numbers are exact as long as they stay below 2^53. *)

Lemma add_Z (a b : Z) :
  Z.abs (a + b) < 2 ^ 53 →
  add (Num (Qc_of_Z a)) (Num (Qc_of_Z b)) = Num (Qc_of_Z (a + b)).
Proof. intros H. unfold add, value. rewrite <- Z2Qc_inj_add. by apply round_Z. Qed.

Lemma opp_Z (b : Z) : value (opp (Num (Qc_of_Z b))) = Qc_of_Z (- b).
Proof.
  unfold opp. case_bool_decide as H0; simpl.
  - rewrite <- Z2Qc_inj_0 in H0. apply Z2Qc_inj in H0 as ->. symmetry. exact Z2Qc_inj_0.
  - by rewrite Z2Qc_inj_opp.
Qed.

Lemma sub_Z (a b : Z) :
  Z.abs (a - b) < 2 ^ 53 →
  sub (Num (Qc_of_Z a)) (Num (Qc_of_Z b)) = Num (Qc_of_Z (a - b)).
Proof.
  intros H. unfold sub.
  assert (add (Num (Qc_of_Z a)) (opp (Num (Qc_of_Z b)))
          = round (Qc_of_Z a + value (opp (Num (Qc_of_Z b))))) as ->.
  { unfold opp. by case_bool_decide. }
  rewrite opp_Z, <- Z2Qc_inj_add. by apply round_Z.
Qed.

Lemma add_sums_to (x y : double) (s t : Z) :
  sums_to x s → sums_to y t → Z.abs s + Z.abs t < 2 ^ 53 →
  sums_to (add x y) (s + t).
Proof.
  intros [-> | [-> ->]] [-> | [-> ->]] H.
  - left. apply add_Z. lia.
  - left. unfold add, value. rewrite Qcplus_0_r, Z.add_0_r. apply round_Z. lia.
  - left. unfold add, value. rewrite Qcplus_0_l, Z.add_0_l. apply round_Z. lia.
  - by right.
Qed.

Lemma add_Num_sums_to (x y : double) (s t : Z) :
  x = Num (Qc_of_Z s) → sums_to y t → Z.abs s + Z.abs t < 2 ^ 53 →
  add x y = Num (Qc_of_Z (s + t)).
Proof.
  intros -> [-> | [-> ->]] H.
  - apply add_Z. lia.
  - unfold add, value. rewrite Qcplus_0_r, Z.add_0_r. apply round_Z. lia.
Qed.

End DoubleFacts.

Module GridFacts.
Import Double DoubleFacts.

Lemma units_pos : 0 < 2 ^ 1074.
Proof. done. Qed.

Lemma Qc_of_units_le (a b : Z) : (Qc_of_units a ≤ Qc_of_units b)%Qc ↔ a ≤ b.
Proof.
  unfold Qcle, Qc_of_units. cbn [this Q2Qc]. rewrite !Qred_correct.
  unfold Qle. cbn [Qnum Qden]. rewrite Zpos_units. pose proof units_pos. nia.
Qed.

Lemma Qc_of_units_lt (a b : Z) : (Qc_of_units a < Qc_of_units b)%Qc ↔ a < b.
Proof.
  unfold Qclt, Qc_of_units. cbn [this Q2Qc]. rewrite !Qred_correct.
  unfold Qlt. cbn [Qnum Qden]. rewrite Zpos_units. pose proof units_pos. nia.
Qed.

Lemma Qc_of_units_inj (a b : Z) : Qc_of_units a = Qc_of_units b → a = b.
Proof.
  intros H. apply Z.le_antisymm; apply Qc_of_units_le; rewrite H; apply Qcle_refl.
Qed.

Lemma Qc_of_units_0 : Qc_of_units 0 = Q2Qc 0.
Proof. by apply Qc_is_canon. Qed.

Lemma Qc_of_units_opp (a : Z) : (- Qc_of_units a)%Qc = Qc_of_units (- a).
Proof. unfold Qc_of_units. by rewrite Qcopp_Q2Qc. Qed.

Lemma Qc_of_units_add (a b : Z) :
  (Qc_of_units a + Qc_of_units b)%Qc = Qc_of_units (a + b).
Proof.
  apply Qc_is_canon. unfold Qc_of_units, Qcplus. cbn [this Q2Qc].
  rewrite !Qred_correct. unfold Qeq, Qplus. cbn [Qnum Qden].
  rewrite Pos2Z.inj_mul, Zpos_units. ring.
Qed.

Lemma Qc_of_units_sub (a b : Z) :
  (Qc_of_units a - Qc_of_units b)%Qc = Qc_of_units (a - b).
Proof. unfold Qcminus. by rewrite Qc_of_units_opp, Qc_of_units_add. Qed.

Lemma Qc_of_units_abs (a : Z) : Qcabs (Qc_of_units a) = Qc_of_units (Z.abs a).
Proof.
  destruct (Z.le_gt_cases 0 a) as [H | H].
  - rewrite Z.abs_eq by done. apply Qcabs_pos.
    rewrite <- Qc_of_units_0. by apply Qc_of_units_le.
  - rewrite Z.abs_neq by lia. rewrite <- Qc_of_units_opp. apply Qcabs_neg.
    rewrite <- Qc_of_units_0. apply Qc_of_units_le. lia.
Qed.

Lemma Qnum_neg (a : Qc) : (Qnum a <? 0) = bool_decide (a < Q2Qc 0)%Qc.
Proof.
  destruct (Z.ltb_spec (Qnum a) 0) as [H | H]; symmetry.
  - apply bool_decide_eq_true. unfold Qclt, Qlt. simpl. lia.
  - apply bool_decide_eq_false. unfold Qclt, Qlt. simpl. lia.
Qed.

Lemma Qnum_neg_units (w : Z) : (Qnum (Qc_of_units w) <? 0) = (w <? 0).
Proof.
  rewrite Qnum_neg, <- Qc_of_units_0.
  destruct (Z.ltb_spec w 0) as [H | H].
  - apply bool_decide_eq_true. by apply Qc_of_units_lt.
  - apply bool_decide_eq_false. rewrite Qc_of_units_lt. lia.
Qed.

Lemma round_units (w : Z) :
  round (Qc_of_units w) = of_units (w <? 0) (nearest_units (Z.abs w) (2 ^ 1074)).
Proof. unfold Qc_of_units. by rewrite round_frac, Zpos_units. Qed.

(** A double is a whole number of units with a mantissa of 53 bits. *)
Lemma representable_units (a : Qc) :
  representable a →
  ∃ w m F, 0 ≤ m < 2 ^ 53 ∧ 0 ≤ F ∧ Z.abs w = m * 2 ^ F ∧ a = Qc_of_units w.
Proof.
  unfold representable, round.
  set (u := nearest_units (Z.abs (Qnum a)) (Zpos (Qden a))).
  destruct (nearest_units_shape (Z.abs (Qnum a)) (Zpos (Qden a)) ltac:(lia) ltac:(done))
    as (m & F & Hm & HF & Hu). fold u in Hu.
  assert (0 < 2 ^ F) by (by apply Z.pow_pos_nonneg).
  unfold of_units, zero.
  destruct (Z.eqb_spec u 0) as [H0 | _].
  - destruct (Qnum a <? 0); [done |]. intros [= Ha].
    exists 0, m, F. rewrite Qc_of_units_0. split_and!; [lia | lia | done | lia | done].
  - assert (0 ≤ u) by nia.
    destruct (max_units <? u); [done |].
    destruct (Qnum a <? 0); intros [= Ha].
    + exists (- u), m, F. rewrite <- Qc_of_units_opp. split_and!; [lia | lia | done | lia | done].
    + exists u, m, F. split_and!; [lia | lia | done | lia | done].
Qed.

(** Two different doubles are at least one part in 2^53 + 1 apart. *)
Lemma units_gap (wa wb ma mb Fa Fb : Z) :
  0 ≤ ma < 2 ^ 53 → 0 ≤ Fa → Z.abs wa = ma * 2 ^ Fa →
  0 ≤ mb < 2 ^ 53 → 0 ≤ Fb → Z.abs wb = mb * 2 ^ Fb →
  wa ≠ wb → Z.abs wb < (2 ^ 53 + 1) * Z.abs (wa - wb).
Proof.
  intros Hma HFa Ha Hmb HFb Hb Hne.
  set (g := 2 ^ Z.min Fa Fb).
  assert (0 < g) as Hg by (apply Z.pow_pos_nonneg; lia).
  assert (∀ F, Z.min Fa Fb ≤ F → (g | 2 ^ F)) as Hdiv.
  { intros F HF. exists (2 ^ (F - Z.min Fa Fb)). unfold g.
    rewrite <- Z.pow_add_r by lia. f_equal. lia. }
  assert ((g | wa)) as Hga.
  { apply Z.divide_abs_r. rewrite Ha. apply Z.divide_mul_r, Hdiv. lia. }
  assert ((g | wb)) as Hgb.
  { apply Z.divide_abs_r. rewrite Hb. apply Z.divide_mul_r, Hdiv. lia. }
  assert (g ≤ Z.abs (wa - wb)) as Hgap.
  { apply Z.divide_pos_le; [lia |]. apply Z.divide_abs_r. by apply Z.divide_sub_r. }
  destruct (Z.le_gt_cases Fb Fa) as [Hle | Hgt].
  - assert (g = 2 ^ Fb) as Hgb' by (unfold g; f_equal; lia). nia.
  - assert (g = 2 ^ Fa) as Hga' by (unfold g; f_equal; lia). nia.
Qed.

Lemma of_units_away (s : bool) (u : Z) : 1 ≤ u → away_from_zero s (of_units s u).
Proof.
  intros Hu. unfold of_units.
  rewrite (proj2 (Z.eqb_neq u 0)) by lia.
  destruct (max_units <? u); [done |]. destruct s; cbn [away_from_zero].
  - rewrite Qcabs_opp, Qc_of_units_abs, Z.abs_eq by lia.
    split; [by apply Qc_of_units_le |].
    rewrite Qc_of_units_opp, Qnum_neg_units. apply Z.ltb_lt. lia.
  - rewrite Qc_of_units_abs, Z.abs_eq by lia.
    split; [by apply Qc_of_units_le |].
    rewrite Qnum_neg_units. apply Z.ltb_ge. lia.
Qed.

Lemma of_units_Num (s : bool) (u : Z) (x : Qc) :
  0 ≤ u → of_units s u = Num x → Qcabs x = Qc_of_units u.
Proof.
  intros Hu. unfold of_units, zero.
  destruct (Z.eqb_spec u 0) as [-> | _].
  - destruct s; [done |]. intros [= <-]. by apply Qc_is_canon.
  - destruct (max_units <? u); [done |]. destruct s; intros [= <-].
    + by rewrite Qcabs_opp, Qc_of_units_abs, Z.abs_eq.
    + by rewrite Qc_of_units_abs, Z.abs_eq.
Qed.

Lemma Qcabs_units_le (r : Qc) :
  (Qc_of_units 1 ≤ Qcabs r)%Qc ↔ Zpos (Qden r) ≤ Z.abs (Qnum r) * 2 ^ 1074.
Proof.
  unfold Qcle, Qc_of_units. cbn [this Q2Qc Qcabs]. rewrite Qred_correct.
  destruct r as [[n d] c]. unfold Qle. cbn [Qnum Qden Qabs.Qabs this].
  rewrite Zpos_units. lia.
Qed.

(** A result of at least one unit keeps its sign and is not rounded to
    zero. *)
Lemma round_away (r : Qc) :
  (Qc_of_units 1 ≤ Qcabs r)%Qc → away_from_zero (Qnum r <? 0) (round r).
Proof.
  intros H%Qcabs_units_le. unfold round. apply of_units_away.
  pose proof (nearest_units_lower (Z.abs (Qnum r)) (Zpos (Qden r)) ltac:(done) H).
  assert (0 < Z.pos (Qden r)) by done. nia.
Qed.

(** The sum or difference of two doubles, as a number of units. *)
Lemma round_units_cases (w : Z) :
  (w = 0 ∧ round (Qc_of_units w) = Num (Q2Qc 0)) ∨
  (w ≠ 0 ∧ away_from_zero (w <? 0) (round (Qc_of_units w))).
Proof.
  destruct (decide (w = 0)) as [-> | Hne].
  - left. split; [done |]. by rewrite Qc_of_units_0.
  - right. split; [done |]. rewrite <- Qnum_neg_units. apply round_away.
    rewrite Qc_of_units_abs. apply Qc_of_units_le. lia.
Qed.




End GridFacts.

Module SignFacts.
Import Double DoubleFacts GridFacts.

Lemma unit_pos : (Q2Qc 0 < Qc_of_units 1)%Qc.
Proof. rewrite <- Qc_of_units_0. by apply Qc_of_units_lt. Qed.

Lemma away_nonzero (s : bool) (a : Qc) :
  (Qc_of_units 1 ≤ Qcabs a)%Qc → a ≠ Q2Qc 0.
Proof.
  intros H ->. apply (Qclt_not_le _ _ unit_pos).
  etrans; [exact H |]. rewrite Qcabs_pos by apply Qcle_refl. apply Qcle_refl.
Qed.

Lemma away_facts (s : bool) (x : double) :
  away_from_zero s x → lt (Num (Q2Qc 0)) x = negb s ∧ x ≠ NaN ∧ is_zero x = false.
Proof.
  destruct x as [a | | t |]; [| done | | done].
  - intros [Ha Hs]. split_and!; [| done |].
    + unfold lt, value. rewrite <- Hs, Qnum_neg.
      pose proof (away_nonzero s a Ha) as Hne.
      destruct (Qc_dec (Q2Qc 0) a) as [[Hlt | Hgt] | Heq]; [| | done].
      * rewrite bool_decide_true by done.
        rewrite bool_decide_false; [done |].
        intros H. by apply (Qclt_not_le _ _ H), Qclt_le_weak.
      * rewrite bool_decide_false by (intros H; by apply (Qclt_not_le _ _ H), Qclt_le_weak).
        by rewrite bool_decide_true.
    + apply bool_decide_eq_false. by eapply away_nonzero.
  - simpl. intros ->. by destruct s.
Qed.

Lemma Qnum_neg_mult_pos (x k : Qc) :
  (Q2Qc 0 < k)%Qc → (Qnum (x * k)%Qc <? 0) = (Qnum x <? 0).
Proof.
  intros Hk. rewrite !Qnum_neg. apply bool_decide_ext.
  rewrite (Qcmult_lt_mono_pos_r x (Q2Qc 0) k Hk).
  by rewrite Qcmult_0_l.
Qed.

Lemma Qcabs_mult_pos (x k : Qc) :
  (Q2Qc 0 < k)%Qc → Qcabs (x * k) = (Qcabs x * k)%Qc.
Proof.
  intros Hk. rewrite Qcabs_Qcmult. f_equal. apply Qcabs_pos. by apply Qclt_le_weak.
Qed.

(** A quotient by a positive number that is not too large keeps the sign
    and stays away from zero. *)
Lemma div_away (s : bool) (D : double) (m : Qc) :
  away_from_zero s D → (Q2Qc 0 < m)%Qc →
  (∀ x, D = Num x → (Qc_of_units 1 * m ≤ Qcabs x)%Qc) →
  away_from_zero s (div D (Num m)).
Proof.
  intros Haway Hm Hgap. destruct D as [x | | t |]; [| done | | done].
  - destruct Haway as [Hx Hs].
    assert (m ≠ Q2Qc 0) as Hm0 by (intros ->; by apply Qclt_not_eq in Hm).
    unfold div, is_zero.
    rewrite (bool_decide_false (m = Q2Qc 0)) by done.
    rewrite (bool_decide_false (x = Q2Qc 0)) by by eapply away_nonzero.
    unfold value, Qcdiv. rewrite <- Hs, <- (Qnum_neg_mult_pos x (/ m)) by by apply Qcinv_pos.
    apply round_away. rewrite Qcabs_mult_pos by by apply Qcinv_pos.
    replace (Qc_of_units 1) with (Qc_of_units 1 * m * / m)%Qc by (field; done).
    apply Qcmult_le_compat_r; [by apply Hgap |]. by apply Qclt_le_weak, Qcinv_pos.
  - simpl in *. subst t. unfold div. simpl.
    rewrite Qnum_neg. rewrite bool_decide_false; [by destruct s |].
    intros H. by apply (Qclt_not_le _ _ H), Qclt_le_weak.
Qed.

Lemma mul_away (s : bool) (Q : double) (k : Qc) :
  away_from_zero s Q → (Qc_of_Z 1 ≤ k)%Qc →
  away_from_zero s (mul Q (Num k)).
Proof.
  intros Haway Hk.
  assert (Q2Qc 0 < k)%Qc as Hk0.
  { eapply Qclt_le_trans; [| exact Hk]. by rewrite <- Z2Qc_inj_0, <- Z2Qc_inj_lt. }
  assert (k ≠ Q2Qc 0) as Hkne by (intros ->; by apply Qclt_not_eq in Hk0).
  assert ((Qnum k <? 0) = false) as Hksign.
  { rewrite Qnum_neg. apply bool_decide_eq_false.
    intros H. by apply (Qclt_not_le _ _ H), Qclt_le_weak. }
  destruct Q as [y | | t |]; [| done | | done].
  - destruct Haway as [Hy Hs].
    unfold mul, is_zero.
    rewrite (bool_decide_false (k = Q2Qc 0)) by done.
    rewrite (bool_decide_false (y = Q2Qc 0)) by by eapply away_nonzero.
    unfold value. cbn [orb]. rewrite <- Hs, <- (Qnum_neg_mult_pos y k) by done.
    apply round_away. rewrite Qcabs_mult_pos by done.
    etrans; [exact Hy |].
    rewrite <- (Qcmult_1_r (Qcabs y)) at 1.
    apply Qcmult_le_mono_nonneg_l; [apply Qcabs_nonneg |].
    by rewrite <- Z2Qc_inj_1.
  - simpl in *. subst t. unfold mul, is_zero.
    rewrite (bool_decide_false (k = Q2Qc 0)) by done.
    cbn [is_negative]. rewrite Hksign. by destruct s.
Qed.

Lemma representable_0 : representable (Q2Qc 0).
Proof. unfold representable. by rewrite <- Qc_of_units_0 at 1. Qed.

Lemma finite_value (x : double) : finite x → representable (value x).
Proof. destruct x; [done | intros _; apply representable_0 | done | done]. Qed.

Lemma round_0 : round (Q2Qc 0) = Num (Q2Qc 0).
Proof. exact representable_0. Qed.

Lemma value_opp (b : Qc) : value (opp (Num b)) = (- b)%Qc.
Proof.
  unfold opp. case_bool_decide as Hb; [| done].
  subst b. by apply Qc_is_canon.
Qed.

Lemma sub_Num (a b : Qc) : sub (Num a) (Num b) = round (a - b).
Proof.
  unfold sub, Qcminus. rewrite <- value_opp. unfold opp. by case_bool_decide.
Qed.

(** The difference of two finite doubles: a zero when they are equal,
    and the rounded difference otherwise. *)
Lemma sub_finite (x y : double) :
  finite x → finite y →
  (value x = value y ∧ is_zero (sub x y) = true) ∨
  (value x ≠ value y ∧ sub x y = round (value x - value y)).
Proof.
  intros Hx Hy.
  assert (∀ a b : Qc, a = b → is_zero (round (a - b)) = true) as Hsame.
  { intros a b ->. replace (b - b)%Qc with (Q2Qc 0) by ring. by rewrite round_0. }
  destruct x as [a | | |], y as [b | | |]; try done; cbn [value].
  - rewrite sub_Num. destruct (decide (a = b)) as [Heq | Hne].
    + left. split; [done |]. by apply Hsame.
    + by right.
  - assert (sub (Num a) NegZero = round (a - Q2Qc 0)) as ->.
    { unfold sub, opp, add, value. f_equal. }
    destruct (decide (a = Q2Qc 0)) as [Heq | Hne].
    + left. split; [done |]. by apply Hsame.
    + by right.
  - unfold sub, opp. case_bool_decide as Hb.
    + left. by split.
    + right. split; [done |]. unfold add, value. f_equal.
  - left. split; [done |]. unfold sub, opp, add, value.
    replace (Q2Qc 0 + Q2Qc 0)%Qc with (Q2Qc 0) by ring. by rewrite round_0.
Qed.

(** The rounded difference of two different doubles has the sign of the
    difference and is not small against the second. *)
Lemma round_sub_gap (a b : Qc) :
  representable a → representable b → a ≠ b →
  away_from_zero (Qnum (a - b)%Qc <? 0) (round (a - b)) ∧
  ∀ x, round (a - b) = Num x → (Qc_of_units 1 * Qcabs b ≤ Qcabs x)%Qc.
Proof.
  intros Ha Hb Hne.
  destruct (representable_units a Ha) as (wa & ma & Fa & Hma & HFa & Hwa & ->).
  destruct (representable_units b Hb) as (wb & mb & Fb & Hmb & HFb & Hwb & ->).
  assert (wa ≠ wb) as Hw by congruence.
  rewrite Qc_of_units_sub.
  destruct (round_units_cases (wa - wb)) as [[? _] | [_ Haway]]; [lia |].
  rewrite Qnum_neg_units. split; [done |].
  intros x Hx. rewrite round_units in Hx.
  pose proof (units_gap wa wb ma mb Fa Fb Hma HFa Hwa Hmb HFb Hwb Hw) as Hgap.
  pose proof (nearest_units_lower (Z.abs (wa - wb)) (2 ^ 1074) ltac:(done)) as Hlow.
  set (nu := nearest_units (Z.abs (wa - wb)) (2 ^ 1074)) in *.
  assert (0 < 2 ^ 1074) as HU by done.
  assert (Z.abs (wa - wb) ≤ 2 * nu) as Hnu by nia.
  rewrite (of_units_Num _ nu x ltac:(lia) Hx), Qc_of_units_abs.
  assert (Z.abs wb ≤ nu * 2 ^ 1074) as Hbound.
  { assert (2 * (2 ^ 53 + 1) ≤ 2 ^ 1074) by done. nia. }
  unfold Qcle, Qc_of_units, Qcmult. cbn [this Q2Qc]. rewrite !Qred_correct.
  unfold Qle, Qmult. cbn [Qnum Qden]. rewrite Pos2Z.inj_mul, Zpos_units. nia.
Qed.

Lemma epsilon_bounds :
  (Q2Qc 0 < Double.value epsilon)%Qc ∧ (Double.value epsilon ≤ Qc_of_Z 1)%Qc.
Proof. split; by vm_compute. Qed.

(** The denominator of the percent change is a positive number: the
    magnitude of the historical mean, or 1e-6. *)
Lemma py_max_abs (x : double) :
  finite x →
  ∃ m, py_max (abs x) epsilon = Num m ∧ (Q2Qc 0 < m)%Qc ∧
       ((m ≤ Qcabs (value x))%Qc ∨ (m ≤ Qc_of_Z 1)%Qc).
Proof.
  intros Hx. destruct epsilon_bounds as [He0 He1].
  assert (abs x = Num (Qcabs (value x))) as ->.
  { destruct x; try done. simpl. f_equal. by apply Qc_is_canon. }
  unfold py_max, lt. cbn [value]. fold (value epsilon).
  case_bool_decide as Hlt.
  - exists (value epsilon). split_and!; [done | done | by right].
  - exists (Qcabs (value x)). split_and!; [done | | left; apply Qcle_refl].
    eapply Qclt_le_trans; [exact He0 |]. by apply Qcnot_lt_le.
Qed.

Lemma mul_zero (s : bool) (k : Qc) : ∃ t, mul (zero s) (Num k) = zero t.
Proof.
  destruct s; unfold zero, mul, is_zero; [by eexists |].
  rewrite (bool_decide_true (Q2Qc 0 = Q2Qc 0)) by done. by eexists.
Qed.

(** A zero stays a zero through the division and the multiplication. *)
Lemma div_mul_zero (D : double) (m k : Qc) :
  is_zero D = true → m ≠ Q2Qc 0 → ∃ t, mul (div D (Num m)) (Num k) = zero t.
Proof.
  intros HD Hm. destruct D as [x | | |]; try done; unfold div.
  - rewrite HD. unfold is_zero at 1. rewrite (bool_decide_false (m = Q2Qc 0)) by done.
    apply mul_zero.
  - unfold is_zero. rewrite (bool_decide_false (m = Q2Qc 0)) by done.
    apply mul_zero.
Qed.

End SignFacts.

(** The operations of [Double] agree with the binary64 operations of
    Rocq's kernel on the sample pairs: sums, differences, products,
    quotients, comparisons, magnitudes and opposites, roundings to
    subnormal numbers, to zero and to the infinities included. *)
Example kernel_floats_agree :
  forallb KernelSamples.agree_on KernelSamples.samples = true.
Proof. vm_compute. reflexivity. Qed.

(** * Facts about series *)

Module SeriesFacts.
Import DoubleFacts.

Lemma foldl_Qcplus (a : Qc) (l : list Qc) :
  foldl Qcplus a l = (a + exact_sum l)%Qc.
Proof.
  unfold exact_sum. revert a. induction l as [|x l IH]; intros a; simpl.
  - ring.
  - rewrite IH, (IH (Q2Qc 0 + x)%Qc). ring.
Qed.

Lemma exact_sum_cons (x : Qc) (l : list Qc) : exact_sum (x :: l) = (x + exact_sum l)%Qc.
Proof. unfold exact_sum at 1. simpl. rewrite foldl_Qcplus. ring. Qed.

Lemma exact_sum_perm (l1 l2 : list Qc) : l1 ≡ₚ l2 → exact_sum l1 = exact_sum l2.
Proof.
  induction 1 as [| x l1 l2 _ IH | x y l | l1 l2 l3 _ IH1 _ IH2].
  - done.
  - by rewrite !exact_sum_cons, IH.
  - rewrite !exact_sum_cons. ring.
  - by rewrite IH1.
Qed.

(** ** Sums of whole numbers *)

Lemma Zsum_app (l1 l2 : list Z) : Zsum (l1 ++ l2) = Zsum l1 + Zsum l2.
Proof. induction l1 as [|k l1 IH]; simpl; lia. Qed.

Lemma Zabs_sum_app (l1 l2 : list Z) : Zabs_sum (l1 ++ l2) = Zabs_sum l1 + Zabs_sum l2.
Proof. induction l1 as [|k l1 IH]; simpl; lia. Qed.

Lemma Zabs_sum_bound (l : list Z) : Z.abs (Zsum l) ≤ Zabs_sum l.
Proof. induction l as [|k l IH]; simpl; lia. Qed.

Lemma Zsum_take_drop (n : nat) (l : list Z) : Zsum (take n l) + Zsum (drop n l) = Zsum l.
Proof. by rewrite <- Zsum_app, take_drop. Qed.

Lemma Zabs_sum_take_drop (n : nat) (l : list Z) :
  Zabs_sum (take n l) + Zabs_sum (drop n l) = Zabs_sum l.
Proof. by rewrite <- Zabs_sum_app, take_drop. Qed.

Lemma foldl_add_sums_to (xs : list double) (ks : list Z) (acc : double) (s : Z) :
  sums_to acc s → Forall2 sums_to xs ks → Z.abs s + Zabs_sum ks < 2 ^ 53 →
  sums_to (foldl Double.add acc xs) (s + Zsum ks).
Proof.
  intros Hacc Hxs. revert acc s Hacc.
  induction Hxs as [|x k xs ks Hx _ IH]; intros acc s Hacc Hb; simpl in *.
  - by rewrite Z.add_0_r.
  - pose proof (Zabs_sum_bound ks).
    rewrite Z.add_assoc. apply IH; [apply add_sums_to; [done | done | lia] | lia].
Qed.

Lemma zip_with_add_sums_to (r a : list double) (ss ks : list Z) :
  Forall2 sums_to r ss → Forall2 sums_to a ks → length r = length a →
  Zabs_sum ss + Zabs_sum ks < 2 ^ 53 →
  Forall2 sums_to (zip_with Double.add r a) (zip_with Z.add ss ks)
  ∧ Zsum (zip_with Z.add ss ks) = Zsum ss + Zsum ks
  ∧ Zabs_sum (zip_with Z.add ss ks) ≤ Zabs_sum ss + Zabs_sum ks.
Proof.
  intros Hr. revert a ks.
  induction Hr as [|x s r ss Hx _ IH]; intros a ks Ha Hlen Hb.
  - destruct Ha; [| done]. simpl. split_and!; [constructor | done | done].
  - destruct Ha as [|y k a ks Hy Ha]; [done |]. simpl in *.
    pose proof (Zabs_sum_bound ss). pose proof (Zabs_sum_bound ks).
    assert (0 ≤ Zabs_sum ss) by lia. assert (0 ≤ Zabs_sum ks) by lia.
    destruct (IH a ks Ha ltac:(lia) ltac:(lia)) as (IH1 & IH2 & IH3).
    split_and!; [| lia | lia].
    constructor; [| done]. apply add_sums_to; [done | done | lia].
Qed.

Lemma unrolled_sum_sums_to (fuel : nat) (r a : list double) (ss ks : list Z) :
  Forall2 sums_to r ss → length r = 8%nat → Forall2 sums_to a ks →
  Zabs_sum ss + Zabs_sum ks < 2 ^ 53 →
  ∃ ss' ks',
    Forall2 sums_to (unrolled_sum fuel r a).1 ss' ∧ length (unrolled_sum fuel r a).1 = 8%nat ∧
    Forall2 sums_to (unrolled_sum fuel r a).2 ks' ∧
    Zsum ss' + Zsum ks' = Zsum ss + Zsum ks ∧
    Zabs_sum ss' + Zabs_sum ks' ≤ Zabs_sum ss + Zabs_sum ks.
Proof.
  revert r a ss ks. induction fuel as [|fuel IH]; intros r a ss ks Hr Hlen Ha Hb.
  { exists ss, ks. by split_and!. }
  cbn [unrolled_sum]. destruct (Nat.ltb_spec (length a) 8) as [Hshort | Hlong].
  { exists ss, ks. by split_and!. }
  pose proof (Zsum_take_drop 8 ks). pose proof (Zabs_sum_take_drop 8 ks).
  pose proof (Zabs_sum_bound (take 8 ks)). pose proof (Zabs_sum_bound (drop 8 ks)).
  destruct (zip_with_add_sums_to r (take 8 a) ss (take 8 ks)) as (Z1 & Z2 & Z3);
    [done | by apply Forall2_take | rewrite length_take; lia | lia |].
  destruct (IH (zip_with Double.add r (take 8 a)) (drop 8 a)
               (zip_with Z.add ss (take 8 ks)) (drop 8 ks))
    as (ss' & ks' & G1 & G2 & G3 & G4 & G5);
    [done | rewrite length_zip_with, length_take; lia | by apply Forall2_drop | lia |].
  exists ss', ks'. split_and!; [done | done | done | lia | lia].
Qed.

Lemma pairwise_sum_unfold (fuel : nat) (a : list double) :
  pairwise_sum fuel a =
  if (length a <? 8)%nat then foldl Double.add NegZero a
  else if (length a <=? 128)%nat then
    let '(r, rest) := unrolled_sum (length a) (take 8 a) (drop 8 a) in
    match r with
    | [r0; r1; r2; r3; r4; r5; r6; r7] =>
        foldl Double.add
          (Double.add (Double.add (Double.add r0 r1) (Double.add r2 r3))
                      (Double.add (Double.add r4 r5) (Double.add r6 r7)))
          rest
    | _ => NaN
    end
  else
    match fuel with
    | O => NaN
    | S fuel' =>
        let n2 := (length a / 2 - (length a / 2) mod 8)%nat in
        Double.add (pairwise_sum fuel' (take n2 a)) (pairwise_sum fuel' (drop n2 a))
    end.
Proof. by destruct fuel. Qed.

Lemma split_point (n : nat) :
  (128 < n)%nat →
  let n2 := (n / 2 - (n / 2) mod 8)%nat in (0 < n2 < n)%nat.
Proof.
  intros Hn n2.
  pose proof (Nat.mod_upper_bound (n / 2) 8 ltac:(lia)).
  pose proof (Nat.div_mod_eq n 2). pose proof (Nat.mod_upper_bound n 2 ltac:(lia)).
  subst n2. lia.
Qed.

(** The fuel of [ndarray_sum] is enough: more fuel gives the same sum. *)
Lemma pairwise_sum_fuel (fuel fuel' : nat) (a : list double) :
  (length a ≤ fuel)%nat → (length a ≤ fuel')%nat →
  pairwise_sum fuel a = pairwise_sum fuel' a.
Proof.
  revert fuel' a. induction fuel as [|fuel IH]; intros fuel' a H H'.
  - rewrite !pairwise_sum_unfold.
    destruct (length a <? 8)%nat eqn:E; [done |]. apply Nat.ltb_ge in E. lia.
  - rewrite !pairwise_sum_unfold.
    destruct (length a <? 8)%nat; [done |].
    destruct (Nat.leb_spec (length a) 128) as [_ | Hlong]; [done |].
    destruct fuel' as [|fuel']; [lia |].
    pose proof (split_point (length a) Hlong) as Hn2. cbv zeta in *.
    f_equal; apply IH; rewrite ?length_take, ?length_drop; lia.
Qed.

(** The pairwise sum of whole numbers whose magnitudes add up to less
    than 2^53 is their exact sum. *)
Lemma pairwise_sum_sums_to (fuel : nat) (a : list double) (ks : list Z) :
  (length a ≤ fuel)%nat → Forall2 sums_to a ks → Zabs_sum ks < 2 ^ 53 →
  sums_to (pairwise_sum fuel a) (Zsum ks).
Proof.
  revert a ks. induction fuel as [fuel IH] using lt_wf_ind. intros a ks Hfuel Ha Hb.
  rewrite pairwise_sum_unfold.
  destruct (Nat.ltb_spec (length a) 8) as [_ | Hlen8].
  { apply (foldl_add_sums_to a ks NegZero 0); [by right | done | lia]. }
  destruct (Nat.leb_spec (length a) 128) as [_ | Hlong].
  - pose proof (Zsum_take_drop 8 ks). pose proof (Zabs_sum_take_drop 8 ks).
    destruct (unrolled_sum_sums_to (length a) (take 8 a) (drop 8 a) (take 8 ks) (drop 8 ks))
      as (ss' & ks' & G1 & G2 & G3 & G4 & G5);
      [by apply Forall2_take | rewrite length_take; lia | by apply Forall2_drop | lia |].
    destruct (unrolled_sum (length a) (take 8 a) (drop 8 a)) as [r rest]. simpl in *.
    destruct r as [|r0 [|r1 [|r2 [|r3 [|r4 [|r5 [|r6 [|r7 [|? ?]]]]]]]]]; try done.
    apply Forall2_cons_inv_l in G1 as (s0 & ss0 & H0' & G1 & ->).
    apply Forall2_cons_inv_l in G1 as (s1 & ss1 & H1' & G1 & ->).
    apply Forall2_cons_inv_l in G1 as (s2 & ss2 & H2' & G1 & ->).
    apply Forall2_cons_inv_l in G1 as (s3 & ss3 & H3' & G1 & ->).
    apply Forall2_cons_inv_l in G1 as (s4 & ss4 & H4' & G1 & ->).
    apply Forall2_cons_inv_l in G1 as (s5 & ss5 & H5' & G1 & ->).
    apply Forall2_cons_inv_l in G1 as (s6 & ss6 & H6' & G1 & ->).
    apply Forall2_cons_inv_l in G1 as (s7 & ss7 & H7' & G1 & ->).
    apply Forall2_nil_inv_l in G1 as ->. simpl in *.
    pose proof (Zabs_sum_bound ks').
    replace (Zsum ks) with (((s0 + s1) + (s2 + s3)) + ((s4 + s5) + (s6 + s7)) + Zsum ks')
      by lia.
    apply foldl_add_sums_to; [| done | lia].
    repeat (apply add_sums_to; [| | lia]); done.
  - destruct fuel as [|fuel]; [lia |].
    pose proof (split_point (length a) Hlong) as Hn2. cbv zeta in *.
    set (n2 := (length a / 2 - (length a / 2) mod 8)%nat) in *.
    pose proof (Zsum_take_drop n2 ks). pose proof (Zabs_sum_take_drop n2 ks).
    pose proof (Zabs_sum_bound (take n2 ks)). pose proof (Zabs_sum_bound (drop n2 ks)).
    replace (Zsum ks) with (Zsum (take n2 ks) + Zsum (drop n2 ks)) by lia.
    apply add_sums_to; [apply IH | apply IH | lia];
      rewrite ?length_take, ?length_drop;
      try (by apply Forall2_take); try (by apply Forall2_drop); lia.
Qed.

(** numpy's sum of whole numbers whose magnitudes add up to less than
    2^53 is their exact sum. *)
Lemma ndarray_sum_Z (ks : list Z) :
  Zabs_sum ks < 2 ^ 53 →
  ndarray_sum (Num ∘ Qc_of_Z <$> ks) = Num (Qc_of_Z (Zsum ks)).
Proof.
  intros Hb. unfold ndarray_sum.
  pose proof (Zabs_sum_bound ks).
  apply (add_Num_sums_to _ _ 0 (Zsum ks)); [by rewrite Z2Qc_inj_0 | | lia].
  apply pairwise_sum_sums_to; [done | | done].
  apply Forall2_fmap_l, Forall_Forall2_diag, Forall_forall. intros k _. by left.
Qed.

Lemma Qcabs_Z (k : Z) : Qcabs (Qc_of_Z k) = Qc_of_Z (Z.abs k).
Proof.
  apply Qc_is_canon. by destruct k.
Qed.

Lemma exact_sum_Z (ks : list Z) : exact_sum (Qc_of_Z <$> ks) = Qc_of_Z (Zsum ks).
Proof.
  induction ks as [|k ks IH]; [symmetry; exact Z2Qc_inj_0 |].
  rewrite fmap_cons, exact_sum_cons, IH. simpl. by rewrite Z2Qc_inj_add.
Qed.

Lemma exact_abs_sum_Z (ks : list Z) :
  exact_sum (Qcabs <$> (Qc_of_Z <$> ks)) = Qc_of_Z (Zabs_sum ks).
Proof.
  induction ks as [|k ks IH]; [symmetry; exact Z2Qc_inj_0 |].
  rewrite !fmap_cons, exact_sum_cons, IH, Qcabs_Z. simpl. by rewrite Z2Qc_inj_add.
Qed.

Lemma adds_exactly_Z (xs : list Qc) :
  adds_exactly xs → ∃ ks, xs = Qc_of_Z <$> ks ∧ Zabs_sum ks < 2 ^ 53.
Proof.
  intros [Hwhole Hb]. exists ((λ x : Qc, Qnum x) <$> xs).
  assert (xs = Qc_of_Z <$> ((λ x : Qc, Qnum x) <$> xs)) as Hxs.
  { clear Hb. induction Hwhole as [|x xs Hx _ IH]; [done |].
    rewrite !fmap_cons, <- IH. by rewrite <- Hx. }
  split; [done |].
  rewrite Hxs, exact_abs_sum_Z in Hb. by apply Z2Qc_inj_lt.
Qed.

(** numpy's sum of numbers that add exactly is their exact sum. *)
Lemma ndarray_sum_exact (xs : list Qc) :
  adds_exactly xs → ndarray_sum (Num <$> xs) = Num (exact_sum xs).
Proof.
  intros (ks & -> & Hb)%adds_exactly_Z.
  rewrite <- list_fmap_compose, exact_sum_Z. by apply ndarray_sum_Z.
Qed.

Lemma Series_sum_exact (cells : list (option Qc)) :
  adds_exactly (default (Q2Qc 0) <$> cells) →
  Series_sum cells = Num (exact_sum (default (Q2Qc 0) <$> cells)).
Proof.
  intros H. unfold Series_sum.
  rewrite <- (ndarray_sum_exact _ H). by rewrite <- list_fmap_compose.
Qed.

(** ** Compensated sums *)

Lemma kahan_step_Z (s v : Z) :
  Z.abs s + Z.abs v < 2 ^ 53 →
  kahan_step (Num (Qc_of_Z s), Num (Qc_of_Z 0)) (Num (Qc_of_Z v))
  = (Num (Qc_of_Z (s + v)), Num (Qc_of_Z 0)).
Proof.
  intros Hb. unfold kahan_step.
  rewrite (sub_Z v 0), Z.sub_0_r by lia.
  rewrite (add_Z s v) by lia.
  rewrite (sub_Z (s + v) s) by lia.
  rewrite (sub_Z (s + v - s) v) by lia.
  replace (s + v - s - v) with 0 by lia. done.
Qed.

Lemma foldl_kahan_step_Z (ks : list Z) (s : Z) :
  Z.abs s + Zabs_sum ks < 2 ^ 53 →
  foldl kahan_step (Num (Qc_of_Z s), Num (Qc_of_Z 0)) (Num ∘ Qc_of_Z <$> ks)
  = (Num (Qc_of_Z (s + Zsum ks)), Num (Qc_of_Z 0)).
Proof.
  revert s. induction ks as [|k ks IH]; intros s Hb.
  - simpl. by rewrite Z.add_0_r.
  - pose proof (Zabs_sum_bound ks).
    change (Zabs_sum (k :: ks)) with (Z.abs k + Zabs_sum ks) in Hb.
    change (Zsum (k :: ks)) with (k + Zsum ks).
    rewrite fmap_cons. cbn [foldl]. change ((Num ∘ Qc_of_Z) k) with (Num (Qc_of_Z k)).
    rewrite kahan_step_Z by lia. rewrite IH by lia. by rewrite Z.add_assoc.
Qed.

(** The compensated sum of numbers that add exactly is their exact sum. *)
Lemma group_sum_exact (xs : list Qc) :
  adds_exactly xs → group_sum (Num <$> xs) = Num (exact_sum xs).
Proof.
  intros (ks & -> & Hb)%adds_exactly_Z.
  rewrite <- list_fmap_compose, exact_sum_Z. unfold group_sum.
  rewrite <- Z2Qc_inj_0. rewrite foldl_kahan_step_Z by lia. done.
Qed.


(** ** [idxmax] *)

Lemma lookup_snoc_Some {A} (l : list A) (x y : A) (j : nat) :
  (l ++ [x]) !! j = Some y → l !! j = Some y ∨ (j = length l ∧ y = x).
Proof.
  intros H. apply lookup_app_Some in H as [H | [Hj H]]; [by left |].
  right. apply list_lookup_singleton_Some in H as [Hj' ->]. split; [lia | done].
Qed.

Lemma best_of_snoc (pre : list (option Qc)) (best : option (nat * Qc)) (x : option Qc) :
  best_of pre best →
  best_of (pre ++ [x])
    match x, best with
    | None, _ => best
    | Some v, None => Some (length pre, v)
    | Some v, Some (_, b) => if bool_decide (b < v)%Qc then Some (length pre, v) else best
    end.
Proof.
  intros Hbest. destruct x as [v|].
  - destruct best as [[i b]|]; simpl in *.
    + destruct Hbest as [Hi Hmax].
      destruct (decide (b < v)%Qc) as [Hlt | Hge].
      * rewrite bool_decide_true by done. split.
        { by rewrite lookup_app_r, Nat.sub_diag. }
        intros j w Hj. apply lookup_snoc_Some in Hj as [Hj | [-> [= ->]]].
        -- destruct (Hmax j w Hj) as [Hle _]. split.
           ++ apply Qclt_le_weak. eapply Qcle_lt_trans; eauto.
           ++ intros ->. exfalso. eapply Qclt_not_le; eauto.
        -- split; [apply Qcle_refl | done].
      * rewrite bool_decide_false by done. split.
        { by apply lookup_app_l_Some. }
        intros j w Hj. apply lookup_snoc_Some in Hj as [Hj | [-> [= ->]]].
        -- by apply Hmax.
        -- split; [by apply Qcnot_lt_le |].
           intros _. apply lookup_lt_Some in Hi. lia.
    + split.
      { by rewrite lookup_app_r, Nat.sub_diag. }
      intros j w Hj. apply lookup_snoc_Some in Hj as [Hj | [-> [= ->]]].
      * by destruct (Hbest j w).
      * split; [apply Qcle_refl | done].
  - destruct best as [[i b]|]; simpl in *.
    + destruct Hbest as [Hi Hmax]. split.
      { by apply lookup_app_l_Some. }
      intros j w Hj. apply lookup_snoc_Some in Hj as [Hj | [_ [=]]]. by apply Hmax.
    + intros j w Hj. apply lookup_snoc_Some in Hj as [Hj | [_ [=]]]. by apply (Hbest j w).
Qed.

Lemma idxmax_from_best_of (xs pre : list (option Qc)) (best : option (nat * Qc)) :
  best_of pre best → best_of (pre ++ xs) (idxmax_from (length pre) best xs).
Proof.
  revert pre best. induction xs as [|x xs IH]; intros pre best Hbest.
  - by rewrite app_nil_r.
  - cbn [idxmax_from].
    replace (pre ++ x :: xs) with ((pre ++ [x]) ++ xs) by by rewrite <- app_assoc.
    replace (S (length pre)) with (length (pre ++ [x])) by (rewrite length_app; simpl; lia).
    apply IH. by apply best_of_snoc.
Qed.

Lemma idxmax_best_of (xs : list (option Qc)) : best_of xs (idxmax_from 0 None xs).
Proof. apply (idxmax_from_best_of xs [] None). by intros j v. Qed.

Lemma Series_idxmax_Ok (xs : list (option Qc)) (v : Qc) :
  Some v ∈ xs → ∃ i m, Series_idxmax xs = Ok i ∧ first_max xs i m.
Proof.
  intros Hin. pose proof (idxmax_best_of xs) as H. unfold Series_idxmax.
  destruct (idxmax_from 0 None xs) as [[i m]|]; simpl in H.
  - by exists i, m.
  - apply list_elem_of_lookup in Hin as [j Hj]. by destruct (H j v).
Qed.

Lemma Series_idxmax_Raise (xs : list (option Qc)) :
  (∀ v, Some v ∉ xs) → ∃ message, Series_idxmax xs = Raise (PyError message).
Proof.
  intros Hno. pose proof (idxmax_best_of xs) as H. unfold Series_idxmax.
  destruct (idxmax_from 0 None xs) as [[i m]|]; simpl in H; [| eauto].
  destruct H as [Hi _]. exfalso. apply (Hno m). by eapply list_elem_of_lookup_2.
Qed.

End SeriesFacts.

Module MeanFacts.
Import Double DoubleFacts GridFacts SeriesFacts.





End MeanFacts.

(** * Facts about the daily aggregation *)

Module AggregateFacts.
Import SeriesFacts.

Lemma ns_per_day_pos : 0 < ns_per_day.
Proof. done. Qed.

Lemma day_of_mono (a b : Z) : a ≤ b → day_of a ≤ day_of b.
Proof. intros H. apply Z.div_le_mono; [apply ns_per_day_pos | done]. Qed.

Lemma insert_by_index_perm (r : Z * Qc) (l : list (Z * Qc)) :
  insert_by_index r l ≡ₚ r :: l.
Proof.
  induction l as [|r' l IH]; simpl; [done |].
  destruct (r.1 <=? r'.1); [done |].
  by rewrite IH, Permutation_swap.
Qed.

Lemma sort_index_perm (l : list (Z * Qc)) : sort_index l ≡ₚ l.
Proof.
  induction l as [|r l IH]; simpl; [done |].
  by rewrite insert_by_index_perm, IH.
Qed.

Lemma insert_by_index_sorted (r : Z * Qc) (l : list (Z * Qc)) :
  StronglySorted by_index l → StronglySorted by_index (insert_by_index r l).
Proof.
  induction 1 as [|r' l Hl IH Hall]; simpl.
  - repeat constructor.
  - destruct (Z.leb_spec r.1 r'.1) as [Hle | Hgt].
    + constructor; [by constructor |].
      constructor; [done |].
      eapply Forall_impl; [exact Hall |]. unfold by_index. intros; simpl in *; lia.
    + constructor; [done |].
      rewrite insert_by_index_perm. constructor; [unfold by_index; lia | done].
Qed.

Lemma sort_index_sorted (l : list (Z * Qc)) : StronglySorted by_index (sort_index l).
Proof.
  induction l as [|r l IH]; simpl; [constructor |].
  by apply insert_by_index_sorted.
Qed.




Lemma sorted_bounds (r0 : Z * Qc) (l : list (Z * Qc)) (r1 r : Z * Qc) :
  StronglySorted by_index (r0 :: l) → last (r0 :: l) = Some r1 →
  r ∈ r0 :: l → r0.1 ≤ r.1 ≤ r1.1.
Proof.
  intros Hs Hlast Hr. split.
  - apply StronglySorted_inv in Hs as [_ Hall].
    apply elem_of_cons in Hr as [-> | Hr]; [done |].
    rewrite Forall_forall in Hall. by apply Hall.
  - apply last_Some in Hlast as [l' Hl']. rewrite Hl' in Hs, Hr.
    apply elem_of_app in Hr as [Hr | Hr].
    + eapply (StronglySorted_app_1_elem_of by_index l' [r1]); [done .. |].
      by apply list_elem_of_singleton.
    + apply list_elem_of_singleton in Hr as ->. done.
Qed.


Lemma day_values_perm (l1 l2 : list (Z * Qc)) (d : Z) :
  l1 ≡ₚ l2 → day_values l1 d ≡ₚ day_values l2 d.
Proof. intros H. unfold day_values. by rewrite H. Qed.

Lemma adds_exactly_perm (l1 l2 : list Qc) :
  l1 ≡ₚ l2 → adds_exactly l1 → adds_exactly l2.
Proof.
  intros Hp [Hwhole Hb]. split; [by rewrite <- Hp |].
  by rewrite <- (exact_sum_perm _ _ (fmap_Permutation Qcabs _ _ Hp)).
Qed.

(** The sum of a bin whose values add exactly is their exact sum, in
    whatever order the rows are. *)
Lemma day_sum_exact (rows rows' : list (Z * Qc)) (d : Z) :
  rows ≡ₚ rows' → adds_exactly (day_values rows' d) →
  day_sum rows d = Num (exact_sum (day_values rows' d)).
Proof.
  intros Hp Hex.
  pose proof (day_values_perm _ _ d Hp) as Hd.
  rewrite <- (exact_sum_perm _ _ Hd).
  unfold day_sum. rewrite list_fmap_compose. apply group_sum_exact.
  eapply adds_exactly_perm; [symmetry; exact Hd | done].
Qed.

Lemma StronglySorted_seqZ (m n : Z) : StronglySorted Z.lt (seqZ m n).
Proof.
  destruct (Z.le_gt_cases n 0) as [Hn | Hn].
  { rewrite seqZ_nil by done. constructor. }
  rewrite <- (Z2Nat.id n) by lia. generalize (Z.to_nat n) as k. clear.
  intros k. induction k as [|k IH]; [constructor |].
  rewrite seqZ_S. apply StronglySorted_app_2; [| done | repeat constructor].
  intros x1 x2 H1 H2. apply elem_of_seqZ in H1.
  apply list_elem_of_singleton in H2 as ->. lia.
Qed.

(** The bins of a sorted, non-empty frame. *)
Lemma resample_D_sum_cons (r0 : Z * Qc) (l : list (Z * Qc)) (r1 : Z * Qc) :
  last (r0 :: l) = Some r1 →
  resample_D_sum (r0 :: l)
  = (λ d, (d, day_sum (r0 :: l) d)) <$>
    seqZ (day_of r0.1) (day_of r1.1 - day_of r0.1 + 1).
Proof.
  intros H. destruct r0 as [t0 v0], r1 as [t1 v1].
  unfold resample_D_sum. by rewrite H.
Qed.

Lemma fst_fmap_pair {A B : Type} (g : A → B) (l : list A) :
  ((λ d, (d, g d)) <$> l).*1 = l.
Proof. induction l as [|x l IH]; csimpl; [done | by rewrite IH]. Qed.

Lemma resample_D_sum_days (rows : list (Z * Qc)) :
  StronglySorted Z.lt (resample_D_sum rows).*1.
Proof.
  destruct rows as [|r0 l]; [constructor |].
  assert (is_Some (last (r0 :: l))) as [r1 Hlast] by by apply last_is_Some.
  rewrite (resample_D_sum_cons _ _ _ Hlast).
  rewrite fst_fmap_pair. apply StronglySorted_seqZ.
Qed.

Lemma elem_of_resample_D_sum (rows : list (Z * Qc)) (d : Z) (s : double) :
  StronglySorted by_index rows →
  (d, s) ∈ resample_D_sum rows ↔
  s = day_sum rows d ∧
  ∃ r1 r2, r1 ∈ rows ∧ r2 ∈ rows ∧ day_of r1.1 ≤ d ≤ day_of r2.1.
Proof.
  intros Hs. destruct rows as [|r0 l].
  { split; [by intros ?%elem_of_nil | by intros [_ (r1 & _ & ?%elem_of_nil & _)]]. }
  assert (is_Some (last (r0 :: l))) as [r1 Hlast] by by apply last_is_Some.
  rewrite (resample_D_sum_cons _ _ _ Hlast), list_elem_of_fmap. split.
  - intros (d' & [= <- ->] & Hd). apply elem_of_seqZ in Hd. split; [done |].
    exists r0, r1. split_and!; [by left | by apply last_Some_elem_of | lia | lia].
  - intros [-> (a & b & Ha & Hb & Hd)].
    exists d. split; [done |]. apply elem_of_seqZ.
    pose proof (sorted_bounds _ _ _ _ Hs Hlast Ha) as [Ha0 _].
    pose proof (sorted_bounds _ _ _ _ Hs Hlast Hb) as [_ Hb1].
    apply day_of_mono in Ha0, Hb1. lia.
Qed.


Lemma daily_aggregate_nil (df : DataFrame) (date_col : DatetimeColumn)
    (value_col : NumericColumn) :
  daily_aggregate df date_col value_col = [] ↔ dropna df date_col value_col = [].
Proof.
  unfold daily_aggregate. generalize (dropna df date_col value_col). intros valid.
  pose proof (sort_index_perm valid) as Hp.
  pose proof (sort_index_sorted valid) as Hs. split.
  - intros Hnil. destruct (sort_index valid) as [|r0 l] eqn:Hsort.
    { by apply Permutation_nil. }
    assert (is_Some (last (r0 :: l))) as [r1 Hlast] by by apply last_is_Some.
    assert ((day_of r0.1, day_sum (r0 :: l) (day_of r0.1)) ∈ resample_D_sum (r0 :: l)) as Hin.
    { apply elem_of_resample_D_sum; [done |]. split; [done |].
      exists r0, r0. split_and!; [by left | by left | lia | lia]. }
    rewrite Hnil in Hin. by apply elem_of_nil in Hin.
  - by intros ->.
Qed.

Lemma daily_aggregate_elem (df : DataFrame) (date_col : DatetimeColumn)
    (value_col : NumericColumn) (d : Z) (s : double) :
  let valid := dropna df date_col value_col in
  (d, s) ∈ daily_aggregate df date_col value_col ↔
  s = day_sum (sort_index valid) d ∧
  ∃ d1 d2, present_day valid d1 ∧ present_day valid d2 ∧ d1 ≤ d ≤ d2.
Proof.
  intros valid. unfold daily_aggregate. fold valid.
  pose proof (sort_index_perm valid) as Hp.
  rewrite elem_of_resample_D_sum by apply sort_index_sorted.
  split; intros [Hs H]; (split; [done |]).
  - destruct H as (r1 & r2 & H1 & H2 & Hd). rewrite Hp in H1, H2.
    exists (day_of r1.1), (day_of r2.1). split_and!; [by exists r1 | by exists r2 | lia | lia].
  - destruct H as (d1 & d2 & (r1 & H1 & <-) & (r2 & H2 & <-) & Hd).
    exists r1, r2. by rewrite Hp.
Qed.

Lemma daily_aggregate_days_elem (df : DataFrame) (date_col : DatetimeColumn)
    (value_col : NumericColumn) (d : Z) :
  let valid := dropna df date_col value_col in
  d ∈ (daily_aggregate df date_col value_col).*1 ↔
  ∃ d1 d2, present_day valid d1 ∧ present_day valid d2 ∧ d1 ≤ d ≤ d2.
Proof.
  intros valid. rewrite list_elem_of_fmap. split.
  - intros ([d' s] & -> & Hin). by apply daily_aggregate_elem in Hin as [_ H].
  - intros H. exists (d, day_sum (sort_index valid) d). split; [done |].
    by apply daily_aggregate_elem.
Qed.


End AggregateFacts.

(** * Theorems *)

(** C4: [classify_query_intent] is a total function of the question text
    alone.  On the lowercased question it returns "forecast" when one of
    "forecast", "predict", "projection", "next " occurs in it; otherwise
    "trend" when one of "trend", "over time", "time series", "by day",
    "by month", "chart", "plot", "graph" occurs in it; otherwise
    "analysis".  Forecast keywords are tested first, so
    "predict the trend" is a forecast question, and equal questions get
    equal intents. *)
Theorem classify_total_ordered_tiers (question : string) :
  let q := PyStr.lower question in
  let forecast_tier :=
    ∃ k, In k ["forecast"; "predict"; "projection"; "next "] ∧ PyStr.occurs_in k q in
  let trend_tier :=
    ∃ k, In k ["trend"; "over time"; "time series"; "by day"; "by month";
               "chart"; "plot"; "graph"] ∧ PyStr.occurs_in k q in
  ((forecast_tier ∧ classify_query_intent question = "forecast") ∨
   (¬ forecast_tier ∧ trend_tier ∧ classify_query_intent question = "trend") ∨
   (¬ forecast_tier ∧ ¬ trend_tier ∧ classify_query_intent question = "analysis"))
  ∧ classify_query_intent "predict the trend" = "forecast"
  ∧ classify_query_intent "Predict The TREND" = "forecast"
  ∧ (∀ question', question' = question →
       classify_query_intent question' = classify_query_intent question).
Proof.
  intros q forecast_tier trend_tier. repeat split; [| by intros ? ->].
  unfold classify_query_intent. fold q.
  destruct (PyStr.any_in forecast_keywords q) eqn:Hf.
  { left. split; [by apply PyStrFacts.any_in_spec | done]. }
  assert (¬ forecast_tier) as Hnf.
  { intros H. apply PyStrFacts.any_in_spec in H.
    unfold forecast_keywords in Hf. congruence. }
  destruct (PyStr.any_in trend_keywords q) eqn:Ht.
  { right; left. repeat split; [done | by apply PyStrFacts.any_in_spec]. }
  right; right. repeat split; [done |].
  intros H. apply PyStrFacts.any_in_spec in H.
  unfold trend_keywords in Ht. congruence.
Qed.

(** Unfold the steps of a computation in [Result]. *)
Ltac run_result :=
  cbn [external mbind Result_bind try_except str_of_exception].

(** ** Rule engine *)

Lemma total_quantity_test (query : string) :
  PyStr.contains "total" (PyStr.lower query) && PyStr.contains "quantity" (PyStr.lower query)
  = true ↔ total_quantity_question query.
Proof.
  unfold total_quantity_question.
  by rewrite andb_true_iff, !PyStrFacts.contains_spec.
Qed.

Lemma highest_flow_test (query : string) :
  PyStr.contains "highest" (PyStr.lower query) &&
  (PyStr.contains "flow" (PyStr.lower query) || PyStr.contains "flowrate" (PyStr.lower query))
  = true ↔ highest_flow_question query.
Proof.
  unfold highest_flow_question.
  by rewrite andb_true_iff, orb_true_iff, !PyStrFacts.contains_spec.
Qed.


Lemma Series_sum_quantities (df : DataFrame) :
  Series_sum ((λ r, numeric r GrossQuantity) <$> df) = ndarray_sum (Num <$> quantities df).
Proof. unfold Series_sum, quantities. by rewrite <- !list_fmap_compose. Qed.





(** The quantities 10, 20 and 30 add exactly: the total is 60. *)
Example total_quantity_whole :
  adds_exactly (quantities three_rows)
  ∧ Series_sum ((λ r, numeric r GrossQuantity) <$> three_rows) = Num (Qc_of_Z 60).
Proof.
  assert (adds_exactly (quantities three_rows)) as Hex.
  { split; [| by vm_compute].
    repeat constructor; apply Qc_is_canon; vm_compute; reflexivity. }
  split; [done |].
  rewrite Series_sum_quantities, (SeriesFacts.ndarray_sum_exact _ Hex).
  f_equal. apply Qc_is_canon. vm_compute. reflexivity.
Qed.

(** The cells 0.1 and 0.025 are the doubles nearest to 1/10 and 1/40. *)
Example tenth_rows_quantities :
  quantities tenth_rows
  = [ Q2Qc (3602879701896397 # 36028797018963968);
      Q2Qc (3602879701896397 # 144115188075855872) ].
Proof.
  change (quantities tenth_rows)
    with [float_of (Q2Qc (1 # 10)); float_of (Q2Qc (1 # 40))].
  assert (∀ a b c d : Qc, a = c → b = d → [a; b] = [c; d]) as Hlist
    by (by intros a b c d -> ->).
  apply Hlist; apply Qc_is_canon; vm_compute; reflexivity.
Qed.

(** Their double precision sum is 0.125, written "0.12"; two quantities
    of 1e308 overflow, and the total is written "inf". *)
Example total_quantity_in_binary :
  answer_with_rules tenth_rows "What is the total quantity?"
  = Ok {[ "text" := "Total GrossQuantity: 0.12" ]}
  ∧ answer_with_rules huge_rows "What is the total quantity?"
    = Ok {[ "text" := "Total GrossQuantity: inf" ]}.
Proof. split; vm_compute; reflexivity. Qed.


(** C5 (as amended): for a dataset with at least one FlowRate and a
    question whose lowercased text contains "highest" and "flow" (or
    "flowrate") but not both "total" and "quantity", the answer reports the
    greatest FlowRate of the dataset with two decimals, together with the
    BayCode and ShipmentCode of the first row, in dataset order, that
    carries it. *)
Theorem highest_flow_rule (df : DataFrame) (query : string) :
  has_flow_rate df →
  highest_flow_question query →
  ¬ total_quantity_question query →
  highest_flow_reported df query.
Proof.
  intros (r & v & Hr & Hv) Hq Hnot.
  destruct (SeriesFacts.Series_idxmax_Ok ((λ r, numeric r FlowRate) <$> df) v)
    as (i & m & Hidx & Hi & Hmax).
  { rewrite <- Hv. by apply (list_elem_of_fmap_2 (λ r, numeric r FlowRate)). }
  rewrite list_lookup_fmap in Hi.
  destruct (df !! i) as [row|] eqn:Hrow; simpl in Hi; [| done].
  injection Hi as Hm.
  exists i, row, m. split_and!; [done | done | | | apply PyFormatFacts.read_f_format_f].
  - intros j r' v' Hj Hv'. apply Hmax. by rewrite list_lookup_fmap, Hj, <- Hv'.
  - unfold answer_with_rules.
    destruct (PyStr.contains "total" _ && PyStr.contains "quantity" _) eqn:Ht.
    { by apply total_quantity_test in Ht. }
    rewrite (proj2 (highest_flow_test query) Hq), Hidx.
    run_result. unfold loc. rewrite Hrow. run_result.
    by rewrite Hm.
Qed.

Lemma not_total_quantity (query : string) :
  PyStr.contains "total" (PyStr.lower query) && PyStr.contains "quantity" (PyStr.lower query)
  = false → ¬ total_quantity_question query.
Proof. intros H Hq. apply total_quantity_test in Hq. congruence. Qed.

Lemma highest_flow_rule_witness :
  highest_flow_reported three_rows "Which bay had the HIGHEST flow rate?".
Proof.
  apply highest_flow_rule.
  - exists (make_row (Some (Qc_of_hundredths 1000)) (Some (Qc_of_hundredths 1250))
              (Some (ns_of_day 0 + 5)) "1" "SC1" "B1"), (Qc_of_hundredths 1250).
    split; [by left | done].
  - apply highest_flow_test. vm_compute. reflexivity.
  - apply not_total_quantity. vm_compute. reflexivity.
Defined.

(** On the two rows that tie at 99.50 the earlier one, SC2 at bay B2, is
    the one named. *)
Example highest_flow_first_of_tie :
  answer_with_rules three_rows "Which bay had the HIGHEST flow rate?"
  = Ok {[ "text" := "Highest FlowRate 99.50 at Bay B2 for Shipment SC2." ]}.
Proof. vm_compute. reflexivity. Qed.

(** C5 as stated, for every question with "highest" and "flow", fails on
    a question that also contains "total" and "quantity": the first rule
    answers it. *)
Lemma highest_flow_claim_counterexample :
  has_flow_rate three_rows ∧
  highest_flow_question "total quantity moved at the highest flow" ∧
  answer_with_rules three_rows "total quantity moved at the highest flow"
    = Ok {[ "text" := "Total GrossQuantity: 60.00" ]} ∧
  ¬ highest_flow_reported three_rows "total quantity moved at the highest flow".
Proof.
  assert (answer_with_rules three_rows "total quantity moved at the highest flow"
          = Ok {[ "text" := "Total GrossQuantity: 60.00" ]}) as Hans
    by (vm_compute; reflexivity).
  split_and!.
  - exists (make_row (Some (Qc_of_hundredths 1000)) (Some (Qc_of_hundredths 1250))
              (Some (ns_of_day 0 + 5)) "1" "SC1" "B1"), (Qc_of_hundredths 1250).
    split; [by left | done].
  - apply highest_flow_test. vm_compute. reflexivity.
  - exact Hans.
  - intros (i & row & m & _ & _ & _ & Htext & _).
    rewrite Hans in Htext.
    apply (f_equal (λ r : Result (gmap string string),
                      match r with Ok d => d !! "text" | Raise _ => None end)) in Htext.
    rewrite !lookup_singleton_eq in Htext. discriminate Htext.
Qed.

(** ** Empty aggregates in the rule engine *)

Lemma highest_flow_raises (df : DataFrame) (query : string) :
  (∀ r v, r ∈ df → numeric r FlowRate ≠ Some v) →
  highest_flow_question query →
  ¬ total_quantity_question query →
  ∃ message, answer_with_rules df query = Raise (PyError message).
Proof.
  intros Hno Hq Hnot.
  destruct (SeriesFacts.Series_idxmax_Raise ((λ r, numeric r FlowRate) <$> df))
    as [message Hraise].
  { intros v Hin. apply list_elem_of_fmap in Hin as (r & Hv & Hr). by apply (Hno r v). }
  exists message. unfold answer_with_rules.
  destruct (PyStr.contains "total" _ && PyStr.contains "quantity" _) eqn:Ht.
  { by apply total_quantity_test in Ht. }
  by rewrite (proj2 (highest_flow_test query) Hq), Hraise.
Qed.

(** C8: the claim asks that a highest-flow question over a dataset without
    any FlowRate degrades to a text result.  The code raises instead, from
    the rule engine and out of [ask]: on a frame whose FlowRate cells are
    all missing, and on a frame without rows. *)
Theorem highest_flow_without_flow_rate_raises (ext : Externals) :
  answer_with_rules no_flow_rows "Which bay had the highest flow?"
    = Raise (PyError "Encountered all NA values")
  ∧ answer_with_rules [] "Which bay had the highest flow?"
    = Raise (PyError "attempt to get argmax of an empty sequence")
  ∧ ask ext (Some no_flow_rows)
      {| question := "Which bay had the highest flow?"; periods := None |}
    = Raise (PyError "Encountered all NA values")
  ∧ ask ext (Some [])
      {| question := "Which bay had the highest flow?"; periods := None |}
    = Raise (PyError "attempt to get argmax of an empty sequence").
Proof. split_and!; vm_compute; reflexivity. Qed.

(** ** Daily aggregate *)



(** The quantities 0.1 and 0.025 of one day sum to 0.125. *)
Example tenth_rows_day :
  Double.format false 3 <$> (daily_aggregate tenth_rows ExitTime GrossQuantity).*2
  = ["0.125"].
Proof. vm_compute. reflexivity. Qed.


(** ** Forecast summary *)








(** The rounding of the division shows in the text: from a mean of 2000
    to a mean of 2001 the percent change is the double nearest to 0.05, a
    little above it, and is written "0.1". *)
Example forecast_summary_in_binary :
  forecast_summary 0 flat_forecast
  = "Forecast suggests a increase of approximately 0.1% over the next period.".
Proof. vm_compute. reflexivity. Qed.

(** ** Forecaster *)

(** The forecaster returns in every case. *)
Lemma forecast_gross_quantity_Ok (ext : Externals) (df : DataFrame) (periods : Z) :
  ∃ result, forecast_gross_quantity ext df periods = Ok result.
Proof.
  unfold forecast_gross_quantity.
  destruct (daily_aggregate df ExitTime GrossQuantity) as [|[d0 s0] rest]; [eauto |].
  destruct (prophet_predict ext _ periods) as [reason | forecast];
    run_result; [eauto |].
  destruct (prophet_plot_error ext _ forecast);
    run_result; [eauto |].
  unfold save_plot_return_url.
  destruct (savefig ext _ _); run_result; eauto.
Qed.

(** C3: [forecast_gross_quantity] always returns a result.  Without a row
    that has both ExitTime and GrossQuantity the text is
    "No data available for forecasting" and there is no image.  Otherwise,
    a single valid day included, the outcome is decided by the fit and the
    rendering: when one of them raises, the text is "Forecasting failed: "
    followed by the message and there is no image; when none does, the
    result carries the summary and the chart reference. *)
Theorem forecaster_never_raises (ext : Externals) (df : DataFrame) (periods : Z) :
  let fc_df := daily_aggregate df ExitTime GrossQuantity in
  ∃ result,
    forecast_gross_quantity ext df periods = Ok result ∧
    ((dropna df ExitTime GrossQuantity = [] ∧
      result = {[ "text" := "No data available for forecasting" ]}) ∨
     (dropna df ExitTime GrossQuantity ≠ [] ∧
      ∃ reason, forecasting_fails ext fc_df periods reason ∧
                result = {[ "text" := "Forecasting failed: " +:+ reason ]}) ∨
     (dropna df ExitTime GrossQuantity ≠ [] ∧
      (∀ reason, ¬ forecasting_fails ext fc_df periods reason) ∧
      ∃ forecast d0 rest url,
        prophet_predict ext fc_df periods = inr forecast ∧
        fc_df.*1 = d0 :: rest.*1 ∧
        result = <[ "imageUrl" := url ]>
                   {[ "text" := forecast_summary (ds_max d0 rest) forecast ]})).
Proof.
  intros fc_df. unfold forecast_gross_quantity. fold fc_df.
  pose proof (AggregateFacts.daily_aggregate_nil df ExitTime GrossQuantity) as Hnil.
  fold fc_df in Hnil.
  destruct fc_df as [|[d0 s0] rest] eqn:Hfc.
  { eexists. split; [done |]. left. split; [by apply Hnil | done]. }
  assert (dropna df ExitTime GrossQuantity ≠ []) as Hvalid.
  { intros H. by apply Hnil in H. }
  unfold forecasting_fails.
  destruct (prophet_predict ext ((d0, s0) :: rest) periods) as [reason | forecast] eqn:Hfit;
    run_result.
  { eexists. split; [done |]. right; left. split; [done |]. exists reason. by split; [left |]. }
  destruct (prophet_plot_error ext ((d0, s0) :: rest) forecast) as [reason |] eqn:Hplot;
    run_result.
  { eexists. split; [done |]. right; left. split; [done |].
    exists reason. split; [| done]. right. exists forecast. split; [done | by left]. }
  unfold save_plot_return_url.
  destruct (savefig ext (ProphetPlot ((d0, s0) :: rest) forecast) _)
    as [reason |] eqn:Hsave; run_result.
  { eexists. split; [done |]. right; left.
    split; [done |]. exists reason. split; [| done]. right. exists forecast.
    split; [done |]. right. by split. }
  eexists. split; [done |]. right; right.
  split; [done |]. split.
  - intros reason [H | (forecast' & H & [H' | [_ H']])]; [congruence | |].
    + injection H as <-. congruence.
    + injection H as <-. congruence.
  - exists forecast, d0, rest. eexists. split_and!; reflexivity.
Qed.

(** One valid day: the forecaster answers whether Prophet takes the
    one-point history or refuses it. *)
Example forecaster_single_day :
  length (daily_aggregate no_flow_rows ExitTime GrossQuantity) = 1%nat
  ∧ forecast_gross_quantity ext_agent_down no_flow_rows 14
    = Ok {[ "text" := "Forecasting failed: Dataframe has less than 2 non-NaN rows." ]}
  ∧ forecast_gross_quantity ext_offline no_flow_rows 14
    = Ok (<[ "imageUrl" := "/static/charts/forecast_gross_quantity_01234567.png" ]>
            {[ "text" :=
                 "Forecast suggests a decrease of approximately -65.0% over the next period." ]})
  ∧ forecast_gross_quantity ext_offline [] 14
    = Ok {[ "text" := "No data available for forecasting" ]}.
Proof. split_and!; vm_compute; reflexivity. Qed.

(** ** Agent fallback *)

Lemma answer_with_rules_text_only (df : DataFrame) (query : string)
    (rules : gmap string string) :
  answer_with_rules df query = Ok rules → ∃ t, rules = {[ "text" := t ]}.
Proof.
  unfold answer_with_rules.
  destruct (_ && _); [intros [= <-]; eauto |].
  destruct (_ && _).
  { destruct (Series_idxmax _) as [idx | e]; [| done]. run_result.
    destruct (loc df idx) as [row | e]; [| done]. run_result.
    intros [= <-]; eauto. }
  destruct (_ && _); intros [= <-]; eauto.
Qed.

Lemma answer_with_rules_no_http (df : DataFrame) (query : string) :
  no_http_error (answer_with_rules df query).
Proof.
  intros status detail. unfold answer_with_rules.
  destruct (_ && _); [done |].
  destruct (_ && _).
  { unfold Series_idxmax. destruct (idxmax_from _ _ _) as [[i m] |]; [| done].
    run_result. unfold loc. by destruct (df !! i). }
  by destruct (_ && _).
Qed.

Lemma dict_text_then_unpack_text_only (failure t : string) :
  dict_text_then_unpack failure {[ "text" := t ]} = {[ "text" := t ]}.
Proof.
  unfold dict_text_then_unpack. apply map_eq. intros k.
  rewrite lookup_union. destruct (decide (k = "text")) as [-> | Hk].
  - by rewrite !lookup_singleton_eq.
  - by rewrite !lookup_singleton_ne.
Qed.

(** When the agent raises, the failure text is written first and then
    overwritten by the "text" of the rule engine's result. *)
Lemma agent_failure_text_dropped (ext : Externals) (df : DataFrame) (query reason : string)
    (rules : gmap string string) :
  OPENAI_API_KEY ext ≠ "" →
  agent_invoke ext df query = inl reason →
  answer_with_rules df query = Ok rules →
  ai_dataframe_answer ext df query = Ok rules.
Proof.
  intros Hkey Hfail Hrules. unfold ai_dataframe_answer.
  rewrite bool_decide_false by done. rewrite Hfail, Hrules.
  run_result.
  destruct (answer_with_rules_text_only _ _ _ Hrules) as [t ->].
  by rewrite dict_text_then_unpack_text_only.
Qed.

(** X17: when an agent key is set and the agent answers, the text is the
    first 4000 characters of the answer, its "output" entry when the
    answer is a dict with one and its [str] otherwise; a shorter answer is
    returned whole. *)
Lemma agent_answer_truncated (ext : Externals) (df : DataFrame) (query : string)
    (reply : AgentReply) :
  OPENAI_API_KEY ext ≠ "" →
  agent_invoke ext df query = inr reply →
  let answer := default (reply_str reply) (reply_output reply) in
  ai_dataframe_answer ext df query = Ok {[ "text" := PyStr.slice_to 4000 answer ]}
  ∧ (String.length (PyStr.slice_to 4000 answer) ≤ 4000)%nat
  ∧ (∃ dropped, answer = PyStr.slice_to 4000 answer +:+ dropped)
  ∧ ((String.length answer ≤ 4000)%nat → PyStr.slice_to 4000 answer = answer).
Proof.
  intros Hkey Hreply answer. split_and!.
  - unfold ai_dataframe_answer. rewrite bool_decide_false by done. rewrite Hreply.
    run_result. subst answer.
    by destruct (reply_output reply).
  - apply PyStrFacts.length_slice_to.
  - apply PyStrFacts.slice_to_prefix.
  - apply PyStrFacts.slice_to_short.
Qed.

(** C7: the claim asks for a text that describes the agent's failure,
    followed by the rule engine's text.  With an agent key set and the
    agent raising "Connection error.", the code returns the rule engine's
    text alone: the failure message is not in the result, neither from
    [ai_dataframe_answer] nor from [ask]. *)
Theorem agent_failure_not_described :
  OPENAI_API_KEY ext_agent_down ≠ ""
  ∧ agent_invoke ext_agent_down three_rows "Which product is the most common?"
    = inl "Connection error."
  ∧ ai_dataframe_answer ext_agent_down three_rows "Which product is the most common?"
    = Ok {[ "text" := "I could not answer with built-in rules. Trying AI analysis..." ]}
  ∧ ask ext_agent_down (Some three_rows)
      {| question := "Which product is the most common?"; periods := None |}
    = Ok {| text := "I could not answer with built-in rules. Trying AI analysis...";
            imageUrl := None |}
  ∧ ¬ PyStr.occurs_in "failed"
        "I could not answer with built-in rules. Trying AI analysis...".
Proof.
  split_and!; [done | done | vm_compute; reflexivity | vm_compute; reflexivity |].
  intros H. apply PyStrFacts.contains_spec in H. vm_compute in H. discriminate H.
Qed.

(** ** Routes *)

Lemma ai_dataframe_answer_no_http (ext : Externals) (df : DataFrame) (query : string) :
  no_http_error (ai_dataframe_answer ext df query).
Proof.
  intros status detail. unfold ai_dataframe_answer.
  case_bool_decide; [apply answer_with_rules_no_http |].
  destruct (agent_invoke ext df query) as [reason | reply];
    run_result.
  - pose proof (answer_with_rules_no_http df query status detail) as Hrules.
    by destruct (answer_with_rules df query).
  - by destruct (reply_output reply).
Qed.

Lemma trend_chart_no_http (ext : Externals) (df : DataFrame)
    (value_col : NumericColumn) (date_col : DatetimeColumn) :
  no_http_error (trend_chart ext df value_col date_col).
Proof.
  intros status detail. unfold trend_chart, save_plot_return_url.
  destruct (daily_aggregate df date_col value_col); [done |].
  by destruct (savefig ext _ _).
Qed.

(** With a dataset loaded, [ask] never raises an [HTTPException]. *)
Lemma ask_loaded_no_http (ext : Externals) (df : DataFrame) (req : AskRequest) :
  no_http_error (ask ext (Some df) req).
Proof.
  intros status detail. unfold ask.
  destruct (String.eqb _ "forecast").
  { destruct (forecast_gross_quantity_Ok ext df (periods_or_14 (periods req)))
      as (result & Hok).
    rewrite Hok. run_result. congruence. }
  destruct (String.eqb _ "trend").
  { pose proof (trend_chart_no_http ext df GrossQuantity ExitTime status detail) as Htrend.
    destruct (trend_chart ext df GrossQuantity ExitTime); run_result; congruence. }
  pose proof (answer_with_rules_no_http df (question req) status detail) as Hrules.
  destruct (answer_with_rules df (question req)) as [result | e];
    run_result; [| congruence].
  destruct (PyStr.startswith _ _); [| run_result; congruence].
  pose proof (ai_dataframe_answer_no_http ext df (question req) status detail) as Hai.
  destruct (ai_dataframe_answer ext df (question req)); run_result; congruence.
Qed.

(** X14: every row of a frame that [parse_csv_to_dataframe] returns has
    its GrossQuantity, its ShipmentID and its ExitTime: the rows lacking
    one of them were dropped. *)
Lemma parse_csv_to_dataframe_invariant (pd : Pandas) (file : string)
    (cols : list string) (df : DataFrame) (r : Row) :
  parse_csv_to_dataframe pd file = Ok (cols, df) → r ∈ df →
  is_Some (numeric r GrossQuantity) ∧ is_Some (other r ShipmentID) ∧
  is_Some (datetime r ExitTime).
Proof.
  unfold parse_csv_to_dataframe.
  destruct (read_csv pd file) as [e | raw]; run_result; [done |].
  destruct (filter _ REQUIRED_COLUMNS); [| done].
  intros [= <- <-] Hr. apply list_elem_of_filter in Hr as [Hkeys _].
  unfold has_key_columns in Hkeys.
  apply andb_true_iff in Hkeys as [Hkeys Ht].
  apply andb_true_iff in Hkeys as [Hq Hs].
  by apply bool_decide_eq_true in Hq, Hs, Ht.
Qed.

Lemma upload_csv_state (pd : Pandas) (st : option DataFrame) (file : string) :
  match upload_csv pd st file with
  | (Ok _, st') => is_Some st'
  | (Raise _, st') => st' = st
  end.
Proof.
  unfold upload_csv.
  destruct (parse_csv_to_dataframe pd file) as [[cols df] | [status detail | e]]; eauto.
Qed.

Lemma serve_cons (pd : Pandas) (st : option DataFrame) (rq : Request) (history : list Request) :
  serve pd st (rq :: history) = serve pd (handle pd st rq).2 history.
Proof. reflexivity. Qed.

Lemma serve_None_iff (pd : Pandas) (history : list Request) (st : option DataFrame) :
  serve pd st history = None ↔ st = None ∧ successful_uploads pd st history = 0%nat.
Proof.
  revert st. induction history as [|rq history IH]; intros st.
  - simpl. split; [by intros -> | by intros [-> _]].
  - rewrite serve_cons, IH. cbn [successful_uploads].
    destruct rq as [file | ext req]; cbn [handle].
    + pose proof (upload_csv_state pd st file) as Hup.
      destruct (upload_csv pd st file) as [[resp | e] st']; cbn [snd].
      * destruct Hup as [df ->]. split; [by intros [? _] | intros [_ ?]; lia].
      * subst st'. split; intros [? ?]; (split; [done | lia]).
    + cbn [snd]. split; intros [? ?]; (split; [done | lia]).
Qed.

(** C9: after any sequence of requests served from the empty store, [ask]
    raises the no-dataset error exactly when no upload of the sequence has
    succeeded.  The error is an [HTTPException] with status 400, a client
    error, raised at once; after one successful upload [ask] raises no
    [HTTPException] at all, for every question and horizon. *)
Theorem ask_no_dataset_iff_no_upload (pd : Pandas) (history : list Request)
    (ext : Externals) (req : AskRequest) :
  (ask ext (serve pd None history) req
     = Raise (HTTPException 400 "No dataset loaded. Upload a CSV first.")
   ↔ successful_uploads pd None history = 0%nat)
  ∧ client_error (HTTPException 400 "No dataset loaded. Upload a CSV first.")
  ∧ (successful_uploads pd None history ≠ 0%nat →
     no_http_error (ask ext (serve pd None history) req))
  ∧ ask ext None req = Raise (HTTPException 400 "No dataset loaded. Upload a CSV first.").
Proof.
  pose proof (serve_None_iff pd history None) as Hnone.
  split_and!; [| simpl; lia | | done].
  - split.
    + intros Hask. apply Hnone.
      destruct (serve pd None history) as [df |]; [| done].
      by apply ask_loaded_no_http in Hask.
    + intros Hzero. by rewrite (proj2 Hnone (conj eq_refl Hzero)).
  - intros Hpos. destruct (serve pd None history) as [df |].
    + apply ask_loaded_no_http.
    + destruct Hpos. by apply Hnone.
Qed.

(** A run: a rejected upload leaves the store empty, an accepted one
    loads it. *)
Example ask_before_and_after_upload :
  ask ext_offline (serve pandas_fixture None [PostUpload "broken.csv"])
      {| question := "What is the total quantity?"; periods := None |}
  = Raise (HTTPException 400 "No dataset loaded. Upload a CSV first.")
  ∧ ask ext_offline
      (serve pandas_fixture None [PostUpload "broken.csv"; PostUpload "shipments.csv"])
      {| question := "What is the total quantity?"; periods := None |}
  = Ok {| text := "Total GrossQuantity: 4.00"; imageUrl := None |}
  ∧ successful_uploads pandas_fixture None
      [PostUpload "broken.csv"; PostUpload "shipments.csv"] = 1%nat.
Proof. split_and!; vm_compute; reflexivity. Qed.

Lemma trend_response (ext : Externals) (df : DataFrame) :
  (result ← trend_chart ext df GrossQuantity ExitTime; Ok (make_response result))
  = gross_quantity_by_exit_time_response ext df.
Proof.
  unfold trend_chart, gross_quantity_by_exit_time_response, save_plot_return_url.
  destruct (daily_aggregate df ExitTime GrossQuantity) as [|r agg]; [done |].
  change ("trend_" +:+ numeric_name GrossQuantity +:+ "_" +:+
          PyStr.slice_to 8 (uuid4_hex ext) +:+ ".png")
    with ("trend_GrossQuantity_" +:+ PyStr.slice_to 8 (uuid4_hex ext) +:+ ".png").
  change ("Daily " +:+ numeric_name GrossQuantity +:+ " trend")
    with "Daily GrossQuantity trend".
  change (numeric_name GrossQuantity) with "GrossQuantity".
  by destruct (savefig ext _ _).
Qed.

(** C10: for a question of trend intent [ask] calls the trend analyzer
    with its defaults.  The figure handed to the chart sink is the line
    plot of the daily sums of GrossQuantity by ExitTime, titled
    "Daily GrossQuantity trend", and the response is the same for every
    question of trend intent and every horizon. *)
Theorem trend_intent_charts_gross_quantity (ext : Externals) (df : DataFrame)
    (req : AskRequest) :
  classify_query_intent (question req) = "trend" →
  ask ext (Some df) req
    = (result ← trend_chart ext df GrossQuantity ExitTime; Ok (make_response result))
  ∧ ask ext (Some df) req = gross_quantity_by_exit_time_response ext df
  ∧ (∀ req', classify_query_intent (question req') = "trend" →
             ask ext (Some df) req' = ask ext (Some df) req).
Proof.
  intros Hintent.
  assert (∀ r, classify_query_intent (question r) = "trend" →
               ask ext (Some df) r
               = (result ← trend_chart ext df GrossQuantity ExitTime;
                  Ok (make_response result))) as Hask.
  { intros r Hr. unfold ask. by rewrite Hr. }
  split_and!.
  - by apply Hask.
  - by rewrite Hask, trend_response.
  - intros req' Hreq'. by rewrite !Hask.
Qed.

Lemma trend_intent_charts_gross_quantity_witness :
  ask ext_offline (Some gap_rows)
      {| question := "plot the FlowRate by day"; periods := Some 30 |}
  = gross_quantity_by_exit_time_response ext_offline gap_rows
  ∧ (daily_aggregate gap_rows ExitTime GrossQuantity).*1 = [0; 1; 2]
  ∧ Double.format false 2 <$> (daily_aggregate gap_rows ExitTime GrossQuantity).*2
    = ["10.00"; "0.00"; "50.00"]
  ∧ Double.format false 2 <$> (daily_aggregate gap_rows ExitTime FlowRate).*2
    = ["7.00"; "9.00"; "8.00"].
Proof.
  split_and!; [| vm_compute; reflexivity ..].
  refine (proj1 (proj2 (trend_intent_charts_gross_quantity ext_offline gap_rows
            {| question := "plot the FlowRate by day"; periods := Some 30 |} _))).
  vm_compute. reflexivity.
Defined.

(** * Further properties *)

(** ** Daily aggregate *)

Lemma exact_sum_fmap_plus {A : Type} (f g : A → Qc) (l : list A) :
  exact_sum ((λ x, f x + g x)%Qc <$> l) = (exact_sum (f <$> l) + exact_sum (g <$> l))%Qc.
Proof.
  induction l as [|x l IH]; [by rewrite Qcplus_0_l |].
  rewrite !fmap_cons, !SeriesFacts.exact_sum_cons, IH. ring.
Qed.

Lemma exact_sum_indicator (x : Z) (v : Qc) (ds : list Z) :
  NoDup ds →
  exact_sum ((λ d, if decide (x = d) then v else Q2Qc 0) <$> ds)
  = if decide (x ∈ ds) then v else Q2Qc 0.
Proof.
  induction 1 as [|d ds Hd _ IH]; [done |].
  rewrite fmap_cons, SeriesFacts.exact_sum_cons, IH.
  destruct (decide (x = d)) as [-> | Hne].
  - rewrite decide_False by done. rewrite decide_True by by left. by rewrite Qcplus_0_r.
  - rewrite Qcplus_0_l. destruct (decide (x ∈ ds)) as [Hin | Hout].
    + by rewrite decide_True by by right.
    + rewrite decide_False; [done |]. by intros [? | ?]%elem_of_cons.
Qed.

Lemma exact_sum_day_values_cons (r : Z * Qc) (rows : list (Z * Qc)) (d : Z) :
  exact_sum (day_values (r :: rows) d)
  = ((if decide (day_of r.1 = d) then r.2 else Q2Qc 0) + exact_sum (day_values rows d))%Qc.
Proof.
  unfold day_values. rewrite filter_cons. case_decide.
  - by rewrite fmap_cons, SeriesFacts.exact_sum_cons.
  - by rewrite Qcplus_0_l.
Qed.

(** The exact sums of the days add up to the exact sum of the rows. *)
Lemma exact_sum_days (rows : list (Z * Qc)) (ds : list Z) :
  NoDup ds → (∀ r, r ∈ rows → day_of r.1 ∈ ds) →
  exact_sum ((λ d, exact_sum (day_values rows d)) <$> ds) = exact_sum rows.*2.
Proof.
  intros Hnd. induction rows as [|r rows IH]; intros Hin.
  - clear. induction ds as [|d ds IH]; [done |].
    by rewrite fmap_cons, SeriesFacts.exact_sum_cons, IH, Qcplus_0_l.
  - rewrite (list_fmap_ext (λ d, exact_sum (day_values (r :: rows) d))
               (λ d, (if decide (day_of r.1 = d) then r.2 else Q2Qc 0)
                     + exact_sum (day_values rows d))%Qc)
      by (intros; apply exact_sum_day_values_cons).
    rewrite (exact_sum_fmap_plus (λ d, if decide (day_of r.1 = d) then r.2 else Q2Qc 0)).
    rewrite exact_sum_indicator by done.
    rewrite decide_True by (apply Hin; by left).
    rewrite IH by (intros r' Hr'; apply Hin; by right).
    by rewrite fmap_cons, SeriesFacts.exact_sum_cons.
Qed.

Lemma exact_sum_abs_nonneg (l : list Qc) : (Q2Qc 0 ≤ exact_sum (Qcabs <$> l))%Qc.
Proof.
  induction l as [|x l IH]; [apply Qcle_refl |].
  rewrite fmap_cons, SeriesFacts.exact_sum_cons.
  rewrite <- (Qcplus_0_l (Q2Qc 0)). apply Qcplus_le_compat; [apply Qcabs_nonneg | done].
Qed.

(** Part of a list of numbers that add exactly adds exactly. *)
Lemma adds_exactly_sublist (l1 l2 : list Qc) :
  l1 `sublist_of` l2 → adds_exactly l2 → adds_exactly l1.
Proof.
  intros Hsub [Hwhole Hb]. split.
  { clear Hb. induction Hsub as [| x l1 l2 _ IH | x l1 l2 _ IH]; [done | |].
    - apply Forall_cons in Hwhole as [? ?]. constructor; auto.
    - apply Forall_cons in Hwhole as [? ?]. auto. }
  eapply Qcle_lt_trans; [| exact Hb]. clear Hwhole Hb.
  induction Hsub as [| x l1 l2 _ IH | x l1 l2 _ IH].
  - apply Qcle_refl.
  - rewrite !fmap_cons, !SeriesFacts.exact_sum_cons. by apply Qcplus_le_compat; [apply Qcle_refl |].
  - rewrite fmap_cons, SeriesFacts.exact_sum_cons.
    rewrite <- (Qcplus_0_l (exact_sum (Qcabs <$> l1))).
    apply Qcplus_le_compat; [apply Qcabs_nonneg | done].
Qed.

Lemma day_values_sublist (rows : list (Z * Qc)) (d : Z) :
  day_values rows d `sublist_of` rows.*2.
Proof. unfold day_values. apply fmap_sublist, sublist_filter. Qed.

(** The aggregate of rows whose values add exactly: every sum is exact. *)
Lemma daily_aggregate_exact (df : DataFrame) (date_col : DatetimeColumn)
    (value_col : NumericColumn) :
  let valid := dropna df date_col value_col in
  adds_exactly valid.*2 →
  daily_aggregate df date_col value_col
  = (λ d, (d, Num (exact_sum (day_values valid d)))) <$>
    (daily_aggregate df date_col value_col).*1.
Proof.
  intros valid Hex. unfold daily_aggregate. fold valid.
  pose proof (AggregateFacts.sort_index_perm valid) as Hp.
  destruct (sort_index valid) as [|r0 l] eqn:Hsort; [done |].
  assert (is_Some (last (r0 :: l))) as [r1 Hlast] by by apply last_is_Some.
  rewrite (AggregateFacts.resample_D_sum_cons _ _ _ Hlast).
  rewrite AggregateFacts.fst_fmap_pair.
  apply list_fmap_ext. intros _ d _. f_equal.
  apply AggregateFacts.day_sum_exact; [done |].
  eapply adds_exactly_sublist; [apply day_values_sublist | done].
Qed.

(** X1: when the values of the valid rows are whole numbers whose
    magnitudes add up to less than 2^53, resampling loses nothing and
    invents nothing: every daily sum is a number, the exact sum of its
    day, and the daily sums add up to the sum of the value column over the
    rows that have both a date and a value. *)
Theorem daily_aggregate_conserves_total (df : DataFrame) (date_col : DatetimeColumn)
    (value_col : NumericColumn) :
  let valid := dropna df date_col value_col in
  adds_exactly valid.*2 →
  ∃ sums : list Qc,
    (daily_aggregate df date_col value_col).*2 = Num <$> sums ∧
    (∀ d s, (d, s) ∈ daily_aggregate df date_col value_col →
            s = Num (exact_sum (day_values valid d))) ∧
    exact_sum sums = exact_sum valid.*2.
Proof.
  intros valid Hex.
  pose proof (daily_aggregate_exact df date_col value_col Hex) as Hagg. fold valid in Hagg.
  set (days := (daily_aggregate df date_col value_col).*1) in *.
  exists ((λ d, exact_sum (day_values valid d)) <$> days). split_and!.
  - rewrite Hagg, <- !list_fmap_compose. by apply list_fmap_ext.
  - intros d s Hin. rewrite Hagg in Hin.
    by apply list_elem_of_fmap in Hin as (d' & [= -> ->] & _).
  - apply exact_sum_days.
    + assert (StronglySorted Z.lt days) as Hsorted
        by apply AggregateFacts.resample_D_sum_days.
      clear -Hsorted. induction Hsorted as [|d l _ IH Hall]; constructor; [| done].
      intros Hin. rewrite Forall_forall in Hall. specialize (Hall d Hin). lia.
    + intros r Hr. apply AggregateFacts.daily_aggregate_days_elem.
      exists (day_of r.1), (day_of r.1).
      split_and!; [by exists r | by exists r | lia | lia].
Qed.

Lemma daily_aggregate_conserves_total_witness :
  ∃ sums : list Qc,
    (daily_aggregate gap_rows ExitTime GrossQuantity).*2 = Num <$> sums ∧
    exact_sum sums = exact_sum (dropna gap_rows ExitTime GrossQuantity).*2.
Proof.
  destruct (daily_aggregate_conserves_total gap_rows ExitTime GrossQuantity)
    as (sums & H1 & _ & H2).
  - split; [| by vm_compute].
    repeat constructor; apply Qc_is_canon; vm_compute; reflexivity.
  - by exists sums.
Defined.

Lemma sorted_perm_ends (r0 r0' r1 r1' : Z * Qc) (l l' : list (Z * Qc)) :
  StronglySorted by_index (r0 :: l) → StronglySorted by_index (r0' :: l') →
  r0 :: l ≡ₚ r0' :: l' →
  last (r0 :: l) = Some r1 → last (r0' :: l') = Some r1' →
  r0.1 = r0'.1 ∧ r1.1 = r1'.1.
Proof.
  intros Hs Hs' Hp Hlast Hlast'.
  assert (r0 ∈ r0' :: l') as H0 by (rewrite <- Hp; by left).
  assert (r0' ∈ r0 :: l) as H0' by (rewrite Hp; by left).
  assert (r1 ∈ r0' :: l') as H1 by (rewrite <- Hp; by apply last_Some_elem_of).
  assert (r1' ∈ r0 :: l) as H1' by (rewrite Hp; by apply last_Some_elem_of).
  pose proof (AggregateFacts.sorted_bounds _ _ _ _ Hs Hlast H0') as [? _].
  pose proof (AggregateFacts.sorted_bounds _ _ _ _ Hs' Hlast' H0) as [? _].
  pose proof (AggregateFacts.sorted_bounds _ _ _ _ Hs Hlast H1') as [_ ?].
  pose proof (AggregateFacts.sorted_bounds _ _ _ _ Hs' Hlast' H1) as [_ ?].
  lia.
Qed.

(** Rows with distinct timestamps have one time order only. *)
Lemma sorted_perm_unique (l l' : list (Z * Qc)) :
  StronglySorted by_index l → StronglySorted by_index l' →
  l ≡ₚ l' → NoDup l.*1 → l = l'.
Proof.
  intros Hs. revert l'. induction Hs as [|r l Hs IH Hall]; intros l' Hs' Hp Hnd.
  { by apply Permutation_nil in Hp. }
  destruct Hs' as [|r' l' Hs' Hall'];
    [symmetry in Hp; by apply Permutation_nil_cons in Hp |].
  assert (r ∈ r' :: l') as Hr by (rewrite <- Hp; by left).
  assert (r' ∈ r :: l) as Hr' by (rewrite Hp; by left).
  rewrite Forall_forall in Hall, Hall'.
  assert (r = r') as <-.
  { apply elem_of_cons in Hr as [? | Hr]; [done |].
    apply elem_of_cons in Hr' as [? | Hr']; [done |].
    pose proof (Hall r' Hr'). pose proof (Hall' r Hr). unfold by_index in *.
    apply NoDup_cons in Hnd as [Hout _]. exfalso. apply Hout.
    replace r.1 with r'.1 by lia. by apply (list_elem_of_fmap_2 fst). }
  f_equal. apply IH; [done | by apply Permutation_cons_inv in Hp |].
  by apply NoDup_cons in Hnd as [_ ?].
Qed.

(** X2: the daily aggregate does not depend on the order of the rows of
    the dataset when the rows with a date and a value have distinct
    timestamps, or when their values are whole numbers whose magnitudes
    add up to less than 2^53: two such frames with the same rows in
    different orders have the same aggregate. *)
Theorem daily_aggregate_order_independent (df df' : DataFrame)
    (date_col : DatetimeColumn) (value_col : NumericColumn) :
  df ≡ₚ df' →
  NoDup (dropna df date_col value_col).*1 ∨ adds_exactly (dropna df date_col value_col).*2 →
  daily_aggregate df date_col value_col = daily_aggregate df' date_col value_col.
Proof.
  intros Hdf Hcase.
  assert (dropna df date_col value_col ≡ₚ dropna df' date_col value_col) as Hvalid
    by (unfold dropna; by rewrite Hdf).
  destruct Hcase as [Hnd | Hex].
  - unfold daily_aggregate. f_equal.
    apply sorted_perm_unique; [apply AggregateFacts.sort_index_sorted .. | |].
    + by rewrite !AggregateFacts.sort_index_perm.
    + by rewrite AggregateFacts.sort_index_perm.
  - assert (adds_exactly (dropna df' date_col value_col).*2) as Hex'.
    { eapply AggregateFacts.adds_exactly_perm; [| exact Hex]. by rewrite Hvalid. }
    assert ((daily_aggregate df date_col value_col).*1
            = (daily_aggregate df' date_col value_col).*1) as Hdays.
    { unfold daily_aggregate.
      assert (sort_index (dropna df date_col value_col)
              ≡ₚ sort_index (dropna df' date_col value_col)) as Hp
        by by rewrite !AggregateFacts.sort_index_perm.
      pose proof (AggregateFacts.sort_index_sorted (dropna df date_col value_col)) as Hs.
      pose proof (AggregateFacts.sort_index_sorted (dropna df' date_col value_col)) as Hs'.
      destruct (sort_index (dropna df date_col value_col)) as [|r0 l],
               (sort_index (dropna df' date_col value_col)) as [|r0' l'].
      - done.
      - by apply Permutation_nil_cons in Hp.
      - symmetry in Hp. by apply Permutation_nil_cons in Hp.
      - assert (is_Some (last (r0 :: l))) as [r1 Hlast] by by apply last_is_Some.
        assert (is_Some (last (r0' :: l'))) as [r1' Hlast'] by by apply last_is_Some.
        rewrite (AggregateFacts.resample_D_sum_cons _ _ _ Hlast).
        rewrite (AggregateFacts.resample_D_sum_cons _ _ _ Hlast').
        rewrite !AggregateFacts.fst_fmap_pair.
        by destruct (sorted_perm_ends _ _ _ _ _ _ Hs Hs' Hp Hlast Hlast') as [-> ->]. }
    rewrite (daily_aggregate_exact df date_col value_col Hex).
    rewrite (daily_aggregate_exact df' date_col value_col Hex').
    rewrite Hdays. apply list_fmap_ext. intros _ d _. do 2 f_equal.
    apply SeriesFacts.exact_sum_perm. by apply AggregateFacts.day_values_perm.
Qed.

Lemma daily_aggregate_order_independent_witness :
  daily_aggregate (reverse gap_rows) ExitTime GrossQuantity
  = daily_aggregate gap_rows ExitTime GrossQuantity.
Proof.
  apply daily_aggregate_order_independent; [apply reverse_Permutation |].
  left. assert ((dropna (reverse gap_rows) ExitTime GrossQuantity).*1
                = [ns_of_day 2; ns_of_day 0 + 5; ns_of_day 2 + 7]) as ->
    by (vm_compute; reflexivity).
  apply (bool_decide_unpack _). by vm_compute.
Defined.

(** Among rows that share a timestamp the order of the dataset decides,
    and the sum of a day can depend on it: 1e16, 1 and -1e16 sum to 0.0,
    and 1e16, -1e16 and 1 to 1.0. *)
Example daily_aggregate_tied_rows :
  tied_rows ≡ₚ tied_rows_reordered
  ∧ Double.format false 1 <$> (daily_aggregate tied_rows ExitTime GrossQuantity).*2
    = ["0.0"]
  ∧ Double.format false 1 <$> (daily_aggregate tied_rows_reordered ExitTime GrossQuantity).*2
    = ["1.0"].
Proof.
  split_and!; [| vm_compute; reflexivity ..].
  unfold tied_rows, tied_rows_reordered. apply perm_skip, perm_swap.
Qed.

(** ** Chart sink and trend chart *)

Lemma length_slice_to_min (n : nat) (s : string) :
  String.length (PyStr.slice_to n s) = (n `min` String.length s)%nat.
Proof.
  revert s. induction n as [|n IH]; intros [|c s]; simpl; try done.
  by rewrite IH.
Qed.

(** X3: the reference returned by [save_plot_return_url] names the file
    that was saved: "/static/charts/" followed by the file name, which is
    the prefix, an underscore, the first eight hex digits of the UUID and
    ".png".  When the sink raises, the exception goes to the caller and no
    reference is returned. *)
Theorem save_plot_return_url_names_saved_file (ext : Externals) (fig : Figure)
    (filename_prefix : string) :
  ∃ id rest,
    uuid4_hex ext = id +:+ rest ∧
    String.length id = (8 `min` String.length (uuid4_hex ext))%nat ∧
    let file_id := filename_prefix +:+ "_" +:+ id +:+ ".png" in
    match save_plot_return_url ext fig filename_prefix with
    | Ok url => savefig ext fig file_id = None ∧ url = "/static/charts/" +:+ file_id
    | Raise e => ∃ message, savefig ext fig file_id = Some message ∧ e = PyError message
    end.
Proof.
  destruct (PyStrFacts.slice_to_prefix 8 (uuid4_hex ext)) as [rest Hrest].
  exists (PyStr.slice_to 8 (uuid4_hex ext)), rest.
  split_and!; [done | apply length_slice_to_min |].
  cbv zeta. unfold save_plot_return_url.
  destruct (savefig ext fig _) as [message |]; eauto.
Qed.

(** The three outcomes of the trend chart. *)
Lemma trend_chart_outcome (ext : Externals) (df : DataFrame)
    (value_col : NumericColumn) (date_col : DatetimeColumn) :
  let agg := daily_aggregate df date_col value_col in
  (dropna df date_col value_col = [] ∧
   trend_chart ext df value_col date_col = Ok {[ "text" := "No data to plot" ]}) ∨
  (dropna df date_col value_col ≠ [] ∧
   ∃ message,
     savefig ext (trend_figure value_col agg) (trend_file_id ext value_col) = Some message ∧
     trend_chart ext df value_col date_col = Raise (PyError message)) ∨
  (dropna df date_col value_col ≠ [] ∧
   savefig ext (trend_figure value_col agg) (trend_file_id ext value_col) = None ∧
   trend_chart ext df value_col date_col
   = Ok (<[ "imageUrl" := "/static/charts/" +:+ trend_file_id ext value_col ]>
           {[ "text" := "Trend of " +:+ numeric_name value_col +:+ " over time." ]})).
Proof.
  cbv zeta. unfold trend_chart.
  pose proof (AggregateFacts.daily_aggregate_nil df date_col value_col) as Hnil.
  destruct (daily_aggregate df date_col value_col) as [|r rest].
  { left. split; [by apply Hnil | done]. }
  assert (dropna df date_col value_col ≠ []) as Hvalid by (intros H; by apply Hnil in H).
  unfold save_plot_return_url.
  change (LinePlot _ _ _ (r :: rest)) with (trend_figure value_col (r :: rest)).
  change ("trend_" +:+ numeric_name value_col +:+ "_" +:+
          PyStr.slice_to 8 (uuid4_hex ext) +:+ ".png")
    with (trend_file_id ext value_col).
  destruct (savefig ext _ _) as [message |]; run_result.
  - right; left. split; [done |]. by exists message.
  - right; right. by split.
Qed.

(** X4: [trend_chart], for any value and date column, answers
    "No data to plot" without an image exactly when no row has both the
    date and the value.  Otherwise it hands the line plot of the daily
    aggregate to the chart sink and returns the description with the chart
    reference; an exception of the sink is not caught and reaches the
    caller. *)
Theorem trend_chart_outcomes (ext : Externals) (df : DataFrame)
    (value_col : NumericColumn) (date_col : DatetimeColumn) :
  let agg := daily_aggregate df date_col value_col in
  (trend_chart ext df value_col date_col = Ok {[ "text" := "No data to plot" ]}
   ↔ dropna df date_col value_col = [])
  ∧ (dropna df date_col value_col ≠ [] →
     match savefig ext (trend_figure value_col agg) (trend_file_id ext value_col) with
     | Some message => trend_chart ext df value_col date_col = Raise (PyError message)
     | None =>
         trend_chart ext df value_col date_col
         = Ok (<[ "imageUrl" := "/static/charts/" +:+ trend_file_id ext value_col ]>
                 {[ "text" := "Trend of " +:+ numeric_name value_col +:+ " over time." ]})
     end).
Proof.
  intros agg.
  destruct (trend_chart_outcome ext df value_col date_col)
    as [[Hnil Hres] | [(Hvalid & message & Hsave & Hres) | (Hvalid & Hsave & Hres)]];
    fold agg in Hsave || idtac.
  - split; [by split | done].
  - split; [| intros _; by rewrite Hsave].
    rewrite Hres. split; [done | by intros ?].
  - split; [| intros _; by rewrite Hsave].
    rewrite Hres. split; [| by intros ?].
    intros Heq. exfalso.
    apply (f_equal (λ r : Result (gmap string string),
                      match r with Ok d => d !! "imageUrl" | Raise _ => None end)) in Heq.
    by rewrite lookup_insert_eq, lookup_singleton_ne in Heq.
Qed.

(** ** Rule engine: the remaining rules *)

Lemma count_test (query : string) :
  PyStr.contains "count" (PyStr.lower query) &&
  (PyStr.contains "shipments" (PyStr.lower query) || PyStr.contains "shipment" (PyStr.lower query))
  = true ↔ count_question query.
Proof.
  unfold count_question.
  by rewrite andb_true_iff, orb_true_iff, !PyStrFacts.contains_spec.
Qed.

(** Which rule answers: the first pattern that the question matches. *)
Lemma answer_with_rules_cases (df : DataFrame) (query : string) :
  (total_quantity_question query ∧
   answer_with_rules df query
   = Ok {[ "text" := "Total GrossQuantity: " +:+
                     Double.format true 2
                       (Series_sum ((λ r, numeric r GrossQuantity) <$> df)) ]}) ∨
  (¬ total_quantity_question query ∧ highest_flow_question query ∧
   answer_with_rules df query
   = (idx ← Series_idxmax ((λ r, numeric r FlowRate) <$> df);
      row ← loc df idx;
      Ok {[ "text" :=
              "Highest FlowRate " +:+ PyFormat.format_float false 2 (numeric row FlowRate) +:+
              " at Bay " +:+ str_of_cell (other row BayCode) +:+
              " for Shipment " +:+ str_of_cell (other row ShipmentCode) +:+ "." ]})) ∨
  (¬ total_quantity_question query ∧ ¬ highest_flow_question query ∧
   count_question query ∧
   answer_with_rules df query
   = Ok {[ "text" := "Unique shipments: " +:+
                     PyFormat.str_of_nonneg
                       (Z.of_nat (Series_nunique ((λ r, other r ShipmentID) <$> df))) ]}) ∨
  (¬ total_quantity_question query ∧ ¬ highest_flow_question query ∧
   ¬ count_question query ∧
   answer_with_rules df query = Ok {[ "text" := unanswered ]}).
Proof.
  unfold answer_with_rules.
  destruct (PyStr.contains "total" _ && _) eqn:Ht.
  { left. split; [by apply total_quantity_test | done]. }
  assert (¬ total_quantity_question query) as Hnt.
  { intros H. apply total_quantity_test in H. congruence. }
  destruct (PyStr.contains "highest" _ && _) eqn:Hh.
  { right; left. split_and!; [done | by apply highest_flow_test | done]. }
  assert (¬ highest_flow_question query) as Hnh.
  { intros H. apply highest_flow_test in H. congruence. }
  destruct (PyStr.contains "count" _ && _) eqn:Hc.
  { right; right; left. split_and!; [done | done | by apply count_test | done]. }
  right; right; right. split_and!; [done | done | | done].
  intros H. apply count_test in H. congruence.
Qed.

Lemma length_omap_le {A B : Type} (f : A → option B) (l : list A) :
  (length (omap f l) ≤ length l)%nat.
Proof. induction l as [|x l IH]; csimpl; [done |]. destruct (f x); csimpl; lia. Qed.

Lemma length_remove_dups_le {A : Type} `{EqDecision A} (l : list A) :
  (length (remove_dups l) ≤ length l)%nat.
Proof.
  induction l as [|x l IH]; simpl; [done |]. case_decide; simpl; lia.
Qed.

(** X5: a question with "count" and "shipment" that the two earlier rules
    do not take is answered with the number of distinct ShipmentID values,
    missing cells aside; the number is written as a plain decimal and is at
    most the number of rows (0 for a frame without rows). *)
Theorem count_shipments_rule (df : DataFrame) (query : string) :
  count_question query →
  ¬ total_quantity_question query →
  ¬ highest_flow_question query →
  ∃ ids : list string,
    NoDup ids ∧
    (∀ id, id ∈ ids ↔ ∃ r, r ∈ df ∧ other r ShipmentID = Some id) ∧
    (length ids ≤ length df)%nat ∧
    answer_with_rules df query
    = Ok {[ "text" := "Unique shipments: " +:+
                      PyFormat.str_of_nonneg (Z.of_nat (length ids)) ]} ∧
    PyFormat.read_digits_rev
      (rev (list_ascii_of_string (PyFormat.str_of_nonneg (Z.of_nat (length ids)))))
    = Some (Z.of_nat (length ids)).
Proof.
  intros Hc Hnt Hnh.
  exists (remove_dups (omap id ((λ r, other r ShipmentID) <$> df))).
  split_and!.
  - apply NoDup_remove_dups.
  - intros sid. rewrite elem_of_remove_dups, list_elem_of_omap. split.
    + intros (o & Ho & Hid). apply list_elem_of_fmap in Ho as (r & -> & Hr).
      exists r. by split.
    + intros (r & Hr & Hid). exists (Some sid). split; [| done].
      rewrite <- Hid. by apply (list_elem_of_fmap_2 (λ r, other r ShipmentID)).
  - etrans; [apply length_remove_dups_le |]. etrans; [apply length_omap_le |].
    by rewrite length_fmap.
  - destruct (answer_with_rules_cases df query)
      as [[? _] | [(_ & ? & _) | [(_ & _ & _ & Hres) | (_ & _ & ? & _)]]]; done.
  - unfold PyFormat.str_of_nonneg.
    rewrite list_ascii_of_string_of_list_ascii, rev_involutive.
    apply PyFormatFacts.read_digits_rev_of. lia.
Qed.

Lemma count_shipments_rule_witness :
  answer_with_rules three_rows "Count the shipments" = Ok {[ "text" := "Unique shipments: 2" ]}
  ∧ answer_with_rules [] "Count the shipments" = Ok {[ "text" := "Unique shipments: 0" ]}.
Proof.
  assert (count_question "Count the shipments") as Hc
    by (apply count_test; vm_compute; reflexivity).
  assert (¬ total_quantity_question "Count the shipments") as Hnt
    by (apply not_total_quantity; vm_compute; reflexivity).
  assert (¬ highest_flow_question "Count the shipments") as Hnh.
  { intros H. apply highest_flow_test in H. vm_compute in H. discriminate H. }
  destruct (count_shipments_rule three_rows "Count the shipments" Hc Hnt Hnh)
    as (ids & _ & _ & _ & H3 & _).
  destruct (count_shipments_rule [] "Count the shipments" Hc Hnt Hnh)
    as (ids0 & _ & _ & _ & H0 & _).
  split; vm_compute; reflexivity.
Defined.

(** An answer of one of the three rules is not the sentinel. *)
Lemma answered_not_sentinel (df : DataFrame) (query : string)
    (result : gmap string string) :
  answer_with_rules df query = Ok result →
  total_quantity_question query ∨ highest_flow_question query ∨ count_question query →
  PyStr.startswith "I could not answer" (default "" (result !! "text")) = false.
Proof.
  intros Hres Hrule.
  destruct (answer_with_rules_cases df query)
    as [[Ht H] | [(Hnt & Hh & H) | [(Hnt & Hnh & Hc & H) | (Hnt & Hnh & Hnc & H)]]];
    rewrite H in Hres.
  - injection Hres as <-. by rewrite lookup_singleton_eq.
  - destruct (Series_idxmax _) as [idx | e]; [| done]. revert Hres. run_result.
    destruct (loc df idx) as [row | e]; [| done]. run_result.
    intros [= <-]. by rewrite lookup_singleton_eq.
  - injection Hres as <-. by rewrite lookup_singleton_eq.
  - by destruct Hrule as [? | [? | ?]].
Qed.

(** X6: the orchestrator's fallback test and the rules agree: the text
    of a rule engine answer starts with "I could not answer" exactly when
    the question matches none of the three patterns, so the agent is
    consulted for those questions and for no other. *)
Theorem unanswered_iff_no_rule (df : DataFrame) (query : string)
    (result : gmap string string) :
  answer_with_rules df query = Ok result →
  (PyStr.startswith "I could not answer" (default "" (result !! "text")) = true
   ↔ ¬ total_quantity_question query ∧ ¬ highest_flow_question query ∧
     ¬ count_question query).
Proof.
  intros Hres. split.
  - intros Hstart.
    assert (¬ (total_quantity_question query ∨ highest_flow_question query ∨
               count_question query)) as Hnone.
    { intros Hrule. pose proof (answered_not_sentinel df query result Hres Hrule).
      congruence. }
    split_and!; intros ?; apply Hnone; auto.
  - intros (Hnt & Hnh & Hnc).
    destruct (answer_with_rules_cases df query)
      as [[? _] | [(_ & ? & _) | [(_ & _ & ? & _) | (_ & _ & _ & H)]]]; try done.
    rewrite H in Hres. injection Hres as <-. by rewrite lookup_singleton_eq.
Qed.

Lemma unanswered_iff_no_rule_witness :
  ¬ total_quantity_question "Which product is the most common?" ∧
  ¬ highest_flow_question "Which product is the most common?" ∧
  ¬ count_question "Which product is the most common?".
Proof.
  apply (unanswered_iff_no_rule three_rows "Which product is the most common?"
           {[ "text" := unanswered ]}); vm_compute; reflexivity.
Defined.

(** ** Failures of the rule engine and of [ask] *)

Lemma answer_with_rules_Raise (df : DataFrame) (query : string) (e : Exception) :
  answer_with_rules df query = Raise e →
  highest_flow_question query ∧ ¬ total_quantity_question query ∧
  (∀ r v, r ∈ df → numeric r FlowRate ≠ Some v) ∧ ∃ message, e = PyError message.
Proof.
  intros Hraise.
  destruct (answer_with_rules_cases df query)
    as [[_ H] | [(Hnt & Hh & H) | [(_ & _ & _ & H) | (_ & _ & _ & H)]]];
    rewrite H in Hraise; try done.
  split_and!; [done | done | |].
  - pose proof (SeriesFacts.idxmax_best_of ((λ r, numeric r FlowRate) <$> df)) as Hbest.
    unfold Series_idxmax in Hraise.
    destruct (idxmax_from 0 None _) as [[i m] |]; simpl in Hbest.
    + exfalso. destruct Hbest as [Hi _]. rewrite list_lookup_fmap in Hi.
      revert Hraise. run_result. unfold loc.
      by destruct (df !! i).
    + intros r v Hr Hv. apply list_elem_of_lookup in Hr as [j Hj].
      apply (Hbest j v). by rewrite list_lookup_fmap, Hj, <- Hv.
  - pose proof (answer_with_rules_no_http df query) as Hno.
    destruct e as [status detail | message]; [| by eauto].
    exfalso. apply (Hno status detail). by rewrite H.
Qed.

(** X7: the rule engine raises in one situation only: the question is
    taken by the highest-flow rule and no row of the dataset has a
    FlowRate.  Every other question, on every dataset, gets a text. *)
Theorem rule_engine_raises_iff (df : DataFrame) (query : string) :
  (∃ e, answer_with_rules df query = Raise e) ↔
  highest_flow_question query ∧ ¬ total_quantity_question query ∧
  ∀ r v, r ∈ df → numeric r FlowRate ≠ Some v.
Proof.
  split.
  - intros [e He]. by apply answer_with_rules_Raise in He as (? & ? & ? & _).
  - intros (Hh & Hnt & Hno).
    destruct (highest_flow_raises df query Hno Hh Hnt) as [message H]. eauto.
Qed.

Lemma ai_dataframe_answer_Ok (ext : Externals) (df : DataFrame) (query : string)
    (rules : gmap string string) :
  answer_with_rules df query = Ok rules →
  ∃ result, ai_dataframe_answer ext df query = Ok result.
Proof.
  intros Hrules. unfold ai_dataframe_answer. rewrite Hrules.
  case_bool_decide; [eauto |].
  destruct (agent_invoke ext df query) as [reason | reply]; run_result; [eauto |].
  destruct (reply_output reply); eauto.
Qed.

Lemma classify_query_intent_values (query : string) :
  classify_query_intent query = "forecast" ∨
  classify_query_intent query = "trend" ∨
  classify_query_intent query = "analysis".
Proof.
  unfold classify_query_intent.
  destruct (PyStr.any_in forecast_keywords _); [by left |].
  destruct (PyStr.any_in trend_keywords _); auto.
Qed.

Lemma ask_forecast (ext : Externals) (df : DataFrame) (req : AskRequest) :
  classify_query_intent (question req) = "forecast" →
  ask ext (Some df) req
  = (result ← forecast_gross_quantity ext df (periods_or_14 (periods req));
     Ok (make_response result)).
Proof. intros H. unfold ask. by rewrite H. Qed.

Lemma ask_trend (ext : Externals) (df : DataFrame) (req : AskRequest) :
  classify_query_intent (question req) = "trend" →
  ask ext (Some df) req
  = (result ← trend_chart ext df GrossQuantity ExitTime; Ok (make_response result)).
Proof. intros H. unfold ask. by rewrite H. Qed.

Lemma ask_analysis (ext : Externals) (df : DataFrame) (req : AskRequest) :
  classify_query_intent (question req) = "analysis" →
  ask ext (Some df) req
  = (result ← answer_with_rules df (question req);
     result ← (if PyStr.startswith "I could not answer" (default "" (result !! "text"))
               then ai_dataframe_answer ext df (question req)
               else Ok result);
     Ok (make_response result)).
Proof. intros H. unfold ask. by rewrite H. Qed.

(** X8: with a dataset loaded, [ask] fails in two situations only: the
    question has trend intent, there is something to plot and the chart
    sink raises; or the question has analysis intent, is taken by the
    highest-flow rule, and no row has a FlowRate.  The exception is never
    an [HTTPException]; a forecast question never fails. *)
Theorem ask_raises_only (ext : Externals) (df : DataFrame) (req : AskRequest)
    (e : Exception) :
  ask ext (Some df) req = Raise e →
  (classify_query_intent (question req) = "trend" ∧
   dropna df ExitTime GrossQuantity ≠ [] ∧
   ∃ message,
     e = PyError message ∧
     savefig ext (trend_figure GrossQuantity (daily_aggregate df ExitTime GrossQuantity))
       (trend_file_id ext GrossQuantity) = Some message) ∨
  (classify_query_intent (question req) = "analysis" ∧
   highest_flow_question (question req) ∧
   ¬ total_quantity_question (question req) ∧
   (∀ r v, r ∈ df → numeric r FlowRate ≠ Some v) ∧
   ∃ message, e = PyError message).
Proof.
  intros Hraise.
  destruct (classify_query_intent_values (question req)) as [Hi | [Hi | Hi]].
  - exfalso. rewrite (ask_forecast _ _ _ Hi) in Hraise.
    destruct (forecast_gross_quantity_Ok ext df (periods_or_14 (periods req)))
      as [result Hok].
    by rewrite Hok in Hraise.
  - left. rewrite (ask_trend _ _ _ Hi) in Hraise. split; [done |].
    destruct (trend_chart_outcome ext df GrossQuantity ExitTime)
      as [[_ H] | [(Hvalid & message & Hsave & H) | (_ & _ & H)]];
      rewrite H in Hraise; try done.
    split; [done |]. exists message. split; [| done].
    revert Hraise. run_result. congruence.
  - right. rewrite (ask_analysis _ _ _ Hi) in Hraise. split; [done |].
    destruct (answer_with_rules df (question req)) as [rules | e'] eqn:Hrules.
    + exfalso. revert Hraise. run_result.
      destruct (PyStr.startswith _ _); [| done].
      destruct (ai_dataframe_answer_Ok ext df (question req) rules Hrules) as [r Hr].
      by rewrite Hr.
    + revert Hraise. run_result. intros [= <-].
      by apply answer_with_rules_Raise in Hrules.
Qed.

Lemma ask_raises_only_witness :
  classify_query_intent "Which bay had the highest flow?" = "analysis" ∧
  ask ext_offline (Some no_flow_rows)
      {| question := "Which bay had the highest flow?"; periods := None |}
  = Raise (PyError "Encountered all NA values") ∧
  classify_query_intent "Show me the trend" = "trend" ∧
  ask ext_sink_down (Some three_rows)
      {| question := "Show me the trend"; periods := None |}
  = Raise (PyError "[Errno 28] No space left on device").
Proof.
  assert (ask ext_offline (Some no_flow_rows)
            {| question := "Which bay had the highest flow?"; periods := None |}
          = Raise (PyError "Encountered all NA values")) as H1
    by (vm_compute; reflexivity).
  assert (ask ext_sink_down (Some three_rows)
            {| question := "Show me the trend"; periods := None |}
          = Raise (PyError "[Errno 28] No space left on device")) as H2
    by (vm_compute; reflexivity).
  destruct (ask_raises_only _ _ _ _ H1) as [(Hi & _) | (Hi & _)];
    [vm_compute in Hi; discriminate Hi |].
  destruct (ask_raises_only _ _ _ _ H2) as [(Hi' & _) | (Hi' & _)];
    [| vm_compute in Hi'; discriminate Hi'].
  split_and!; [exact Hi | exact H1 | exact Hi' | exact H2].
Defined.

(** X9: for a question of forecast intent [ask] always returns a
    response, and it forecasts 14 days when the request gives no horizon
    or the horizon 0; any other horizon, negative ones included, is passed
    to the forecaster as it is. *)
Theorem ask_forecast_horizon (ext : Externals) (df : DataFrame) (query : string) :
  classify_query_intent query = "forecast" →
  (∃ result,
     forecast_gross_quantity ext df 14 = Ok result ∧
     ask ext (Some df) {| question := query; periods := None |} = Ok (make_response result) ∧
     ask ext (Some df) {| question := query; periods := Some 0 |} = Ok (make_response result))
  ∧ (∀ n, n ≠ 0 →
       ∃ result,
         forecast_gross_quantity ext df n = Ok result ∧
         ask ext (Some df) {| question := query; periods := Some n |}
         = Ok (make_response result)).
Proof.
  intros Hi. split.
  - destruct (forecast_gross_quantity_Ok ext df 14) as [result Hok].
    exists result. split_and!; [done | |]; rewrite ask_forecast by done; simpl; by rewrite Hok.
  - intros n Hn. destruct (forecast_gross_quantity_Ok ext df n) as [result Hok].
    exists result. split; [done |]. rewrite ask_forecast by done. simpl.
    rewrite (proj2 (Z.eqb_neq n 0) Hn). by rewrite Hok.
Qed.

Lemma ask_forecast_horizon_witness :
  ask ext_offline (Some three_rows) {| question := "Forecast next week"; periods := None |}
  = ask ext_offline (Some three_rows) {| question := "Forecast next week"; periods := Some 0 |}.
Proof.
  destruct (ask_forecast_horizon ext_offline three_rows "Forecast next week")
    as [(result & _ & H1 & H2) _].
  - vm_compute. reflexivity.
  - by rewrite H1, H2.
Defined.

(** X10: for a question of analysis intent that one of the three rules
    answers, or when no agent key is configured, [ask] returns exactly the
    rule engine's result: the agent is not consulted. *)
Theorem ask_analysis_by_rules (ext : Externals) (df : DataFrame) (req : AskRequest) :
  classify_query_intent (question req) = "analysis" →
  total_quantity_question (question req) ∨ highest_flow_question (question req) ∨
  count_question (question req) ∨ OPENAI_API_KEY ext = "" →
  ask ext (Some df) req
  = (result ← answer_with_rules df (question req); Ok (make_response result)).
Proof.
  intros Hi Hcase. rewrite ask_analysis by done.
  destruct (answer_with_rules df (question req)) as [rules | e] eqn:Hrules; [| done].
  run_result.
  destruct (PyStr.startswith _ _) eqn:Hstart; [| done].
  assert (OPENAI_API_KEY ext = "") as Hkey.
  { destruct Hcase as [? | [? | [? | ?]]]; [| | | done];
      rewrite (answered_not_sentinel df (question req) rules Hrules) in Hstart;
      auto; discriminate. }
  unfold ai_dataframe_answer. rewrite bool_decide_true by done. by rewrite Hrules.
Qed.

Lemma ask_analysis_by_rules_witness :
  ask ext_agent_down (Some three_rows)
      {| question := "How many shipments? Count them"; periods := None |}
  = Ok {| text := "Unique shipments: 2"; imageUrl := None |}.
Proof.
  rewrite ask_analysis_by_rules.
  - vm_compute. reflexivity.
  - vm_compute. reflexivity.
  - right; right; left. apply count_test. vm_compute. reflexivity.
Defined.

(** ** Case of the question *)

Lemma append_assoc (s1 s2 s3 : string) : (s1 +:+ s2) +:+ s3 = s1 +:+ s2 +:+ s3.
Proof. induction s1 as [|c s1 IH]; [done | exact (f_equal (String c) IH)]. Qed.

Lemma lower_app (s1 s2 : string) :
  PyStr.lower (s1 +:+ s2) = PyStr.lower s1 +:+ PyStr.lower s2.
Proof.
  induction s1 as [|c s1 IH]; [done |].
  exact (f_equal (String (PyStr.lower_char c)) IH).
Qed.

(** A word written in any capitalization occurs in the lowercased
    question in lower case. *)
Lemma occurs_in_lower (word pre post : string) :
  PyStr.occurs_in (PyStr.lower word) (PyStr.lower (pre +:+ word +:+ post)).
Proof. exists (PyStr.lower pre), (PyStr.lower post). by rewrite !lower_app. Qed.

Lemma classify_forecast (query k : string) :
  In k forecast_keywords → PyStr.occurs_in k (PyStr.lower query) →
  classify_query_intent query = "forecast".
Proof.
  intros Hk Hocc. unfold classify_query_intent.
  by rewrite (proj2 (PyStrFacts.any_in_spec forecast_keywords _) (ex_intro _ k (conj Hk Hocc))).
Qed.

(** X11: keywords are recognised in any capitalization.  A question
    that contains a word whose lower case is a forecast keyword has
    forecast intent, wherever the word stands; a question that contains
    words whose lower case is "total" and "quantity", in either order, is
    answered by the first rule, with the answer it gives to
    "total quantity". *)
Theorem question_case_insensitive (df : DataFrame) :
  (∀ word pre post,
     In (PyStr.lower word) forecast_keywords →
     classify_query_intent (pre +:+ word +:+ post) = "forecast")
  ∧ (∀ total quantity pre mid post,
       PyStr.lower total = "total" → PyStr.lower quantity = "quantity" →
       total_quantity_question (pre +:+ total +:+ mid +:+ quantity +:+ post)
       ∧ total_quantity_question (pre +:+ quantity +:+ mid +:+ total +:+ post)
       ∧ answer_with_rules df (pre +:+ total +:+ mid +:+ quantity +:+ post)
         = answer_with_rules df "total quantity")
  ∧ classify_query_intent "What is the FORECAST?" = "forecast"
  ∧ classify_query_intent "PrEdIcT demand" = "forecast"
  ∧ PyStr.lower "The TOTAL Quantity?" = "the total quantity?".
Proof.
  split_and!; [| | vm_compute; reflexivity ..].
  - intros word pre post Hk.
    eapply classify_forecast; [exact Hk | apply occurs_in_lower].
  - intros total quantity pre mid post Ht Hq.
    assert (total_quantity_question (pre +:+ total +:+ mid +:+ quantity +:+ post)) as H1.
    { split.
      - rewrite <- Ht. apply occurs_in_lower.
      - rewrite <- Hq.
        replace (pre +:+ total +:+ mid +:+ quantity +:+ post)
          with ((pre +:+ total +:+ mid) +:+ quantity +:+ post)
          by (by rewrite !append_assoc).
        apply occurs_in_lower. }
    split_and!; [exact H1 | |].
    + split.
      * rewrite <- Ht.
        replace (pre +:+ quantity +:+ mid +:+ total +:+ post)
          with ((pre +:+ quantity +:+ mid) +:+ total +:+ post)
          by (by rewrite !append_assoc).
        apply occurs_in_lower.
      * rewrite <- Hq. apply occurs_in_lower.
    + unfold answer_with_rules.
      rewrite (proj2 (total_quantity_test _) H1).
      by rewrite (proj2 (total_quantity_test "total quantity"))
        by (apply total_quantity_test; vm_compute; reflexivity).
Qed.

(** ** Forecast summary: direction, sign and NaN *)

(** X12: the direction and the percentage of the summary agree, for any
    two means that are numbers: the percent change is never NaN, it is
    positive exactly when the summary says "increase", and it is a zero
    exactly when the two means are equal (the summary then says
    "decrease").  The denominator is at least 1e-6, so the division is
    always defined. *)
Theorem percent_change_sign (nextFcMean lastHistMean : double) :
  Double.finite nextFcMean → Double.finite lastHistMean →
  let percent := percent_change nextFcMean lastHistMean in
  percent ≠ NaN
  ∧ (float_gt nextFcMean lastHistMean = true ↔ Double.lt (Num (Q2Qc 0)) percent = true)
  ∧ (Double.is_zero percent = true ↔ Double.value nextFcMean = Double.value lastHistMean)
  ∧ Double.lt (Num (Q2Qc 0)) (py_max (Double.abs lastHistMean) epsilon) = true.
Proof.
  intros Hn Hl percent.
  destruct (SignFacts.py_max_abs lastHistMean Hl) as (m & HM & Hm & Hbound).
  assert (m ≠ Q2Qc 0) as Hm0 by (intros ->; by apply Qclt_not_eq in Hm).
  assert (float_gt nextFcMean lastHistMean
          = bool_decide (Double.value lastHistMean < Double.value nextFcMean)%Qc) as Hgt.
  { by destruct nextFcMean, lastHistMean. }
  subst percent. unfold percent_change. rewrite HM, Hgt.
  assert (Double.lt (Num (Q2Qc 0)) (Num m) = true) as Hden.
  { unfold Double.lt, Double.value. by apply bool_decide_eq_true. }
  destruct (SignFacts.sub_finite nextFcMean lastHistMean Hn Hl) as [[Heq Hzero] | [Hne Hsub]].
  - set (D := Double.sub nextFcMean lastHistMean) in *.
    destruct (SignFacts.div_mul_zero D m (Qc_of_Z 100) Hzero Hm0) as [s Hs].
    rewrite Hs, Heq. split_and!; [by destruct s | | | done].
    + rewrite bool_decide_false by (intros H; by apply Qclt_not_eq in H).
      split; [done |]. by destruct s.
    + split; [done |]. by destruct s.
  - rewrite Hsub.
    pose proof (SignFacts.finite_value _ Hn) as Hrn.
    pose proof (SignFacts.finite_value _ Hl) as Hrl.
    destruct (SignFacts.round_sub_gap _ _ Hrn Hrl Hne) as [Haway Hgap].
    set (s := Qnum (Double.value nextFcMean - Double.value lastHistMean)%Qc <? 0) in *.
    set (D := Double.round (Double.value nextFcMean - Double.value lastHistMean)) in *.
    assert (away_from_zero s (Double.mul (Double.div D (Num m)) (Num (Qc_of_Z 100))))
      as Hpercent.
    { apply SignFacts.mul_away; [| by apply Z2Qc_inj_le].
      apply SignFacts.div_away; [done | done |].
      intros x Hx. destruct Hbound as [Hb | Hb].
      - etrans; [| by apply Hgap].
        apply Qcmult_le_mono_nonneg_l; [apply Qclt_le_weak, SignFacts.unit_pos | done].
      - rewrite Hx in Haway. destruct Haway as [Hx1 _].
        etrans; [| exact Hx1].
        rewrite <- (Qcmult_1_r (Double.Qc_of_units 1)) at 2.
        apply Qcmult_le_mono_nonneg_l; [apply Qclt_le_weak, SignFacts.unit_pos |].
        by rewrite <- Z2Qc_inj_1. }
    destruct (SignFacts.away_facts _ _ Hpercent) as (Hlt & Hnan & Hnz).
    rewrite Hlt, Hnz. split_and!; [done | | | done].
    + subst s. rewrite GridFacts.Qnum_neg.
      rewrite <- (bool_decide_ext (Double.value nextFcMean < Double.value lastHistMean)%Qc
                    (Double.value nextFcMean - Double.value lastHistMean < Q2Qc 0)%Qc).
      2:{ rewrite (Qclt_minus_iff (Double.value nextFcMean) (Double.value lastHistMean)).
          rewrite (Qclt_minus_iff _ (Q2Qc 0)).
          replace (Q2Qc 0 + - (Double.value nextFcMean - Double.value lastHistMean))%Qc
            with (Double.value lastHistMean + - Double.value nextFcMean)%Qc by ring.
          done. }
      destruct (Qc_dec (Double.value lastHistMean) (Double.value nextFcMean))
        as [[Hlt' | Hgt'] | Heq']; [| | by destruct Hne].
      * rewrite bool_decide_true by done.
        rewrite bool_decide_false; [done |].
        intros H. by apply (Qclt_not_le _ _ H), Qclt_le_weak.
      * rewrite (bool_decide_false (_ < _)%Qc)
          by (intros H; by apply (Qclt_not_le _ _ H), Qclt_le_weak).
        by rewrite bool_decide_true.
    + split; [done | by intros ?].
Qed.

Lemma percent_change_sign_witness :
  float_gt (Num (Qc_of_Z 2001)) (Num (Qc_of_Z 2000)) = true
  ∧ Double.lt (Num (Q2Qc 0)) (percent_change (Num (Qc_of_Z 2001)) (Num (Qc_of_Z 2000))) = true
  ∧ Double.is_zero (percent_change (Num (Qc_of_Z 2000)) (Num (Qc_of_Z 2000))) = true.
Proof.
  assert (Double.finite (Num (Qc_of_Z 2001))) as H1 by (apply DoubleFacts.round_Z; by vm_compute).
  assert (Double.finite (Num (Qc_of_Z 2000))) as H0 by (apply DoubleFacts.round_Z; by vm_compute).
  destruct (percent_change_sign _ _ H1 H0) as (_ & Hgt & _ & _).
  destruct (percent_change_sign _ _ H0 H0) as (_ & _ & Hzero & _).
  split_and!; [by vm_compute | apply Hgt; by vm_compute | by apply Hzero].
Defined.

(** X13: when the prediction has no row up to the last historical day,
    or no row after it, the mean over the empty window is NaN: the
    summary then says "decrease" and prints the percentage as "nan". *)
Theorem forecast_summary_nan (ds_last : Z) (forecast : list (Z * Qc)) :
  historical_yhat ds_last forecast = [] ∨ future_yhat ds_last forecast = [] →
  forecast_summary ds_last forecast
  = "Forecast suggests a decrease of approximately nan% over the next period.".
Proof.
  intros Hempty. unfold forecast_summary.
  assert (last_hist_mean ds_last forecast = NaN ∨ next_fc_mean ds_last forecast = NaN)
    as [H | H].
  { unfold last_hist_mean, next_fc_mean.
    fold (historical_yhat ds_last forecast) (future_yhat ds_last forecast).
    destruct Hempty as [-> | ->]; [by left | by right]. }
  - rewrite H. unfold float_gt, percent_change.
    by destruct (next_fc_mean ds_last forecast).
  - rewrite H. unfold float_gt, percent_change.
    by destruct (last_hist_mean ds_last forecast) as [x | | |];
      [unfold Double.sub, Double.opp; destruct (bool_decide _) | ..].
Qed.

Lemma forecast_summary_nan_witness :
  forecast_summary 8 history_only_forecast
  = "Forecast suggests a decrease of approximately nan% over the next period.".
Proof.
  apply forecast_summary_nan. right. vm_compute. reflexivity.
Defined.

(** ** Ingestion and upload *)

Lemma parse_csv_to_dataframe_invariant_witness :
  ∃ cols df,
    parse_csv_to_dataframe pandas_fixture "shipments.csv" = Ok (cols, df) ∧
    length df = 1%nat ∧
    Forall (λ r, is_Some (numeric r GrossQuantity) ∧ is_Some (other r ShipmentID) ∧
                 is_Some (datetime r ExitTime)) df.
Proof.
  eexists _, _. split; [vm_compute; reflexivity |]. split; [reflexivity |].
  apply Forall_forall. intros r Hr.
  eapply (parse_csv_to_dataframe_invariant pandas_fixture "shipments.csv");
    [vm_compute; reflexivity | exact Hr].
Defined.

(** X15: a file that [read_csv] accepts is parsed exactly when it has
    every required column; extra columns are kept.  The parsed rows are
    rows of the file, in the file's order.  Otherwise the parse raises an
    [HTTPException] with status 400 whose detail lists the required
    columns that are missing, in the order of [REQUIRED_COLUMNS]. *)
Theorem parse_requires_columns (pd : Pandas) (file : string) (raw : RawFrame) :
  read_csv pd file = inr raw →
  ((∀ c, c ∈ REQUIRED_COLUMNS → c ∈ raw_columns raw) ∧
   ∃ df, parse_csv_to_dataframe pd file = Ok (raw_columns raw, df) ∧
         df `sublist_of` (typed_row pd <$> raw_rows raw)) ∨
  (∃ missing,
     missing ≠ [] ∧ missing `sublist_of` REQUIRED_COLUMNS ∧
     (∀ c, c ∈ missing ↔ c ∈ REQUIRED_COLUMNS ∧ c ∉ raw_columns raw) ∧
     parse_csv_to_dataframe pd file
     = Raise (HTTPException 400 ("Missing required columns: " +:+ repr_list missing))).
Proof.
  intros Hread. unfold parse_csv_to_dataframe. rewrite Hread. run_result.
  destruct (filter (λ c, c ∉ raw_columns raw) REQUIRED_COLUMNS) as [|c0 missing] eqn:Hf.
  - left. split.
    + intros c Hc. destruct (decide (c ∈ raw_columns raw)) as [|Hout]; [done |].
      exfalso. by eapply (filter_nil_not_elem_of _ _ c Hf).
    + eexists. split; [done |]. apply sublist_filter.
  - right. exists (c0 :: missing). split_and!; [done | | | done].
    + rewrite <- Hf. apply sublist_filter.
    + intros c. rewrite <- Hf, list_elem_of_filter. tauto.
Qed.

Lemma parse_requires_columns_witness :
  parse_csv_to_dataframe pandas_partial "partial.csv"
  = Raise (HTTPException 400 "Missing required columns: ['FlowRate', 'BayCode']")
  ∧ ∃ cols df, parse_csv_to_dataframe pandas_fixture "shipments.csv" = Ok (cols, df).
Proof.
  split.
  - destruct (parse_requires_columns pandas_partial "partial.csv" _ eq_refl)
      as [[Hall _] | (missing & _ & _ & _ & _)]; vm_compute; reflexivity.
  - eexists _, _. vm_compute. reflexivity.
Defined.

(** X16: every upload that fails is answered with an [HTTPException] of
    status 400, whether pandas could not read the file or a required
    column is missing, and leaves the stored dataset as it was.  An upload
    that succeeds replaces the stored dataset by the parsed frame,
    whatever was stored, and reports the frame's row count and columns. *)
Theorem upload_csv_outcomes (pd : Pandas) (DATAFRAME : option DataFrame) (file : string) :
  match read_csv pd file with
  | inl reason =>
      upload_csv pd DATAFRAME file
      = (Raise (HTTPException 400 ("Failed to parse CSV: " +:+ reason)), DATAFRAME)
  | inr raw =>
      match parse_csv_to_dataframe pd file with
      | Ok (cols, df) =>
          upload_csv pd DATAFRAME file
          = (Ok {| message := "CSV loaded"; rows := length df; columns := cols |}, Some df)
          ∧ cols = raw_columns raw
      | Raise e =>
          upload_csv pd DATAFRAME file = (Raise e, DATAFRAME) ∧
          ∃ detail, e = HTTPException 400 detail
      end
  end.
Proof.
  unfold upload_csv, parse_csv_to_dataframe.
  destruct (read_csv pd file) as [reason | raw]; run_result; [done |].
  destruct (filter _ REQUIRED_COLUMNS); [done |]. split; [done | eauto].
Qed.

Lemma agent_answer_truncated_witness :
  ai_dataframe_answer ext_agent_up three_rows "Which product is the most common?"
  = Ok {[ "text" := PyStr.slice_to 4000 (repeat_string 410 "0123456789") ]}
  ∧ String.length (repeat_string 410 "0123456789") = 4100%nat
  ∧ String.length (PyStr.slice_to 4000 (repeat_string 410 "0123456789")) = 4000%nat.
Proof.
  destruct (agent_answer_truncated ext_agent_up three_rows
              "Which product is the most common?" _ ltac:(discriminate) eq_refl)
    as (Hanswer & _).
  split_and!; [exact Hanswer | vm_compute; reflexivity | vm_compute; reflexivity].
Defined.
